(** * sherlockbench-client: the conversation protocol, embedded and verified

    A shallow embedding of the Python sources

      - [sherlockbench_anthropic/investigate.py]  (argument keys, the
        Investigation Loop),
      - [sherlockbench_anthropic/verify.py], [sherlockbench_openai/verify.py],
        [sherlockbench_google/verify.py]  (the Verification Loop),
      - [sherlockbench_client/run_utils.py]  (resuming an interrupted run,
        run identifiers, the configuration and the request of a new run,
        the failure snapshot),
      - [sherlockbench_fireworks/main.py]  (the completion arguments, the
        loop over the attempts).

    Python data is modelled as the code has it: a [str] is its sequence of
    code points, a [dict] is an association list in insertion order with
    unique keys, an [int] is a [Z].  The oracle server and the model
    provider are collaborators reached through [postfn] and [completionfn];
    they are interfaces (type classes) over an explicit world, and every
    call is recorded in a log so that calls can be counted.  Console output
    ([printer], [print]) has no effect on control flow and is left out.

    The first part of the file holds the embedding, the second part the
    lemmas and theorems. *)

From Stdlib Require Import String Ascii.
From Stdlib Require Import List NArith ZArith Bool Lia.
From Stdlib Require Import Permutation Sorted DecimalString.
Import ListNotations.

Set Implicit Arguments.
Set Warnings "-register-all".

(* ################################################################# *)
(** * Part I: the embedding *)

(** ** Python strings *)

Definition codepoint := N.
Definition pystr := list codepoint.

(** [py "abc"] is the Python string literal ['abc']. *)
Definition py (s : string) : pystr :=
  map N_of_ascii (list_ascii_of_string s).

(** ** Exceptions and results *)

Inductive exn :=
| ValueError
| TypeError
| KeyError
| IndexError
| AttributeError
| JSONDecodeError
| MsgLimitException
| SystemExit (code : Z).

Inductive result (A : Type) :=
| Ok (a : A)
| Raise (e : exn).
Arguments Ok {A} a.
Arguments Raise {A} e.

Definition rbind {A B} (r : result A) (k : A -> result B) : result B :=
  match r with
  | Ok a => k a
  | Raise e => Raise e
  end.

(** A list comprehension whose body may raise: the first failure aborts. *)
Fixpoint mapM {A B} (f : A -> result B) (l : list A) : result (list B) :=
  match l with
  | [] => Ok []
  | x :: t => rbind (f x) (fun y => rbind (mapM f t) (fun ys => Ok (y :: ys)))
  end.

(** [chr(i)]: the one-character string of code point [i]; [ValueError]
    outside [range(0x110000)]. *)
Definition chr (i : Z) : result pystr :=
  if ((0 <=? i) && (i <? 1114112))%Z then Ok [Z.to_N i] else Raise ValueError.

(** [range(n)] for a length [n]. *)
Definition range (n : nat) : list Z := map Z.of_nat (seq 0 n).

(** Comparison of strings: lexicographic on code points. *)
Fixpoint str_compare (a b : pystr) : comparison :=
  match a, b with
  | [], [] => Eq
  | [], _ :: _ => Lt
  | _ :: _, [] => Gt
  | x :: a', y :: b' =>
      match N.compare x y with
      | Eq => str_compare a' b'
      | c => c
      end
  end.

Definition str_eqb (a b : pystr) : bool :=
  match str_compare a b with Eq => true | _ => false end.

Definition str_leb (a b : pystr) : bool :=
  match str_compare a b with Gt => false | _ => true end.

Definition str_le (a b : pystr) : Prop := str_leb a b = true.

(** [sorted(l)] on strings.  Python's sort is stable; so is this insertion
    sort: an element is placed before the first element it does not exceed. *)
Fixpoint insort (x : pystr) (l : list pystr) : list pystr :=
  match l with
  | [] => [x]
  | y :: t => if str_leb x y then x :: l else y :: insort x t
  end.

Fixpoint sorted (l : list pystr) : list pystr :=
  match l with
  | [] => []
  | x :: t => insort x (sorted t)
  end.

(** ** Dictionaries

    Insertion-ordered, keys unique.  [dict_set] is [d[k] = v]: an existing
    key keeps its place, a new key goes last. *)

Definition dict (V : Type) := list (pystr * V).

Fixpoint dict_get {V} (d : dict V) (k : pystr) : option V :=
  match d with
  | [] => None
  | (k', v) :: t => if str_eqb k k' then Some v else dict_get t k
  end.

Fixpoint dict_set {V} (d : dict V) (k : pystr) (v : V) : dict V :=
  match d with
  | [] => [(k, v)]
  | (k', v') :: t =>
      if str_eqb k k' then (k', v) :: t else (k', v') :: dict_set t k v
  end.

Definition dict_keys {V} (d : dict V) : list pystr := map fst d.

(** [d[k]], raising [KeyError] for a missing key. *)
Definition dict_getitem {V} (d : dict V) (k : pystr) : result V :=
  match dict_get d k with
  | Some v => Ok v
  | None => Raise KeyError
  end.

(** [{k: v for k, v in items}] *)
Definition dict_of_items {V} (items : list (pystr * V)) : dict V :=
  fold_left (fun d kv => dict_set d (fst kv) (snd kv)) items [].

(** ** investigate.py: argument keys

    [[
    def list_to_map(input_list):
        keys = [chr(97 + i) for i in range(len(input_list))]
        return {key: {"type": item} for key, item in zip(keys, input_list)}

    def normalize_args(input_dict):
        return [input_dict[key] for key in sorted(input_dict.keys())]
    ]] *)

Definition list_to_map {A} (input_list : list A) : result (dict (dict A)) :=
  rbind (mapM (fun i => chr (97 + i)%Z) (range (length input_list)))
    (fun keys =>
       Ok (dict_of_items
             (map (fun ki => (fst ki, [(py "type", snd ki)]))
                (combine keys input_list)))).

Definition normalize_args {V} (input_dict : dict V) : result (list V) :=
  mapM (dict_getitem input_dict) (sorted (dict_keys input_dict)).

(** The keys [list_to_map] hands out for [n] arguments, as strings:
    ['a'], ['b'], ['c'], ... (code points 97, 98, 99, ...). *)
Definition arg_keys (n : nat) : list pystr :=
  map (fun i => [N.of_nat (97 + i)]) (seq 0 n).

(** The positional vector of a key-to-value mapping: its keys in sorted
    order, each replaced by its value. *)
Definition positional_args {V} (default : V) (input : dict V) : list V :=
  map (fun k => match dict_get input k with Some v => v | None => default end)
    (sorted (dict_keys input)).

(** In the words of the specification: [vs] is "the positional argument
    vector recovered by sorting the invocation's argument keys
    alphabetically and projecting the values in that order". *)
Definition positional_vector {V} (input : dict V) (vs : list V) : Prop :=
  exists ks,
    Permutation ks (dict_keys input)
    /\ StronglySorted str_le ks
    /\ map (dict_get input) ks = map Some vs.

(** ** More string operations ([verify.py], [run_utils.py]) *)

(** [str.isspace] on one character: the code points Python's [strip()]
    removes. *)
Definition isspace (c : codepoint) : bool :=
  ((9 <=? c) && (c <=? 13) || (28 <=? c) && (c <=? 32)
   || (c =? 133) || (c =? 160) || (c =? 5760)
   || (8192 <=? c) && (c <=? 8202)
   || (c =? 8232) || (c =? 8233) || (c =? 8239) || (c =? 8287)
   || (c =? 12288))%N.

Fixpoint lstrip (s : pystr) : pystr :=
  match s with
  | c :: t => if isspace c then lstrip t else s
  | [] => []
  end.

Definition rstrip (s : pystr) : pystr := rev (lstrip (rev s)).

(** [s.strip()] *)
Definition strip (s : pystr) : pystr := rstrip (lstrip s).

(** [s.startswith(p)] *)
Fixpoint startswith (s p : pystr) : bool :=
  match p, s with
  | [], _ => true
  | _ :: _, [] => false
  | a :: p', b :: s' => (a =? b)%N && startswith s' p'
  end.

(** [s.endswith(p)] *)
Definition endswith (s p : pystr) : bool := startswith (rev s) (rev p).

(** [s[n:]] and [s[:-n]] for a literal [n > 0]. *)
Definition slice_from (n : nat) (s : pystr) : pystr := skipn n s.
Definition slice_to_minus (n : nat) (s : pystr) : pystr :=
  firstn (length s - n) s.

(** [x in s] for strings: [x] occurs in [s] as a contiguous substring. *)
Fixpoint str_in (x s : pystr) : bool :=
  startswith s x
  || match s with
     | [] => false
     | _ :: s' => str_in x s'
     end.

(** [x] is a contiguous substring of [s]. *)
Definition substring (x s : pystr) : Prop :=
  exists before after, s = before ++ x ++ after.

(** [s.lower()], exact on ASCII and Latin-1 letters; other code points are
    left as they are (this file only lowers text to search it for ASCII
    words). *)
Definition lower_char (c : codepoint) : codepoint :=
  (if (65 <=? c) && (c <=? 90)
      || (192 <=? c) && (c <=? 222) && negb (c =? 215)
   then c + 32 else c)%N.

Definition lower (s : pystr) : pystr := map lower_char s.

(** ** Python values (what JSON carries) *)

Inductive pyval :=
| PNone
| PBool (b : bool)
| PInt (z : Z)
| PFloat (literal : pystr)   (* a float, kept as its decimal literal *)
| PStr (s : pystr)
| PList (l : list pyval)
| PDict (d : list (pystr * pyval)).

(** A float literal denotes zero when its mantissa has no non-zero digit. *)
Fixpoint mantissa_is_zero (lit : pystr) : bool :=
  match lit with
  | [] => true
  | c :: t =>
      if ((c =? 101) || (c =? 69))%N then true
      else if ((49 <=? c) && (c <=? 57) || (65 <=? c))%N then false
      else mantissa_is_zero t
  end.

(** The value of a float literal as [digits * 10 ^ exponent]: the digits
    of the mantissa with the dot dropped and the number of digits after
    the dot, then the decimal exponent; [None] for a literal that is not of
    this form ([inf], [nan]). *)
Fixpoint scan_mantissa (lit : pystr) (digits : Z) (after_dot : bool)
  (scale : Z) : option (Z * Z * pystr) :=
  match lit with
  | [] => Some (digits, scale, [])
  | c :: t =>
      if ((48 <=? c) && (c <=? 57))%N
      then scan_mantissa t (10 * digits + (Z.of_N c - 48))%Z after_dot
             (if after_dot then scale + 1 else scale)%Z
      else if (c =? 46)%N then scan_mantissa t digits true scale
      else if ((c =? 45) || (c =? 43))%N
      then scan_mantissa t digits after_dot scale
      else if ((c =? 101) || (c =? 69))%N then Some (digits, scale, t)
      else None
  end.

Fixpoint scan_digits (s : pystr) (acc : Z) : option Z :=
  match s with
  | [] => Some acc
  | c :: t =>
      if ((48 <=? c) && (c <=? 57))%N
      then scan_digits t (10 * acc + (Z.of_N c - 48))%Z
      else None
  end.

Definition decimal_exponent (s : pystr) : option Z :=
  match s with
  | 45%N :: t =>
      match scan_digits t 0 with
      | Some e => Some (- e)%Z
      | None => None
      end
  | 43%N :: t => scan_digits t 0
  | _ => scan_digits s 0
  end.

(** [float(lit)] rounds to the nearest double, ties to even: a literal
    whose magnitude is at most [2 ^ -1075], half of the least positive
    double, denotes [0.0]. *)
Definition float_underflows (lit : pystr) : bool :=
  match scan_mantissa lit 0 false 0 with
  | Some (digits, scale, rest) =>
      match decimal_exponent rest with
      | Some e =>
          let exponent := (e - scale)%Z in
          ((exponent <? 0) && (digits * 2 ^ 1075 <=? 10 ^ (- exponent)))%Z
      | None => false
      end
  | None => false
  end.

(** Truth value of an object in a condition. *)
Definition truthy (v : pyval) : bool :=
  match v with
  | PNone => false
  | PBool b => b
  | PInt z => negb (z =? 0)%Z
  | PFloat lit => negb (mantissa_is_zero lit || float_underflows lit)
  | PStr s => match s with [] => false | _ => true end
  | PList l => match l with [] => false | _ => true end
  | PDict d => match d with [] => false | _ => true end
  end.

(** [v[k]] for a string key [k]: only a dict can be indexed by a string. *)
Definition py_getitem (v : pyval) (k : pystr) : result pyval :=
  match v with
  | PDict d => dict_getitem d k
  | _ => Raise TypeError
  end.

(** [v.get(k, default)]: only a dict has [get]. *)
Definition py_get (v : pyval) (k : pystr) (default : pyval) : result pyval :=
  match v with
  | PDict d => Ok (match dict_get d k with Some x => x | None => default end)
  | _ => Raise AttributeError
  end.

(** [v in s] where [s] is a string: a substring test, and a [TypeError]
    unless [v] is a string too. *)
Definition py_in_str (v : pyval) (s : pystr) : result bool :=
  match v with
  | PStr x => Ok (str_in x s)
  | _ => Raise TypeError
  end.

(** The verdict protocol, as all three [verify.py] files have it after
    reading [vstatus]:
    [[
    if vstatus in ("wrong"):
        return False
    ...
    if vstatus in ("done"):
        break
    ]]
    [("wrong")] is the string ['wrong'], not a tuple, so both tests are
    substring tests. *)
Inductive branch := Wrong | Done | NextCase.

Definition verdict (vstatus : pyval) : result branch :=
  rbind (py_in_str vstatus (py "wrong")) (fun wrong =>
    if (wrong : bool) then Ok Wrong
    else
      rbind (py_in_str vstatus (py "done")) (fun done =>
        if (done : bool) then Ok Done else Ok NextCase)).

(** A string made of white space only. *)
Definition blank (s : pystr) : Prop := forallb isspace s = true.

(** The [json] module: [json.loads] on a string ([None] stands for
    [json.JSONDecodeError]) and [json.dumps]. *)
Class Json := {
  json_loads : pystr -> option pyval;
  json_dumps : pyval -> pystr
}.

(** [json.loads(x)] where [x] may be [None]: anything but text is a
    [TypeError]. *)
Definition json_loads_obj `{Json} (x : option pystr) : result pyval :=
  match x with
  | None => Raise TypeError
  | Some s =>
      match json_loads s with
      | Some v => Ok v
      | None => Raise JSONDecodeError
      end
  end.

(** Modelled from the spec: [destructure] is defined in
    [sherlockbench_client/main.py], which is not among the sources; the
    response is "structured data with fields [thoughts] and
    [expected_output]", so [destructure(v, k1, k2)] is the pair
    [(v[k1], v[k2])]. *)
Definition destructure2 (v : pyval) (k1 k2 : pystr) : result (pyval * pyval) :=
  rbind (py_getitem v k1) (fun a =>
  rbind (py_getitem v k2) (fun b => Ok (a, b))).

(** ** Effects: the world of the collaborators and a log of the calls *)

Inductive event :=
| ModelCall
| OracleCall (endpoint : pystr) (payload : pyval)
| ResetCall (run_id attempt_id : pystr).

Record state (W : Type) := mkState { world : W; log : list event }.

Definition M (W A : Type) := state W -> result A * state W.

Definition ret {W A} (a : A) : M W A := fun st => (Ok a, st).

Definition raise {W A} (e : exn) : M W A := fun st => (Raise e, st).

Definition bind {W A B} (c : M W A) (k : A -> M W B) : M W B :=
  fun st =>
    match c st with
    | (Ok a, st') => k a st'
    | (Raise e, st') => (Raise e, st')
    end.

Definition lift {W A} (r : result A) : M W A := fun st => (r, st).

Notation "x <- c ;; k" := (bind c (fun x => k))
  (at level 61, c at next level, right associativity).
Notation "' p <- c ;; k" := (bind c (fun x => let 'p := x in k))
  (at level 61, p pattern, c at next level, right associativity).

(** How a verification loop goes on after one case: [case] is the outcome
    of the case up to reading [vstatus], [next] the rest of the loop. *)
Definition dispatch {W} (case : result (option pyval) * state W)
  (next : M W (option bool)) : result (option bool) * state W :=
  match case with
  | (Ok (Some vstatus), st) =>
      match verdict vstatus with
      | Ok Wrong => (Ok (Some false), st)
      | Ok Done => (Ok (Some true), st)
      | Ok NextCase => next st
      | Raise e => (Raise e, st)
      end
  | (Ok None, st) => (Ok (Some true), st)
  | (Raise e, st) => (Raise e, st)
  end.

(** The oracle server: [postfn(endpoint, payload)] returns the decoded
    reply. *)
Class Oracle (W : Type) := {
  postfn : pystr -> pyval -> W -> pyval * W
}.

Definition post {W} `{Oracle W} (endpoint : pystr) (payload : pyval)
  : M W pyval :=
  fun st =>
    let (reply, w) := postfn endpoint payload (world st) in
    (Ok reply, mkState w (log st ++ [OracleCall endpoint payload])).

Definition model_calls (l : list event) : nat :=
  length (filter (fun e => match e with ModelCall => true | _ => false end) l).

Definition oracle_calls (l : list event) : list (pystr * pyval) :=
  flat_map (fun e => match e with
                     | OracleCall ep p => [(ep, p)]
                     | _ => []
                     end) l.

(** The number of requests sent to one endpoint of the oracle. *)
Definition calls_to (endpoint : pystr) (l : list event) : nat :=
  length (filter (fun c => str_eqb (fst c) endpoint) (oracle_calls l)).

(* ================================================================= *)
(** ** sherlockbench_anthropic *)

Module Anthropic.

(** What the SDK returns in [completion.content]. *)
Record tool_use := ToolUse {
  tool_id : pystr;
  tool_name : pystr;
  tool_input : dict pyval
}.

Inductive content_block :=
| ThinkingBlock (thinking signature : pystr)
| RedactedThinkingBlock (data : pystr)
| TextBlock (text : pystr)
| ToolUseBlock (call : tool_use)
| OtherBlock.

(** What the client puts into the transcript. *)
Inductive item :=
| ThinkingItem (thinking signature : pystr)
| RedactedThinkingItem
| TextItem (text : pystr)
| ToolUseItem (call : tool_use)
| ToolResultItem (tool_use_id : pystr) (content : pystr).

Inductive role := assistant | user.

Inductive message :=
| Message (r : role) (content : list item)
| Prompt (r : role) (text : pyval).

Record tool := Tool {
  name : pystr;
  description : pystr;
  properties : dict (dict pyval);
  required : list pystr
}.

Record config := Config { msg_limit : Z }.

(** The model provider, and the two helpers of [prompts.py] and
    [sherlockbench_client] that build the verification prompt. *)
Class Provider (W : Type) := {
  completionfn : list message -> option (list tool) -> W
                 -> list content_block * W;
  make_verification_message : pyval -> message;
  value_list_to_map : pyval -> pyval
}.

Section Loops.

Context {W : Type} `{Oracle W} `{Provider W} `{Json}.

Definition complete (messages : list message) (tools : option (list tool))
  : M W (list content_block) :=
  fun st =>
    let (completion, w) := completionfn messages tools (world st) in
    (Ok completion, mkState w (log st ++ [ModelCall])).

(** [next((... for item in content if isinstance(item, K)), None)] *)
Fixpoint first_thinking (content : list content_block)
  : option (pystr * pystr) :=
  match content with
  | [] => None
  | ThinkingBlock t s :: _ => Some (t, s)
  | _ :: rest => first_thinking rest
  end.

Fixpoint first_redacted (content : list content_block) : option pystr :=
  match content with
  | [] => None
  | RedactedThinkingBlock d :: _ => Some d
  | _ :: rest => first_redacted rest
  end.

Fixpoint first_text (content : list content_block) : option pystr :=
  match content with
  | [] => None
  | TextBlock t :: _ => Some t
  | _ :: rest => first_text rest
  end.

Fixpoint tool_uses (content : list content_block) : list tool_use :=
  match content with
  | [] => []
  | ToolUseBlock c :: rest => c :: tool_uses rest
  | _ :: rest => tool_uses rest
  end.

Definition parse_completion (content : list content_block) :=
  (first_thinking content, first_redacted content, first_text content,
   tool_uses content).

(** [[
    def handle_tool_call(postfn, printer, attempt_id, call):
        arguments = call.input
        call_id = call.id
        args_norm = normalize_args(arguments)
        response = postfn("test-function", {"attempt-id": attempt_id,
                                            "args": args_norm})
        fnoutput = response.get("output", "Error calling tool")
        function_call_result_message = {"type": "tool_result",
                                        "tool_use_id": call_id,
                                        "content": json.dumps(fnoutput)}
        return function_call_result_message
    ]] *)
Definition test_function_payload (attempt_id : pyval) (args : list pyval)
  : pyval :=
  PDict [(py "attempt-id", attempt_id); (py "args", PList args)].

Definition handle_tool_call (attempt_id : pyval) (call : tool_use)
  : M W item :=
  let arguments := tool_input call in
  let call_id := tool_id call in
  args_norm <- lift (normalize_args arguments) ;;
  response <- post (py "test-function")
                (test_function_payload attempt_id args_norm) ;;
  fnoutput <- lift (py_get response (py "output")
                      (PStr (py "Error calling tool"))) ;;
  ret (ToolResultItem call_id (json_dumps fnoutput)).

(** The blocks both branches of [investigate] put in front of the
    assistant message: thinking, the redacted marker, the text. *)
Definition content_blocks (thinking : option (pystr * pystr))
  (redacted_thinking : option pystr) (message : option pystr) : list item :=
  match thinking with
  | Some (t, s) => [ThinkingItem t s]
  | None => []
  end
  ++ match redacted_thinking with
     | Some _ => [RedactedThinkingItem]
     | None => []
     end
  ++ match message with
     | Some m => [TextItem m]
     | None => []
     end.

(** [[
    for call in tool_calls:
        tool_call_user_message["content"].append(handle_tool_call(...))
        tool_call_counter += 1
    ]] *)
Fixpoint handle_tool_calls (attempt_id : pyval) (tool_calls : list tool_use)
  (content : list item) (tool_call_counter : Z) : M W (list item * Z) :=
  match tool_calls with
  | [] => ret (content, tool_call_counter)
  | call :: rest =>
      r <- handle_tool_call attempt_id call ;;
      handle_tool_calls attempt_id rest (content ++ [r])
        (tool_call_counter + 1)
  end.

(** The body of [for count in range(0, msg_limit)], with [n] iterations
    left; falling out of the loop raises [MsgLimitException]. *)
Fixpoint investigate_loop (n : nat) (tools : list tool) (attempt_id : pyval)
  (messages : list message) (tool_call_counter : Z)
  : M W (list message * Z) :=
  match n with
  | O => raise MsgLimitException
  | S n' =>
      completion <- complete messages (Some tools) ;;
      let '(thinking, redacted_thinking, message, tool_calls) :=
        parse_completion completion in
      match tool_calls with
      | _ :: _ =>
          let messages :=
            messages ++
            [Message assistant
               (content_blocks thinking redacted_thinking message
                ++ map ToolUseItem tool_calls)] in
          ' (content, tool_call_counter) <-
            handle_tool_calls attempt_id tool_calls [] tool_call_counter ;;
          investigate_loop n' tools attempt_id
            (messages ++ [Message user content]) tool_call_counter
      | [] =>
          ret (messages ++
               [Message assistant
                  (content_blocks thinking redacted_thinking message)],
               tool_call_counter)
      end
  end.

Definition mystery_function (mapped_args : dict (dict pyval)) : tool :=
  {| name := py "mystery_function";
     description := py "Use this tool to test the mystery function.";
     properties := mapped_args;
     required := dict_keys mapped_args |}.

Definition investigate (cfg : config) (messages : list message)
  (attempt_id : pyval) (arg_spec : list pyval) : M W (list message * Z) :=
  let msg_limit := msg_limit cfg in
  mapped_args <- lift (list_to_map arg_spec) ;;
  let tools := [mystery_function mapped_args] in
  investigate_loop (Z.to_nat msg_limit) tools attempt_id messages 0.

(** The replies of the oracle to the [test-function] calls of one turn,
    in the order of the invocations. *)
Fixpoint test_function_replies (attempt_id : pyval) (calls : list tool_use)
  (w : W) : list pyval * W :=
  match calls with
  | [] => ([], w)
  | call :: rest =>
      let (reply, w1) :=
        postfn (py "test-function")
          (test_function_payload attempt_id
             (positional_args PNone (tool_input call))) w in
      let (replies, w2) := test_function_replies attempt_id rest w1 in
      (reply :: replies, w2)
  end.

Definition is_mapping (v : pyval) : bool :=
  match v with
  | PDict _ => true
  | _ => false
  end.

(** The tool-result block for an invocation and the reply it got. *)
Definition tool_result (call : tool_use) (reply : pyval) : item :=
  ToolResultItem (tool_id call)
    (json_dumps
       match reply with
       | PDict d =>
           match dict_get d (py "output") with
           | Some output => output
           | None => PStr (py "Error calling tool")
           end
       | _ => PNone
       end).

Definition test_function_call (attempt_id : pyval) (call : tool_use)
  : event :=
  OracleCall (py "test-function")
    (test_function_payload attempt_id
       (positional_args PNone (tool_input call))).



(** *** verify.py *)

(** [[
    cleaned_response = response
    if cleaned_response and cleaned_response.strip().startswith("```json"):
        cleaned_response = cleaned_response.strip()[7:].strip()
    if cleaned_response and cleaned_response.strip().endswith("```"):
        cleaned_response = cleaned_response.strip()[:-3].strip()
    ]] *)
Definition nonempty (x : option pystr) : bool :=
  match x with
  | Some (_ :: _) => true
  | _ => false
  end.

Definition strip_leading_fence (cleaned_response : option pystr)
  : option pystr :=
  match cleaned_response with
  | Some c =>
      if nonempty cleaned_response && startswith (strip c) (py "```json")
      then Some (strip (slice_from 7 (strip c)))
      else cleaned_response
  | None => None
  end.

Definition strip_trailing_fence (cleaned_response : option pystr)
  : option pystr :=
  match cleaned_response with
  | Some c =>
      if nonempty cleaned_response && endswith (strip c) (py "```")
      then Some (strip (slice_to_minus 3 (strip c)))
      else cleaned_response
  | None => None
  end.

Definition clean_response (response : option pystr) : option pystr :=
  strip_trailing_fence (strip_leading_fence response).

(** The body of the [try]: the cleaned text is decoded and destructured. *)
Definition parse_response (response : option pystr)
  : result (pyval * pyval) :=
  rbind (json_loads_obj (clean_response response))
    (fun v => destructure2 v (py "thoughts") (py "expected_output")).

(** [while attempts < 3], with [3 - attempts] iterations left.  Only
    [json.JSONDecodeError] is caught; [thoughts] and [expected_output] keep
    their initial value [""] when every attempt fails. *)
Fixpoint ask_prediction (left : nat) (vmessages : list message)
  : M W (pyval * pyval) :=
  match left with
  | O => ret (PStr [], PStr [])
  | S left' =>
      completion <- complete vmessages None ;;
      let response := first_text completion in
      match parse_response response with
      | Ok te => ret te
      | Raise JSONDecodeError => ask_prediction left' vmessages
      | Raise e => raise e
      end
  end.

(** [messages[-1]] *)
Definition last_message (messages : list message) : result message :=
  match rev messages with
  | m :: _ => Ok m
  | [] => Raise IndexError
  end.

Definition attempt_payload (attempt_id : pyval) : pyval :=
  PDict [(py "attempt-id", attempt_id)].

Definition prediction_payload (attempt_id expected_output : pyval) : pyval :=
  PDict [(py "attempt-id", attempt_id); (py "prediction", expected_output)].

(** One pass through the body of
    [while (v_data := postfn("next-verification", ...))] up to the point
    where [vstatus] is read: [None] when the oracle has no further case. *)
Definition verification_case (messages : list message) (attempt_id : pyval)
  : M W (option pyval) :=
  v_data <- post (py "next-verification") (attempt_payload attempt_id) ;;
  if truthy v_data then
    verification <- lift (py_getitem v_data (py "next-verification")) ;;
    output_type <- lift (py_getitem v_data (py "output-type")) ;;
    last <- lift (last_message messages) ;;
    let vmessages :=
      [last; make_verification_message (value_list_to_map verification)] in
    ' (thoughts, expected_output) <- ask_prediction 3 vmessages ;;
    reply <- post (py "attempt-verification")
               (prediction_payload attempt_id expected_output) ;;
    vstatus <- lift (py_getitem reply (py "status")) ;;
    ret (Some vstatus)
  else ret None.

(** The [while] loop, given [fuel] iterations; [None] when the oracle
    still has cases after that many. *)
Fixpoint verify_loop (fuel : nat) (messages : list message)
  (attempt_id : pyval) : M W (option bool) :=
  match fuel with
  | O => ret None
  | S fuel' =>
      c <- verification_case messages attempt_id ;;
      match c with
      | Some vstatus =>
          b <- lift (verdict vstatus) ;;
          match b with
          | Wrong => ret (Some false)
          | Done => ret (Some true)
          | NextCase => verify_loop fuel' messages attempt_id
          end
      | None => ret (Some true)
      end
  end.

Definition verify := verify_loop.

End Loops.

(** *** The shape of what [investigate] appends *)

Definition tool_use_ids (content : list item) : list pystr :=
  flat_map (fun i => match i with
                     | ToolUseItem call => [tool_id call]
                     | _ => []
                     end) content.

Definition tool_result_ids (content : list item) : list pystr :=
  flat_map (fun i => match i with
                     | ToolResultItem id _ => [id]
                     | _ => []
                     end) content.

(** Zero or more exchanges (an assistant message with tool invocations,
    then a user message made of the results for exactly these invocations,
    in their order), closed by an assistant message without invocation. *)
Inductive exchanges : list message -> Prop :=
| exchanges_final blocks :
    tool_use_ids blocks = [] ->
    exchanges [Message assistant blocks]
| exchanges_turn blocks results rest :
    tool_use_ids blocks <> [] ->
    tool_result_ids results = tool_use_ids blocks ->
    length results = length (tool_use_ids blocks) ->
    exchanges rest ->
    exchanges (Message assistant blocks :: Message user results :: rest).

(** The number of tool-result blocks in a transcript. *)
Definition tool_results (messages : list message) : nat :=
  length (flat_map (fun m => match m with
                             | Message _ content => tool_result_ids content
                             | Prompt _ _ => []
                             end) messages).

(** *** The requests of one verification case

    The request for the case, then at most three model calls, then at most
    one prediction. *)
Definition case_requests (attempt_id : pyval) (requests : list event)
  : Prop :=
  exists n predictions,
    n <= 3
    /\ length predictions <= 1
    /\ requests
       = OracleCall (py "next-verification")
           (PDict [(py "attempt-id", attempt_id)])
         :: repeat ModelCall n
         ++ map (fun expected_output =>
                   OracleCall (py "attempt-verification")
                     (PDict [(py "attempt-id", attempt_id);
                             (py "prediction", expected_output)]))
              predictions.

End Anthropic.

(* ================================================================= *)
(** ** sherlockbench_openai/verify.py *)

Module OpenAI.

(** [completionfn] either raises [LengthFinishReasonError] or returns a
    completion, of which [verify] reads [choices[i].message.content]. *)
Inductive completion :=
| LengthFinishReasonError
| Completion (choices : list (option pystr)).

Class Provider (W : Type) := {
  message : Type;
  schema : Type;
  completionfn : list message -> schema -> W -> completion * W;
  make_verification_message : pyval -> message;
  make_schema : pyval -> schema
}.

Section Loops.

Context {W : Type} `{Oracle W} `{Provider W} `{Json}.

Definition complete (messages : list message) (response_format : schema)
  : M W completion :=
  fun st =>
    let (c, w) := completionfn messages response_format (world st) in
    (Ok c, mkState w (log st ++ [ModelCall])).

(** [choices[0]] *)
Definition first_choice (choices : list (option pystr))
  : result (option pystr) :=
  match choices with
  | c :: _ => Ok c
  | [] => Raise IndexError
  end.

(** One pass through the loop body up to the point where [vstatus] is
    read: [None] when the oracle has no further case or the completion
    raised [LengthFinishReasonError] (both leave the loop). *)
Definition verification_case (messages : list message) (attempt_id : pyval)
  : M W (option pyval) :=
  v_data <- post (py "next-verification")
              (PDict [(py "attempt-id", attempt_id)]) ;;
  if truthy v_data then
    verification <- lift (py_getitem v_data (py "next-verification")) ;;
    output_type <- lift (py_getitem v_data (py "output-type")) ;;
    let vmessages := messages ++ [make_verification_message verification] in
    completion <- complete vmessages (make_schema output_type) ;;
    match completion with
    | LengthFinishReasonError => ret None
    | Completion choices =>
        response <- lift (first_choice choices) ;;
        v <- lift (json_loads_obj response) ;;
        ' (thoughts, expected_output) <-
          lift (destructure2 v (py "thoughts") (py "expected_output")) ;;
        reply <- post (py "attempt-verification")
                   (PDict [(py "attempt-id", attempt_id);
                           (py "prediction", expected_output)]) ;;
        vstatus <- lift (py_getitem reply (py "status")) ;;
        ret (Some vstatus)
    end
  else ret None.

Fixpoint verify_loop (fuel : nat) (messages : list message)
  (attempt_id : pyval) : M W (option bool) :=
  match fuel with
  | O => ret None
  | S fuel' =>
      c <- verification_case messages attempt_id ;;
      match c with
      | Some vstatus =>
          b <- lift (verdict vstatus) ;;
          match b with
          | Wrong => ret (Some false)
          | Done => ret (Some true)
          | NextCase => verify_loop fuel' messages attempt_id
          end
      | None => ret (Some true)
      end
  end.

Definition verify := verify_loop.

End Loops.

End OpenAI.

(* ================================================================= *)
(** ** sherlockbench_google/verify.py *)

Module Google.

(** [completion.parsed]: an object with attributes [thoughts] and
    [expected_output], or [None]. *)
Definition completion := option (pyval * pyval).

Class Provider (W : Type) := {
  message : Type;
  prompt : Type;
  schema : Type;
  completionfn : list message -> schema -> W -> completion * W;
  value_list_to_map : pyval -> pyval;
  make_verification_message : pyval -> prompt;
  save_message : pystr -> prompt -> message;
  make_schema : pyval -> schema
}.

Section Loops.

Context {W : Type} `{Oracle W} `{Provider W}.

Definition complete (contents : list message) (sch : schema)
  : M W completion :=
  fun st =>
    let (c, w) := completionfn contents sch (world st) in
    (Ok c, mkState w (log st ++ [ModelCall])).

(** [completion.parsed.thoughts], [completion.parsed.expected_output] *)
Definition parsed (c : completion) : result (pyval * pyval) :=
  match c with
  | Some te => Ok te
  | None => Raise AttributeError
  end.

Definition verification_case (messages : list message) (attempt_id : pyval)
  : M W (option pyval) :=
  v_data <- post (py "next-verification")
              (PDict [(py "attempt-id", attempt_id)]) ;;
  if truthy v_data then
    verification <- lift (py_getitem v_data (py "next-verification")) ;;
    output_type <- lift (py_getitem v_data (py "output-type")) ;;
    let vmessages :=
      messages ++
      [save_message (py "user")
         (make_verification_message (value_list_to_map verification))] in
    completion <- complete vmessages (make_schema output_type) ;;
    ' (thoughts, expected_output) <- lift (parsed completion) ;;
    reply <- post (py "attempt-verification")
               (PDict [(py "attempt-id", attempt_id);
                       (py "prediction", expected_output)]) ;;
    vstatus <- lift (py_getitem reply (py "status")) ;;
    ret (Some vstatus)
  else ret None.

Fixpoint verify_loop (fuel : nat) (messages : list message)
  (attempt_id : pyval) : M W (option bool) :=
  match fuel with
  | O => ret None
  | S fuel' =>
      c <- verification_case messages attempt_id ;;
      match c with
      | Some vstatus =>
          b <- lift (verdict vstatus) ;;
          match b with
          | Wrong => ret (Some false)
          | Done => ret (Some true)
          | NextCase => verify_loop fuel' messages attempt_id
          end
      | None => ret (Some true)
      end
  end.

Definition verify := verify_loop.

End Loops.

End Google.

(* ================================================================= *)
(** ** sherlockbench_client/run_utils.py: resuming a run *)

Module RunUtils.

(** An attempt as the oracle hands it out and as the failure snapshot
    stores it: a JSON object whose ["attempt-id"], when present, is a
    string. *)
Record attempt := Attempt {
  attempt_id : option pystr;
  attempt_fields : dict pyval
}.

(** [failure_info] of a failed run; a missing key reads as its default
    ([None], [[]]). *)
Record failure_info := FailureInfo {
  current_attempt : option attempt;
  all_attempts : list attempt
}.

Record failed_run := FailedRun {
  failure : failure_info;
  benchmark_version : pyval;
  run_config : dict pyval
}.

Inductive resume_mode := skip | retry.

Definition resume_mode_eqb (a b : resume_mode) : bool :=
  match a, b with
  | skip, skip | retry, retry => true
  | _, _ => false
  end.

(** The endpoint [developer/reset-attempt], reached through [post] of
    [sherlockbench_client/main.py]: the reply as [str(response)] shows it,
    or the exception [post] raised. *)
Class ResetEndpoint (W : Type) := {
  post_reset : pystr -> pystr -> W -> result pystr * W
}.

Section Resume.

Context {W : Type} `{ResetEndpoint W}.

(** [[
    def reset_attempt(config, run_id, attempt_id):
        try:
            response = post(config["base-url"], str(run_id),
                            "developer/reset-attempt",
                            {"attempt-id": str(attempt_id)})
            if "success" in str(response).lower():
                return True
            else:
                return False
        except Exception as e:
            return False
    ]]
    [SystemExit] is not an [Exception]: when [post] raises it, it passes
    through the handler. *)
Definition reset_attempt (run_id attempt_id : pystr) : M W bool :=
  fun st =>
    let (response, w) := post_reset run_id attempt_id (world st) in
    (match response with
     | Ok text => Ok (str_in (py "success") (lower text))
     | Raise (SystemExit code) => Raise (SystemExit code)
     | Raise _ => Ok false
     end,
     mkState w (log st ++ [ResetCall run_id attempt_id])).

(** Truth value of an attempt (a dict) and of its identifier. *)
Definition attempt_truthy (a : option attempt) : bool :=
  match a with
  | Some {| attempt_id := None; attempt_fields := [] |} => false
  | Some _ => true
  | None => false
  end.

Definition id_truthy (i : option pystr) : bool :=
  match i with
  | Some (_ :: _) => true
  | _ => false
  end.

(** [a.get("attempt-id")] of an attempt that may be [None] only where the
    code has checked it is not. *)
Definition get_attempt_id (a : option attempt) : option pystr :=
  match a with
  | Some x => attempt_id x
  | None => None
  end.

Definition id_eqb (a b : option pystr) : bool :=
  match a, b with
  | Some x, Some y => str_eqb x y
  | None, None => true
  | _, _ => false
  end.

(** [x in completed_attempts] *)
Definition completed (x : pystr) (completed_attempts : list pystr) : bool :=
  existsb (str_eqb x) completed_attempts.

(** What the resume block of [start_run] leaves behind: the rebuilt list
    of attempts, or nothing when no interrupted run is being resumed
    ([is_resuming] false). *)
Inductive resumed :=
| Resuming (attempts : list attempt)
| NotResuming.

(** [[
    if is_uuid and args.resume:
        failed_run = q.get_failed_run(cursor, run_id)
        if failed_run:
            is_resuming = True
            failed_attempt = failed_run.get("failure_info", {}).get("current_attempt")
            if failed_attempt:
                attempt_id = failed_attempt.get("attempt-id")
                if args.resume == "retry" and attempt_id:
                    reset_success = reset_attempt(config, run_id, attempt_id)
                    if not reset_success:
                        exit(1)
                elif args.resume == "skip":
                    ...
            ...
            completed_attempts = q.get_completed_attempts(cursor, run_id)
            all_attempts = failed_run.get("failure_info", {}).get("all_attempts", [])
            if not all_attempts:
                exit(1)
            attempts = []
            for attempt in all_attempts:
                if "attempt-id" in attempt and attempt["attempt-id"] not in completed_attempts:
                    attempts.append(attempt)
            if args.resume == "skip" and failed_attempt:
                attempts = [a for a in attempts
                            if a.get("attempt-id") != failed_attempt.get("attempt-id")]
        else:
            is_resuming = False
    ]]
    The two database reads are arguments. *)
Definition start_run_resume (is_uuid : bool) (resume : option resume_mode)
  (run_id : pystr) (get_failed_run : option failed_run)
  (get_completed_attempts : list pystr) : M W resumed :=
  match is_uuid, resume with
  | true, Some mode =>
      match get_failed_run with
      | Some failed_run =>
          let failed_attempt := current_attempt (failure failed_run) in
          _ <- (if attempt_truthy failed_attempt then
                  let attempt_id := get_attempt_id failed_attempt in
                  match attempt_id with
                  | Some aid =>
                      if resume_mode_eqb mode retry && id_truthy attempt_id
                      then
                        reset_success <- reset_attempt run_id aid ;;
                        if negb reset_success then raise (SystemExit 1)
                        else ret tt
                      else ret tt
                  | None => ret tt
                  end
                else ret tt) ;;
          let completed_attempts := get_completed_attempts in
          let all_attempts := all_attempts (failure failed_run) in
          match all_attempts with
          | [] => raise (SystemExit 1)
          | _ :: _ =>
              let attempts :=
                filter (fun attempt =>
                          match attempt_id attempt with
                          | Some i => negb (completed i completed_attempts)
                          | None => false
                          end) all_attempts in
              let attempts :=
                if resume_mode_eqb mode skip && attempt_truthy failed_attempt
                then filter (fun a =>
                               negb (id_eqb (attempt_id a)
                                       (get_attempt_id failed_attempt)))
                       attempts
                else attempts in
              ret (Resuming attempts)
          end
      | None => ret NotResuming
      end
  | _, _ => ret NotResuming
  end.

(** The attempts of the snapshot that have an identifier and whose
    identifier is not among the completed ones, in the order of the
    snapshot. *)
Definition remaining (all_attempts : list attempt)
  (completed_attempts : list pystr) : list attempt :=
  filter (fun attempt =>
            match attempt_id attempt with
            | Some i => negb (completed i completed_attempts)
            | None => false
            end) all_attempts.

End Resume.

(** [[
    def is_valid_uuid(uuid_string):
        uuid_pattern = re.compile(
          r'^[0-9a-f]{8}-[0-9a-f]{4}-[0-9a-f]{4}-[0-9a-f]{4}-[0-9a-f]{12}$',
          re.I)
        return bool(uuid_pattern.match(uuid_string))
    ]]
    With [re.I] the class [[0-9a-f]] takes the letters in either case;
    [$] matches at the end of the string and also just before a newline
    that ends the string. *)
Definition is_hex (c : codepoint) : bool :=
  ((48 <=? c) && (c <=? 57) || (97 <=? c) && (c <=? 102)
   || (65 <=? c) && (c <=? 70))%N.

(** [[0-9a-f]{n}] at the head of [s]: what follows it. *)
Fixpoint hex_group (n : nat) (s : pystr) : option pystr :=
  match n with
  | O => Some s
  | S n' =>
      match s with
      | c :: t => if is_hex c then hex_group n' t else None
      | [] => None
      end
  end.

(** [-] at the head of [s]: what follows it. *)
Definition hyphen (s : pystr) : option pystr :=
  match s with
  | 45%N :: t => Some t
  | _ => None
  end.

Definition and_then {A B} (x : option A) (f : A -> option B) : option B :=
  match x with
  | Some a => f a
  | None => None
  end.

Definition is_valid_uuid (uuid_string : pystr) : bool :=
  match and_then (and_then (and_then (and_then (and_then (and_then (and_then
          (and_then (hex_group 8 uuid_string) hyphen) (hex_group 4)) hyphen)
          (hex_group 4)) hyphen) (hex_group 4)) hyphen) (hex_group 12) with
  | Some [] => true
  | Some [10%N] => true
  | _ => false
  end.

(** A group of [n] hexadecimal digits, and the canonical form of a UUID:
    five groups of 8, 4, 4, 4 and 12 digits with hyphens between them. *)
Definition hex_digits (n : nat) (g : pystr) : Prop :=
  length g = n /\ forallb is_hex g = true.

Definition canonical_uuid (s : pystr) : Prop :=
  exists g1 g2 g3 g4 g5,
    hex_digits 8 g1 /\ hex_digits 4 g2 /\ hex_digits 4 g3
    /\ hex_digits 4 g4 /\ hex_digits 12 g5
    /\ s = g1 ++ py "-" ++ g2 ++ py "-" ++ g3 ++ py "-" ++ g4 ++ py "-" ++ g5.

(** The handler of [run_with_error_handling] looks the attempt in flight
    up in the list of attempts:
    [[
    if current_attempt and attempts:
        for i, attempt in enumerate(attempts):
            if attempt.get("attempt-id") == current_attempt.get("attempt-id"):
                error_info["current_attempt_index"] = i
                break
    ]] *)
Fixpoint index_of_attempt (i : nat) (attempts : list attempt)
  (current_id : option pystr) : option nat :=
  match attempts with
  | [] => None
  | attempt :: rest =>
      if id_eqb (attempt_id attempt) current_id then Some i
      else index_of_attempt (S i) rest current_id
  end.

Definition current_attempt_index (current_attempt : option attempt)
  (attempts : list attempt) : option nat :=
  if attempt_truthy current_attempt
  then index_of_attempt 0 attempts (get_attempt_id current_attempt)
  else None.

(** [error_info] as the handler builds it: three texts, and the index when
    one was found. *)
Definition error_info (error_type error_message trace_info : pystr)
  (index : option nat) : dict pyval :=
  let info := [(py "error_type", PStr error_type);
               (py "error_message", PStr error_message);
               (py "traceback", PStr trace_info)] in
  match index with
  | Some i => dict_set info (py "current_attempt_index") (PInt (Z.of_nat i))
  | None => info
  end.

(** [[
    def save_run_failure(cursor, run_id, all_attempts, current_attempt,
                         error_info):
        failure_info = {
            "error_type": error_info.get("error_type", "Unknown"),
            "error_message": error_info.get("error_message", "No message"),
            "traceback": error_info.get("traceback", "No traceback"),
            "current_attempt": current_attempt,
            "all_attempts": all_attempts
        }
        q.save_run_failure(cursor, run_id, failure_info)
    ]]
    The value handed to the store. *)
Definition get_default (d : dict pyval) (k : pystr) (default : pyval)
  : pyval :=
  match dict_get d k with
  | Some v => v
  | None => default
  end.

Definition save_run_failure (all_attempts current_attempt : pyval)
  (error_info : dict pyval) : dict pyval :=
  dict_of_items
    [(py "error_type",
      get_default error_info (py "error_type") (PStr (py "Unknown")));
     (py "error_message",
      get_default error_info (py "error_message") (PStr (py "No message")));
     (py "traceback",
      get_default error_info (py "traceback") (PStr (py "No traceback")));
     (py "current_attempt", current_attempt);
     (py "all_attempts", all_attempts)].

(** [a | b] on dicts: the entries of [a], updated and extended by those of
    [b]. *)
Definition dict_merge {V} (a b : dict V) : dict V :=
  fold_left (fun d kv => dict_set d (fst kv) (snd kv)) b a.

(** The configuration, in [start_run]:
    [[
    config_raw = load_config("resources/config.yaml")
    config_non_sensitive = {k: v for k, v in config_raw.items()
                            if k != "providers"} | config_raw["providers"][provider]
    config = config_non_sensitive | load_config("resources/credentials.yaml")
    ]]
    The two files, as [load_config] returns them, are arguments. *)
Definition start_run_config (provider : pystr)
  (config_raw credentials : dict pyval) : result (dict pyval) :=
  let top :=
    dict_of_items
      (filter (fun kv => negb (str_eqb (fst kv) (py "providers")))
         config_raw) in
  rbind (dict_getitem config_raw (py "providers")) (fun providers =>
  rbind (py_getitem providers provider) (fun settings =>
    match settings with
    | PDict settings =>
        let config_non_sensitive := dict_merge top settings in
        Ok (dict_merge config_non_sensitive credentials)
    | _ => Raise TypeError
    end)).

(** The request of a run that is not resumed, in [start_run]:
    [[
    subset = config.get("subset")  # none if key is missing
    post_data = {"client-id": f"{provider}/{config['model']}"}
    if subset:
        post_data["subset"] = subset
    if args.attempts_per_problem:
        post_data["attempts-per-problem"] = args.attempts_per_problem
    if is_uuid:
        post_data["existing-run-id"] = run_id
    else:
        post_data["problem-set"] = args.arg
    ]]
    [arg] is the positional argument of the command line,
    [attempts_per_problem] the integer of [--attempts-per-problem] when the
    option was given, [subset] is [config.get("subset")]. *)
Definition start_run_post_data (provider model : pystr) (subset : pyval)
  (attempts_per_problem : option Z) (arg : pystr) : dict pyval :=
  let is_uuid := is_valid_uuid arg in
  let post_data :=
    [(py "client-id", PStr (provider ++ py "/" ++ model))] in
  let post_data :=
    if truthy subset then dict_set post_data (py "subset") subset
    else post_data in
  let post_data :=
    match attempts_per_problem with
    | Some n =>
        if negb (n =? 0)%Z
        then dict_set post_data (py "attempts-per-problem") (PInt n)
        else post_data
    | None => post_data
    end in
  if is_uuid then dict_set post_data (py "existing-run-id") (PStr arg)
  else dict_set post_data (py "problem-set") (PStr arg).

End RunUtils.

(* ================================================================= *)
(** ** sherlockbench_fireworks/main.py *)

Module Fireworks.

Section RunBenchmark.

Context {W : Type}.

(** [[
    def completionfn( **kwargs ):
        if "temperature" in config:
            kwargs["temperature"] = config['temperature']
        if "extra_body" in config:
            kwargs["extra_body"] = config['extra_body']
        if "max_tokens" in config:
            kwargs["max_tokens"] = config['max_tokens']
        return create_completion(client, model=config['model'], **kwargs)
    ]]
    with [def create_completion(client, **kwargs)].  The keyword arguments
    that reach [client.chat.completions.create]; a caller's keyword
    [model] meets the keyword of the call and a caller's keyword [client]
    meets the positional argument: both are a [TypeError]. *)
Definition from_config (config : dict pyval) (key : pystr)
  (kwargs : dict pyval) : dict pyval :=
  match dict_get config key with
  | Some v => dict_set kwargs key v
  | None => kwargs
  end.

Definition completion_kwargs (config kwargs : dict pyval)
  : result (dict pyval) :=
  let kwargs := from_config config (py "temperature") kwargs in
  let kwargs := from_config config (py "extra_body") kwargs in
  let kwargs := from_config config (py "max_tokens") kwargs in
  rbind (dict_getitem config (py "model")) (fun model =>
    match dict_get kwargs (py "model"), dict_get kwargs (py "client") with
    | None, None => Ok ((py "model", model) :: kwargs)
    | _, _ => Raise TypeError
    end).

(** [executor_p]: [investigate_and_verify] applied to its first five
    arguments. *)
Variable executor_p : RunUtils.attempt -> M W bool.

(** [[
    for i, attempt in enumerate(attempts, 1):
        print_progress_with_estimate(i, len(attempts), start_time)
        set_current_attempt(attempt)
        executor_p(attempt)
        set_current_attempt(None)
    ]]
    [current] is the global [_current_attempt] of [run_utils.py], which
    [set_current_attempt] writes and [get_current_attempt] reads; the loop
    returns its value next to the outcome.  The progress line is console
    output. *)
Fixpoint process_attempts (attempts : list RunUtils.attempt)
  (current : option RunUtils.attempt) (st : state W)
  : result unit * option RunUtils.attempt * state W :=
  match attempts with
  | [] => (Ok tt, current, st)
  | attempt :: rest =>
      match executor_p attempt st with
      | (Ok _, st1) => process_attempts rest None st1
      | (Raise e, st1) => (Raise e, Some attempt, st1)
      end
  end.

(** [executor_p] has returned for each of [attempts] in turn, taking the
    world from [st] to [st']. *)
Inductive processed
  : list RunUtils.attempt -> state W -> state W -> Prop :=
| processed_nil st : processed [] st st
| processed_cons attempt rest st result st1 st2 :
    executor_p attempt st = (Ok result, st1) ->
    processed rest st1 st2 ->
    processed (attempt :: rest) st st2.

End RunBenchmark.

End Fireworks.

(* ================================================================= *)
(** ** Reference collaborators

    A [json] codec and a scripted world, used to run the loops on concrete
    inputs.  The theorems of Part II hold for every instance of the
    interfaces; these are the instances the examples are evaluated with. *)

Module Reference.

(** *** json.loads *)

Definition is_digit (c : codepoint) : bool := ((48 <=? c) && (c <=? 57))%N.

Definition json_ws (c : codepoint) : bool :=
  ((c =? 32) || (c =? 9) || (c =? 10) || (c =? 13))%N.

Fixpoint skip_ws (s : pystr) : pystr :=
  match s with
  | c :: t => if json_ws c then skip_ws t else s
  | [] => []
  end.

Fixpoint span_digits (s : pystr) : pystr * pystr :=
  match s with
  | c :: t =>
      if is_digit c then let (d, r) := span_digits t in (c :: d, r)
      else ([], s)
  | [] => ([], [])
  end.

Definition digits_value (d : pystr) : Z :=
  fold_left (fun acc c => 10 * acc + (Z.of_N c - 48))%Z d 0%Z.

(** The integer part (an optional minus sign, then a single zero or a
    digit string without leading zero): its digits and the rest. *)
Definition scan_integer (s : pystr) : option (bool * pystr * pystr) :=
  let (neg, s') := match s with
                   | 45 :: t => (true, t)
                   | _ => (false, s)
                   end%N in
  match s' with
  | 48 :: t => Some (neg, [48], t)
  | c :: _ =>
      if is_digit c then let (d, r) := span_digits s' in Some (neg, d, r)
      else None
  | [] => None
  end%N.

(** The optional fraction (a dot and digits) and the optional exponent
    (e or E, an optional sign, digits). *)
Definition scan_fraction (s : pystr) : pystr * pystr :=
  match s with
  | 46 :: t =>
      match span_digits t with
      | ([], _) => ([], s)
      | (d, r) => (46 :: d, r)
      end
  | _ => ([], s)
  end%N.

Definition scan_exponent (s : pystr) : pystr * pystr :=
  match s with
  | e :: t =>
      if ((e =? 101) || (e =? 69))%N then
        let (sign, t') := match t with
                          | c :: u =>
                              if ((c =? 45) || (c =? 43))%N then ([c], u)
                              else ([], t)
                          | [] => ([], t)
                          end in
        match span_digits t' with
        | ([], _) => ([], s)
        | (d, r) => (e :: sign ++ d, r)
        end
      else ([], s)
  | [] => ([], s)
  end.

Definition scan_number (s : pystr) : option (pyval * pystr) :=
  match scan_integer s with
  | Some (neg, d, r) =>
      let (frac, r1) := scan_fraction r in
      let (ex, r2) := scan_exponent r1 in
      match frac, ex with
      | [], [] =>
          Some (PInt (if neg then - digits_value d else digits_value d)%Z, r2)
      | _, _ => Some (PFloat ((if neg then [45%N] else []) ++ d ++ frac ++ ex),
                      r2)
      end
  | None => None
  end.

Definition hex_value (c : codepoint) : option N :=
  (if is_digit c then Some (c - 48)
   else if (97 <=? c) && (c <=? 102) then Some (c - 87)
   else if (65 <=? c) && (c <=? 70) then Some (c - 55)
   else None)%N.

(** Four hexadecimal digits. *)
Definition scan_hex4 (s : pystr) : option (N * pystr) :=
  match s with
  | a :: b :: c :: d :: r =>
      match hex_value a, hex_value b, hex_value c, hex_value d with
      | Some x, Some y, Some z, Some w =>
          Some (4096 * x + 256 * y + 16 * z + w, r)%N
      | _, _, _, _ => None
      end
  | _ => None
  end.

(** A low surrogate written [\uXXXX], right after a high one. *)
Definition scan_low_surrogate (s : pystr) : option (N * pystr) :=
  match s with
  | 92 :: 117 :: t =>
      match scan_hex4 t with
      | Some (u, r) =>
          if ((56320 <=? u) && (u <=? 57343))%N then Some (u, r) else None
      | None => None
      end
  | _ => None
  end%N.

(** The characters of a string, after the opening quote (strict mode). *)
Fixpoint scan_string (fuel : nat) (s acc : pystr) : option (pystr * pystr) :=
  match fuel with
  | O => None
  | S f =>
      match s with
      | [] => None
      | 34 :: r => Some (acc, r)
      | 92 :: 117 :: t =>
          match scan_hex4 t with
          | Some (u, r) =>
              if ((55296 <=? u) && (u <=? 56319))%N then
                match scan_low_surrogate r with
                | Some (u2, r2) =>
                    scan_string f r2
                      (acc ++ [65536 + (1024 * (u - 55296) + (u2 - 56320))])
                | None => scan_string f r (acc ++ [u])
                end
              else scan_string f r (acc ++ [u])
          | None => None
          end
      | 92 :: e :: r =>
          match (if e =? 34 then Some 34
                 else if e =? 92 then Some 92
                 else if e =? 47 then Some 47
                 else if e =? 98 then Some 8
                 else if e =? 102 then Some 12
                 else if e =? 110 then Some 10
                 else if e =? 114 then Some 13
                 else if e =? 116 then Some 9
                 else None) with
          | Some c => scan_string f r (acc ++ [c])
          | None => None
          end
      | c :: r => if c <? 32 then None else scan_string f r (acc ++ [c])
      end
  end%N.

Definition scan_literal (s : pystr) : option (pyval * pystr) :=
  if startswith s (py "null") then Some (PNone, skipn 4 s)
  else if startswith s (py "true") then Some (PBool true, skipn 4 s)
  else if startswith s (py "false") then Some (PBool false, skipn 5 s)
  else
    match scan_number s with
    | Some r => Some r
    | None =>
        if startswith s (py "NaN") then Some (PFloat (py "NaN"), skipn 3 s)
        else if startswith s (py "Infinity")
        then Some (PFloat (py "Infinity"), skipn 8 s)
        else if startswith s (py "-Infinity")
        then Some (PFloat (py "-Infinity"), skipn 9 s)
        else None
    end.

(** One JSON value at the head of [s]; then the elements of an array and
    the members of an object, up to the closing bracket. *)
Fixpoint scan_value (fuel : nat) (s : pystr) : option (pyval * pystr) :=
  match fuel with
  | O => None
  | S f =>
      match s with
      | 34 :: t =>
          match scan_string (S (length t)) t [] with
          | Some (x, r) => Some (PStr x, r)
          | None => None
          end
      | 123 :: t =>
          match skip_ws t with
          | 125 :: r => Some (PDict [], r)
          | t' => scan_members f t' []
          end
      | 91 :: t =>
          match skip_ws t with
          | 93 :: r => Some (PList [], r)
          | t' => scan_items f t' []
          end
      | _ => scan_literal s
      end
  end%N
with scan_items (fuel : nat) (s : pystr) (acc : list pyval)
  : option (pyval * pystr) :=
  match fuel with
  | O => None
  | S f =>
      match scan_value f s with
      | Some (v, r) =>
          match skip_ws r with
          | 44 :: r' => scan_items f (skip_ws r') (acc ++ [v])
          | 93 :: r' => Some (PList (acc ++ [v]), r')
          | _ => None
          end
      | None => None
      end
  end%N
with scan_members (fuel : nat) (s : pystr) (acc : dict pyval)
  : option (pyval * pystr) :=
  match fuel with
  | O => None
  | S f =>
      match s with
      | 34 :: t =>
          match scan_string (S (length t)) t [] with
          | Some (k, r) =>
              match skip_ws r with
              | 58 :: r1 =>
                  match scan_value f (skip_ws r1) with
                  | Some (v, r2) =>
                      match skip_ws r2 with
                      | 44 :: r3 =>
                          scan_members f (skip_ws r3) (dict_set acc k v)
                      | 125 :: r3 => Some (PDict (dict_set acc k v), r3)
                      | _ => None
                      end
                  | None => None
                  end
              | _ => None
              end
          | None => None
          end
      | _ => None
      end
  end%N.

(** [json.loads(s)]: one value, white space around it, nothing else.  Two
    units of fuel per character cover every nesting and every element. *)
Definition loads (s : pystr) : option pyval :=
  match scan_value (2 * length s + 2) (skip_ws s) with
  | Some (v, r) =>
      match skip_ws r with
      | [] => Some v
      | _ => None
      end
  | None => None
  end.

(** *** json.dumps (default options: [ensure_ascii], [", "], [": "]) *)

Definition hex_digit (n : N) : codepoint :=
  (if n <? 10 then 48 + n else 87 + n)%N.

Definition hex4 (u : N) : pystr :=
  [hex_digit (u / 4096 mod 16); hex_digit (u / 256 mod 16);
   hex_digit (u / 16 mod 16); hex_digit (u mod 16)]%N.

Definition escape_char (c : codepoint) : pystr :=
  (if c =? 34 then [92; 34]
   else if c =? 92 then [92; 92]
   else if c =? 10 then [92; 110]
   else if c =? 13 then [92; 114]
   else if c =? 9 then [92; 116]
   else if c =? 8 then [92; 98]
   else if c =? 12 then [92; 102]
   else if (32 <=? c) && (c <=? 126) then [c]
   else if c <? 65536 then 92 :: 117 :: hex4 c
   else 92 :: 117 :: hex4 (55296 + (c - 65536) / 1024)
        ++ 92 :: 117 :: hex4 (56320 + (c - 65536) mod 1024))%N.

Definition encode_str (s : pystr) : pystr :=
  [34%N] ++ flat_map escape_char s ++ [34%N].

Fixpoint join (sep : pystr) (l : list pystr) : pystr :=
  match l with
  | [] => []
  | [x] => x
  | x :: t => x ++ sep ++ join sep t
  end.

Definition decimal (z : Z) : pystr :=
  py (DecimalString.NilZero.string_of_int (Z.to_int z)).

Fixpoint dumps (v : pyval) : pystr :=
  match v with
  | PNone => py "null"
  | PBool true => py "true"
  | PBool false => py "false"
  | PInt z => decimal z
  | PFloat lit => lit
  | PStr s => encode_str s
  | PList l => py "[" ++ join (py ", ") (map dumps l) ++ py "]"
  | PDict d =>
      py "{"
      ++ join (py ", ")
           (map (fun kv => encode_str (fst kv) ++ py ": " ++ dumps (snd kv)) d)
      ++ py "}"
  end.

#[export] Instance json : Json := {| json_loads := loads; json_dumps := dumps |}.

(** [q "{'a': 1}"] is the text [{"a": 1}]: each apostrophe of the literal
    stands for a double quote. *)
Definition q (s : string) : pystr :=
  map (fun c => if (c =? 39)%N then 34%N else c) (py s).

(** *** A scripted world

    The oracle answers with the next reply of a list, the model with the
    next completion; an exhausted list answers with [default]. *)

Record script (C : Type) := Script {
  replies : list pyval;
  completions : list C;
  default : C;
  reset_replies : list (result pystr)
}.

Definition next_reply {C} (w : script C) : pyval * script C :=
  match replies w with
  | r :: t => (r, Script t (completions w) (default w) (reset_replies w))
  | [] => (PNone, w)
  end.

Definition next_completion {C} (w : script C) : C * script C :=
  match completions w with
  | c :: t => (c, Script (replies w) t (default w) (reset_replies w))
  | [] => (default w, w)
  end.

Definition next_reset {C} (w : script C) : result pystr * script C :=
  match reset_replies w with
  | r :: t => (r, Script (replies w) (completions w) (default w) t)
  | [] => (Raise ValueError, w)
  end.

#[export] Instance oracle {C} : Oracle (script C) :=
  {| postfn := fun _ _ w => next_reply w |}.

#[export] Instance reset_endpoint {C} : RunUtils.ResetEndpoint (script C) :=
  {| RunUtils.post_reset := fun _ _ w => next_reset w |}.

(** Modelled from the spec: [value_list_to_map] and
    [make_verification_message] are not among the sources; the verification
    message carries "the case's input vector (as a key→value mapping in
    canonical positional order)". *)
Definition value_list_to_map (v : pyval) : pyval :=
  match v with
  | PList l => PDict (combine (arg_keys (length l)) l)
  | _ => v
  end.

#[export] Instance anthropic
  : Anthropic.Provider (script (list Anthropic.content_block)) :=
  {| Anthropic.completionfn := fun _ _ w => next_completion w;
     Anthropic.make_verification_message := Anthropic.Prompt Anthropic.user;
     Anthropic.value_list_to_map := value_list_to_map |}.

#[export] Instance openai : OpenAI.Provider (script OpenAI.completion) :=
  {| OpenAI.message := pyval;
     OpenAI.schema := pyval;
     OpenAI.completionfn := fun _ _ w => next_completion w;
     OpenAI.make_verification_message := fun v => v;
     OpenAI.make_schema := fun v => v |}.

#[export] Instance google : Google.Provider (script Google.completion) :=
  {| Google.message := pyval;
     Google.prompt := pyval;
     Google.schema := pyval;
     Google.completionfn := fun _ _ w => next_completion w;
     Google.value_list_to_map := value_list_to_map;
     Google.make_verification_message := fun v => v;
     Google.save_message := fun _ v => v;
     Google.make_schema := fun v => v |}.

Definition start {C} (w : script C) : state (script C) := mkState w [].

End Reference.

(* ================================================================= *)
(** ** Concrete runs on the scripted world *)

Module Examples.

Import Anthropic Reference.

Definition attempt : pyval := PStr (py "attempt-1").

(** The number of predictions submitted to [attempt-verification]. *)
Definition predictions (l : list event) : nat :=
  length (filter (fun c => str_eqb (fst c) (py "attempt-verification"))
            (oracle_calls l)).

(** *** An investigation *)

Definition call_ab : tool_use :=
  ToolUse (py "toolu_1") (py "mystery_function")
    [(py "b", PInt 3); (py "a", PInt 5)].

Definition call_c : tool_use :=
  ToolUse (py "toolu_2") (py "mystery_function") [(py "a", PInt 7)].

Definition tool_completion : list content_block :=
  [ThinkingBlock (py "hm") (py "sig"); TextBlock (py "Let me test.");
   ToolUseBlock call_ab; ToolUseBlock call_c].

Definition final_completion : list content_block :=
  [TextBlock (py "I know.")].

(** The model tests twice in its first turn, then stops; the second reply
    of the oracle has no ["output"]. *)
Definition investigation : script (list content_block) :=
  Script
    [PDict [(py "output", PInt 8)]; PDict [(py "error", PStr (py "boom"))]]
    [tool_completion; final_completion] [] [].


Definition int_int : list pyval := [PStr (py "int"); PStr (py "int")].

(** *** Verifications *)

Definition transcript : list message :=
  [Message assistant [TextItem (py "I know.")]].

Definition case_data : pyval :=
  PDict [(py "next-verification", PList [PInt 1; PInt 2]);
         (py "output-type", PStr (py "integer"))].

Definition status (s : string) : pyval := PDict [(py "status", PStr (py s))].

Definition prediction : list content_block :=
  [TextBlock (q "{'thoughts': 't', 'expected_output': 1}")].

(** The oracle has a case for every verdict of the list and answers the
    predictions with these verdicts; the model predicts well-formed JSON. *)
Definition verdicts (l : list string) : script (list content_block) :=
  Script (flat_map (fun s => [case_data; status s]) l)
    (map (fun _ => prediction) l) prediction [].

(** Three completions that are not JSON. *)
Definition malformed : script (list content_block) :=
  Script [case_data; status "wrong"]
    [[TextBlock (py "not json")]; [TextBlock (q "{'thoughts': ")];
     [TextBlock (py "")]] prediction [].

(** A completion without a text block. *)
Definition no_text : script (list content_block) :=
  Script [case_data; status "correct"]
    [[ThinkingBlock (py "hm") (py "sig")]] prediction [].

(** *** Fenced responses *)

Definition answer : pystr := q "{'thoughts': 't', 'expected_output': 1}".

Definition newline : pystr := [10%N].

(** *** An interrupted run *)

Definition attempt_of (id : string) : RunUtils.attempt :=
  RunUtils.Attempt (Some (py id)) [(py "fn-args", PList int_int)].

Definition interrupted : RunUtils.failed_run :=
  RunUtils.FailedRun
    (RunUtils.FailureInfo (Some (attempt_of "a2"))
       [attempt_of "a1"; attempt_of "a2"; attempt_of "a3"])
    (PStr (py "1.0")) [].

Definition reset_ok : script unit :=
  Script [] [] tt [Ok (q "{'status': 'Success'}")].

Definition reset_refused : script unit :=
  Script [] [] tt [Ok (q "{'error': 'unknown attempt'}")].

End Examples.

(* ################################################################# *)
(** * Part II: lemmas and theorems *)

(** ** Order on strings *)

Lemma str_compare_eq (a b : pystr) : str_compare a b = Eq <-> a = b.
Proof.
  revert b; induction a as [|x a IH]; intros [|y b]; simpl;
    try (split; congruence).
  destruct (N.compare_spec x y) as [E|L|G].
  - subst y. rewrite IH. split; congruence.
  - split; [discriminate | intros H; inversion H; lia].
  - split; [discriminate | intros H; inversion H; lia].
Qed.

Lemma str_compare_antisym (a b : pystr) :
  str_compare b a = CompOpp (str_compare a b).
Proof.
  revert b; induction a as [|x a IH]; intros [|y b]; simpl; auto.
  rewrite (N.compare_antisym x y).
  destruct (N.compare x y); simpl; auto.
Qed.

Lemma str_compare_lt_trans (a b c : pystr) :
  str_compare a b = Lt -> str_compare b c = Lt -> str_compare a c = Lt.
Proof.
  revert b c; induction a as [|x a IH]; intros [|y b] [|z c]; simpl;
    try congruence.
  destruct (N.compare_spec x y) as [E|L|G]; try discriminate.
  - subst y. destruct (N.compare_spec x z); try congruence. apply IH.
  - intros _. destruct (N.compare_spec y z) as [E|L'|G]; try discriminate.
    + subst z. intros _. now apply N.compare_lt_iff in L as ->.
    + intros _. assert (H : (x < z)%N) by lia.
      now apply N.compare_lt_iff in H as ->.
Qed.

Lemma str_eqb_eq (a b : pystr) : str_eqb a b = true <-> a = b.
Proof.
  unfold str_eqb. rewrite <- str_compare_eq.
  destruct (str_compare a b); split; congruence.
Qed.

Lemma str_eqb_refl (a : pystr) : str_eqb a a = true.
Proof. now apply str_eqb_eq. Qed.

Lemma str_eqb_neq (a b : pystr) : str_eqb a b = false <-> a <> b.
Proof.
  rewrite <- str_eqb_eq. destruct (str_eqb a b); split; congruence.
Qed.

Lemma str_le_refl (a : pystr) : str_le a a.
Proof.
  unfold str_le, str_leb. now rewrite (proj2 (str_compare_eq a a) eq_refl).
Qed.

Lemma str_le_total (a b : pystr) : str_leb a b = false -> str_le b a.
Proof.
  unfold str_le, str_leb. rewrite (str_compare_antisym a b).
  destruct (str_compare a b); simpl; congruence.
Qed.

Lemma str_le_antisym (a b : pystr) : str_le a b -> str_le b a -> a = b.
Proof.
  unfold str_le, str_leb. rewrite (str_compare_antisym a b).
  destruct (str_compare a b) eqn:E; simpl; try congruence.
  intros _ _. now apply str_compare_eq.
Qed.

Lemma str_le_trans (a b c : pystr) : str_le a b -> str_le b c -> str_le a c.
Proof.
  unfold str_le, str_leb.
  destruct (str_compare a b) eqn:E1; try discriminate;
    destruct (str_compare b c) eqn:E2; try discriminate; intros _ _.
  - apply str_compare_eq in E1, E2. subst.
    now rewrite (proj2 (str_compare_eq c c) eq_refl).
  - apply str_compare_eq in E1. subst. now rewrite E2.
  - apply str_compare_eq in E2. subst. now rewrite E1.
  - now rewrite (str_compare_lt_trans _ _ _ E1 E2).
Qed.

(** ** [sorted] returns the sorted permutation of its argument *)

Lemma insort_perm (x : pystr) (l : list pystr) :
  Permutation (x :: l) (insort x l).
Proof.
  induction l as [|y t IH]; simpl; auto.
  destruct (str_leb x y); auto.
  rewrite perm_swap. now constructor.
Qed.

Lemma sorted_perm (l : list pystr) : Permutation l (sorted l).
Proof.
  induction l as [|x t IH]; simpl; auto.
  rewrite <- insort_perm. now constructor.
Qed.

Lemma insort_sorted (x : pystr) (l : list pystr) :
  StronglySorted str_le l -> StronglySorted str_le (insort x l).
Proof.
  induction 1 as [|y t St IH Hy]; simpl.
  - repeat constructor.
  - destruct (str_leb x y) eqn:E.
    + constructor; [now constructor|].
      constructor; [exact E|].
      eapply Forall_impl; [|exact Hy].
      intros z Hz. now apply str_le_trans with y.
    + constructor; auto.
      apply (Permutation_Forall (insort_perm x t)).
      constructor; auto. now apply str_le_total.
Qed.

Lemma sorted_sorted (l : list pystr) : StronglySorted str_le (sorted l).
Proof.
  induction l as [|x t IH]; simpl; [constructor | now apply insort_sorted].
Qed.

Lemma sorted_unique (l1 l2 : list pystr) :
  StronglySorted str_le l1 -> StronglySorted str_le l2 ->
  Permutation l1 l2 -> l1 = l2.
Proof.
  intros S1; revert l2.
  induction S1 as [|x t1 St1 IH Hx]; intros l2 S2 P.
  - now apply Permutation_nil in P.
  - destruct S2 as [|y t2 St2 Hy].
    + now apply Permutation_sym, Permutation_nil in P.
    + assert (x = y) as <-.
      { assert (Ix : In x (y :: t2))
          by (apply (Permutation_in _ P); now left).
        assert (Iy : In y (x :: t1))
          by (apply (Permutation_in _ (Permutation_sym P)); now left).
        destruct Ix as [->|Ix]; auto. destruct Iy as [->|Iy]; auto.
        rewrite Forall_forall in Hx, Hy.
        apply str_le_antisym; auto. }
      f_equal. apply IH; auto. now apply Permutation_cons_inv in P.
Qed.

Lemma sorted_of_perm (ks l : list pystr) :
  StronglySorted str_le ks -> Permutation l ks -> sorted l = ks.
Proof.
  intros S P. apply sorted_unique; auto using sorted_sorted.
  now rewrite <- (sorted_perm l).
Qed.

(** ** Dictionaries with distinct keys *)

Lemma keys_combine {V} (ks : list pystr) (vs : list V) :
  length ks = length vs -> dict_keys (combine ks vs) = ks.
Proof.
  revert vs; induction ks as [|k ks IH]; intros [|v vs] L;
    simpl in *; try discriminate; auto.
  f_equal. apply IH. congruence.
Qed.

Lemma dict_set_fresh {V} (d : dict V) (k : pystr) (v : V) :
  ~ In k (dict_keys d) -> dict_set d k v = d ++ [(k, v)].
Proof.
  induction d as [|[k' v'] t IH]; simpl; auto.
  intros H. destruct (str_eqb k k') eqn:E.
  - apply str_eqb_eq in E. subst. tauto.
  - rewrite IH; auto.
Qed.

Lemma dict_of_items_app {V} (items acc : dict V) :
  NoDup (dict_keys (acc ++ items)) ->
  fold_left (fun d kv => dict_set d (fst kv) (snd kv)) items acc = acc ++ items.
Proof.
  revert acc; induction items as [|[k v] t IH]; intros acc H; simpl.
  - now rewrite app_nil_r.
  - unfold dict_keys in H. rewrite map_app in H. simpl in H.
    rewrite dict_set_fresh.
    + rewrite IH; rewrite <- app_assoc; auto.
      unfold dict_keys. now rewrite map_app.
    + apply NoDup_remove_2 in H. intros I. apply H, in_or_app. now left.
Qed.

Lemma dict_of_items_nodup {V} (items : dict V) :
  NoDup (dict_keys items) -> dict_of_items items = items.
Proof. intros H. unfold dict_of_items. now rewrite dict_of_items_app. Qed.

Lemma dict_get_in {V} (d : dict V) (k : pystr) (v : V) :
  NoDup (dict_keys d) -> In (k, v) d -> dict_get d k = Some v.
Proof.
  induction d as [|[k' v'] t IH]; simpl; [tauto|].
  intros N [E|I].
  - inversion E; subst. now rewrite str_eqb_refl.
  - inversion N as [|? ? Hk Nt]; subst.
    destruct (str_eqb k k') eqn:E; auto.
    apply str_eqb_eq in E. subst k'.
    exfalso. apply Hk. now apply (in_map fst) in I.
Qed.

Lemma mapM_getitem_combine {V} (d : dict V) (ks : list pystr) (vs : list V) :
  NoDup (dict_keys d) -> length ks = length vs ->
  incl (combine ks vs) d -> mapM (dict_getitem d) ks = Ok vs.
Proof.
  intros N. revert vs; induction ks as [|k ks IH]; intros [|v vs] L I;
    simpl in *; try discriminate; auto.
  unfold dict_getitem at 1. rewrite (dict_get_in d k v); auto.
  - simpl. rewrite (IH vs); auto. intros x Hx. apply I. now right.
  - apply I. now left.
Qed.

(** ** The argument keys are distinct and in sorted order *)

Lemma chr_ok (i : nat) :
  (N.of_nat i <= 1114014)%N -> chr (97 + Z.of_nat i) = Ok [N.of_nat (97 + i)].
Proof.
  intros H. unfold chr.
  destruct (Z.leb_spec 0 (97 + Z.of_nat i)); [|lia].
  destruct (Z.ltb_spec (97 + Z.of_nat i) 1114112); [|lia].
  cbn [andb]. do 2 f_equal. lia.
Qed.

Lemma mapM_chr_seq (s n : nat) :
  (N.of_nat (s + n) <= 1114015)%N ->
  mapM (fun i => chr (97 + i)%Z) (map Z.of_nat (seq s n))
  = Ok (map (fun i => [N.of_nat (97 + i)]) (seq s n)).
Proof.
  revert s; induction n as [|n IH]; intros s H; cbn [seq map mapM]; auto.
  rewrite chr_ok by lia. cbn [rbind]. rewrite IH by lia. reflexivity.
Qed.

Lemma arg_keys_lower (s n : nat) :
  Forall (str_le [N.of_nat (97 + s)])
    (map (fun i => [N.of_nat (97 + i)]) (seq (S s) n)).
Proof.
  apply Forall_forall. intros k Hk.
  apply in_map_iff in Hk as (i & <- & Hi). apply in_seq in Hi.
  unfold str_le, str_leb. cbn [str_compare].
  destruct (N.compare_spec (N.of_nat (97 + s)) (N.of_nat (97 + i)));
    auto; lia.
Qed.

Lemma arg_keys_sorted_from (s n : nat) :
  StronglySorted str_le (map (fun i => [N.of_nat (97 + i)]) (seq s n)).
Proof.
  revert s; induction n as [|n IH]; intros s; cbn [seq map];
    constructor; auto.
  apply arg_keys_lower.
Qed.

Lemma arg_keys_sorted (n : nat) : StronglySorted str_le (arg_keys n).
Proof. apply arg_keys_sorted_from. Qed.

Lemma arg_keys_nodup (n : nat) : NoDup (arg_keys n).
Proof.
  unfold arg_keys. apply Finite.Injective_map_NoDup; [|apply seq_NoDup].
  intros i j E. apply (f_equal (hd 0%N)) in E. cbn [hd] in E. lia.
Qed.

Lemma arg_keys_length (n : nat) : length (arg_keys n) = n.
Proof. unfold arg_keys. now rewrite length_map, length_seq. Qed.

Lemma list_to_map_ok {A} (input_list : list A) :
  (N.of_nat (length input_list) <= 1114015)%N ->
  list_to_map input_list
  = Ok (combine (arg_keys (length input_list))
          (map (fun t => [(py "type", t)]) input_list)).
Proof.
  intros H. unfold list_to_map, range.
  rewrite mapM_chr_seq by (cbn [Nat.add]; lia). cbn [rbind].
  fold (arg_keys (length input_list)).
  assert (E : forall ks (l : list A),
             map (fun ki : pystr * A => (fst ki, [(py "type", snd ki)]))
               (combine ks l)
             = combine ks (map (fun t => [(py "type", t)]) l)).
  { induction ks as [|k ks IH]; intros [|x l]; simpl; auto. now rewrite IH. }
  rewrite E. f_equal. apply dict_of_items_nodup.
  rewrite keys_combine.
  - apply arg_keys_nodup.
  - now rewrite arg_keys_length, length_map.
Qed.

Lemma chr_raises (i : Z) (e : exn) : chr i = Raise e -> e = ValueError.
Proof. unfold chr. destruct (_ && _); congruence. Qed.

Lemma mapM_chr_raises (l : list Z) :
  (exists i, In i l /\ chr (97 + i) = Raise ValueError) ->
  mapM (fun i => chr (97 + i)%Z) l = Raise ValueError.
Proof.
  induction l as [|x t IH]; intros (i & I & E); [destruct I|].
  cbn [mapM]. destruct (chr (97 + x)) as [k|e] eqn:C; cbn [rbind].
  - assert (T : mapM (fun i => chr (97 + i)%Z) t = Raise ValueError).
    { apply IH. exists i. split; auto.
      destruct I as [I|I]; auto. subst x. congruence. }
    now rewrite T.
  - f_equal. eapply chr_raises; eauto.
Qed.

Lemma list_to_map_too_long {A} (input_list : list A) :
  (1114015 < N.of_nat (length input_list))%N ->
  list_to_map input_list = Raise ValueError.
Proof.
  intros H. unfold list_to_map.
  rewrite mapM_chr_raises; [reflexivity|].
  exists 1114015%Z. split.
  - unfold range. apply in_map_iff. exists (N.to_nat 1114015). split.
    + apply N_nat_Z.
    + apply in_seq. lia.
  - reflexivity.
Qed.

Lemma normalize_args_of_perm {V} (ks : list pystr) (vs : list V) (d : dict V) :
  StronglySorted str_le ks -> NoDup ks -> length ks = length vs ->
  Permutation d (combine ks vs) -> normalize_args d = Ok vs.
Proof.
  intros S N L P. unfold normalize_args.
  assert (K : Permutation (dict_keys d) ks).
  { unfold dict_keys. rewrite (Permutation_map fst P).
    fold (dict_keys (combine ks vs)). now rewrite keys_combine. }
  rewrite (sorted_of_perm S K).
  apply mapM_getitem_combine; auto.
  - apply (Permutation_NoDup (Permutation_sym K) N).
  - intros x Hx. now apply (Permutation_in _ (Permutation_sym P)).
Qed.

Lemma mapM_getitem_keys {V} (default : V) (d : dict V) (ks : list pystr) :
  incl ks (dict_keys d) ->
  mapM (dict_getitem d) ks
  = Ok (map (fun k => match dict_get d k with Some v => v | None => default end)
          ks).
Proof.
  induction ks as [|k ks IH]; intros I; cbn [mapM map]; auto.
  assert (Hk : exists v, dict_get d k = Some v).
  { assert (K : In k (dict_keys d)) by (apply I; now left).
    clear - K. induction d as [|[k' v'] t IHd]; [destruct K|].
    cbn [dict_get]. destruct (str_eqb k k') eqn:E; eauto.
    apply IHd. destruct K as [K|K]; auto.
    cbn in K. subst k'. now rewrite str_eqb_refl in E. }
  destruct Hk as (v & Hv). unfold dict_getitem at 1. rewrite Hv.
  cbn [rbind]. rewrite IH; auto.
  intros x Hx. apply I. now right.
Qed.

(** [normalize_args] never raises: every sorted key is a key. *)
Lemma normalize_args_total {V} (default : V) (d : dict V) :
  normalize_args d = Ok (positional_args default d).
Proof.
  unfold normalize_args, positional_args. apply mapM_getitem_keys.
  intros k Hk. apply (Permutation_in _ (Permutation_sym (sorted_perm _)) Hk).
Qed.

(** The positional vector lists the values in the sorted order of the
    keys, each key once. *)
Lemma positional_args_keys {V} (d : dict V) :
  StronglySorted str_le (sorted (dict_keys d))
  /\ Permutation (dict_keys d) (sorted (dict_keys d)).
Proof. split; [apply sorted_sorted | apply sorted_perm]. Qed.

(* ================================================================= *)
(** ** Argument keys ([list_to_map], [normalize_args]) *)

(** C1 (as amended).  For every argument specification of length
    [n <= 1114015], [list_to_map] assigns exactly [n] distinct keys, in the
    fixed order ['a'], ['b'], ['c'], ... (the key of argument [i] is the
    character of code point [97 + i]), one per argument type; and for every
    reordering [d] of the map built from these keys over values
    [v1, ..., vn], [normalize_args d] is [[v1, ..., vn]]. *)
Theorem list_to_map_normalize_args_roundtrip
  (A V : Type) (arg_spec : list A) (vs : list V) (d : dict V) :
  (N.of_nat (length arg_spec) <= 1114015)%N ->
  length vs = length arg_spec ->
  Permutation d (combine (arg_keys (length arg_spec)) vs) ->
  list_to_map arg_spec
  = Ok (combine (arg_keys (length arg_spec))
          (map (fun t => [(py "type", t)]) arg_spec))
  /\ length (arg_keys (length arg_spec)) = length arg_spec
  /\ NoDup (arg_keys (length arg_spec))
  /\ normalize_args d = Ok vs.
Proof.
  intros B L P. repeat split.
  - now apply list_to_map_ok.
  - apply arg_keys_length.
  - apply arg_keys_nodup.
  - apply normalize_args_of_perm with (ks := arg_keys (length arg_spec)); auto.
    + apply arg_keys_sorted.
    + apply arg_keys_nodup.
    + now rewrite arg_keys_length.
Qed.

(** The example of the specification: argument spec [[int, int]], the model
    calls the tool with [{"b": 3, "a": 5}], the oracle receives [[5, 3]]. *)
Lemma list_to_map_normalize_args_roundtrip_witness :
  let arg_spec := [py "int"; py "int"] in
  let d := [(py "b", 3%Z); (py "a", 5%Z)] in
  list_to_map arg_spec
  = Ok [(py "a", [(py "type", py "int")]); (py "b", [(py "type", py "int")])]
  /\ normalize_args d = Ok [5%Z; 3%Z].
Proof.
  intros arg_spec d.
  assert (B : (N.of_nat (length arg_spec) <= 1114015)%N)
    by (vm_compute; discriminate).
  assert (L : length [5%Z; 3%Z] = length arg_spec) by reflexivity.
  assert (P : Permutation d (combine (arg_keys (length arg_spec)) [5%Z; 3%Z]))
    by apply perm_swap.
  destruct (@list_to_map_normalize_args_roundtrip _ _ arg_spec _ d B L P)
    as (H1 & _ & _ & H4).
  split; [exact H1 | exact H4].
Defined.

(** C1 as stated fails for long argument specifications: with 1114016
    argument types the key of the last one would be [chr(1114112)], which
    is a [ValueError]; [list_to_map] assigns no keys at all. *)
Lemma list_to_map_raises_beyond_unicode :
  list_to_map (repeat (py "int") (N.to_nat 1114016)) = Raise ValueError.
Proof.
  apply list_to_map_too_long.
  rewrite repeat_length, N2Nat.id. reflexivity.
Qed.

(* ================================================================= *)
(** ** The Investigation Loop ([investigate.py]) *)

Arguments py : simpl never.

Lemma model_calls_app (l1 l2 : list event) :
  model_calls (l1 ++ l2) = model_calls l1 + model_calls l2.
Proof. unfold model_calls. now rewrite filter_app, length_app. Qed.

Section Investigation.

Import Anthropic.

Context {W : Type} `{Oracle W} `{Provider W} `{Json}.

Lemma handle_tool_call_eq (attempt_id : pyval) (call : tool_use)
  (st : state W) :
  handle_tool_call attempt_id call st
  = let (reply, w1) :=
      postfn (py "test-function")
        (test_function_payload attempt_id
           (positional_args PNone (tool_input call))) (world st) in
    let st1 := mkState w1 (log st ++ [test_function_call attempt_id call]) in
    if is_mapping reply then (Ok (tool_result call reply), st1)
    else (Raise AttributeError, st1).
Proof.
  unfold handle_tool_call, bind, lift, post, ret, test_function_call.
  rewrite (normalize_args_total PNone).
  destruct (postfn _ _ (world st)) as [reply w1].
  destruct reply; reflexivity.
Qed.

(** The oracle is the only collaborator reached while the invocations of
    a turn are handled. *)
Lemma handle_tool_calls_model_calls (attempt_id : pyval)
  (calls : list tool_use) :
  forall content counter st r st',
    handle_tool_calls attempt_id calls content counter st = (r, st') ->
    model_calls (log st') = model_calls (log st).
Proof.
  induction calls as [|call rest IH]; intros content counter st r st' E.
  - inversion E. reflexivity.
  - cbn [handle_tool_calls] in E. unfold bind in E.
    rewrite handle_tool_call_eq in E.
    destruct (postfn _ _ (world st)) as [reply w1].
    cbv zeta in E. destruct (is_mapping reply).
    + apply IH in E. rewrite E. cbn [log].
      rewrite model_calls_app. cbn. lia.
    + inversion E. cbn [log]. rewrite model_calls_app. cbn. lia.
Qed.

Lemma handle_tool_calls_ok (attempt_id : pyval) (calls : list tool_use) :
  forall content counter st replies w2,
    test_function_replies attempt_id calls (world st) = (replies, w2) ->
    forallb is_mapping replies = true ->
    handle_tool_calls attempt_id calls content counter st
    = (Ok (content
           ++ map (fun cr => tool_result (fst cr) (snd cr))
                (combine calls replies),
           (counter + Z.of_nat (length calls))%Z),
       mkState w2 (log st ++ map (test_function_call attempt_id) calls)).
Proof.
  induction calls as [|call rest IH]; intros content counter st replies w2 R M.
  - cbn in R. inversion R; subst. cbn [handle_tool_calls ret combine map length].
    rewrite !app_nil_r, Z.add_0_r. now destruct st.
  - cbn [test_function_replies] in R.
    cbn [handle_tool_calls]. unfold bind. rewrite handle_tool_call_eq.
    destruct (postfn _ _ (world st)) as [reply w1].
    destruct (test_function_replies attempt_id rest w1) as [rs w3] eqn:R'.
    inversion R; subst. cbn [forallb] in M.
    apply andb_true_iff in M as [M1 M2]. cbv zeta. rewrite M1.
    rewrite (IH _ _ _ rs w2); auto.
    cbn [combine map fst snd length log world].
    rewrite <- !app_assoc. cbn [app].
    do 3 f_equal. lia.
Qed.

Lemma investigate_loop_S (n : nat) (tools : list tool) (attempt_id : pyval)
  (messages : list message) (counter : Z) (st : state W) :
  investigate_loop (S n) tools attempt_id messages counter st
  = match complete messages (Some tools) st with
    | (Ok completion, st1) =>
        let blocks :=
          content_blocks (first_thinking completion)
            (first_redacted completion) (first_text completion) in
        match tool_uses completion with
        | [] => (Ok (messages ++ [Message assistant blocks], counter), st1)
        | _ :: _ =>
            match handle_tool_calls attempt_id (tool_uses completion) []
                    counter st1 with
            | (Ok (content, counter'), st2) =>
                investigate_loop n tools attempt_id
                  ((messages ++
                    [Message assistant
                       (blocks ++ map ToolUseItem (tool_uses completion))])
                   ++ [Message user content]) counter' st2
            | (Raise e, st2) => (Raise e, st2)
            end
        end
    | (Raise e, st1) => (Raise e, st1)
    end.
Proof.
  cbn [investigate_loop]. unfold bind at 1.
  destruct (complete messages (Some tools) st) as [[completion|e] st1]; auto.
  unfold parse_completion. cbv zeta.
  destruct (tool_uses completion) as [|c cs]; auto.
  unfold bind.
  destruct (handle_tool_calls attempt_id (c :: cs) [] counter st1)
    as [[[content counter']|e] st2]; auto.
Qed.

Lemma investigate_loop_tool_turn (n : nat) (tools : list tool)
  (attempt_id : pyval) (messages : list message) (counter : Z)
  (st st1 st2 : state W) (completion : list content_block)
  (content : list item) (counter' : Z) :
  complete messages (Some tools) st = (Ok completion, st1) ->
  tool_uses completion <> [] ->
  handle_tool_calls attempt_id (tool_uses completion) [] counter st1
  = (Ok (content, counter'), st2) ->
  investigate_loop (S n) tools attempt_id messages counter st
  = investigate_loop n tools attempt_id
      ((messages ++
        [Message assistant
           (content_blocks (first_thinking completion)
              (first_redacted completion) (first_text completion)
            ++ map ToolUseItem (tool_uses completion))])
       ++ [Message user content]) counter' st2.
Proof.
  intros Hc Ht Hh. rewrite investigate_loop_S, Hc. cbv zeta.
  destruct (tool_uses completion) as [|x xs] eqn:E; [congruence|].
  now rewrite Hh.
Qed.

Lemma complete_eq (messages : list message) (tools : option (list tool))
  (st : state W) :
  complete messages tools st
  = (Ok (fst (completionfn messages tools (world st))),
     mkState (snd (completionfn messages tools (world st)))
       (log st ++ [ModelCall])).
Proof.
  unfold complete. now destruct (completionfn messages tools (world st)).
Qed.




End Investigation.

Section InvestigationClaims.

Import Anthropic.

Context {W : Type} `{Oracle W} `{Provider W} `{Json}.

Lemma test_function_replies_length (attempt_id : pyval)
  (calls : list tool_use) :
  forall w replies w2,
    test_function_replies attempt_id calls w = (replies, w2) ->
    length replies = length calls.
Proof.
  induction calls as [|call rest IH]; intros w replies w2 R;
    cbn [test_function_replies] in R.
  - now inversion R.
  - destruct (postfn _ _ w) as [reply w1].
    destruct (test_function_replies attempt_id rest w1) as [rs w3] eqn:R'.
    inversion R; subst. cbn [length]. f_equal. eapply IH; eauto.
Qed.

Lemma oracle_calls_app (l1 l2 : list event) :
  oracle_calls (l1 ++ l2) = oracle_calls l1 ++ oracle_calls l2.
Proof. unfold oracle_calls. apply flat_map_app. Qed.

Lemma oracle_calls_test_function (attempt_id : pyval)
  (calls : list tool_use) :
  oracle_calls (map (test_function_call attempt_id) calls)
  = map (fun call =>
           (py "test-function",
            test_function_payload attempt_id
              (positional_args PNone (tool_input call)))) calls.
Proof.
  induction calls as [|c cs IH]; [reflexivity|].
  cbn [map]. unfold oracle_calls in *. cbn [flat_map]. rewrite IH.
  reflexivity.
Qed.

Lemma positional_args_vector {V} (default : V) (input : dict V) :
  positional_vector input (positional_args default input).
Proof.
  exists (sorted (dict_keys input)). split; [|split].
  - apply Permutation_sym, sorted_perm.
  - apply sorted_sorted.
  - unfold positional_args. rewrite map_map. apply map_ext_in.
    intros k Hk.
    assert (K : In k (dict_keys input))
      by (apply (Permutation_in _ (Permutation_sym (sorted_perm _)) Hk)).
    destruct (dict_get input k) as [v|] eqn:E; [reflexivity|].
    exfalso. clear - K E. induction input as [|[k' v'] t IH]; [destruct K|].
    cbn [dict_get] in E. destruct (str_eqb k k') eqn:X; [discriminate|].
    destruct K as [K|K]; [|now apply IH].
    cbn in K. subst k'. now rewrite str_eqb_refl in X.
Qed.

(** C2 (as amended).  In a turn whose completion contains the tool
    invocations [T1 .. Tk] (k >= 1), each answered by the oracle with a
    JSON object, the loop issues exactly [k] [test-function] calls, one per
    invocation and in their order; the request of an invocation is the
    object [{"attempt-id": attempt_id, "args": vs}] where [vs] is the
    positional vector of the invocation (its argument keys sorted, the
    values projected in that order); the loop appends the assistant message
    (reasoning, redacted marker, text, then the invocations) and a user
    message with one tool-result block per invocation, whose [tool_use_id]
    is the identifier of that invocation; the counter grows by [k]; and the
    loop goes on with the next turn. *)
Theorem investigate_tool_turn (n : nat) (tools : list tool)
  (attempt_id : pyval) (messages : list message) (counter : Z)
  (st : state W) (completion : list content_block) (w1 : W)
  (replies : list pyval) (w2 : W) :
  completionfn messages (Some tools) (world st) = (completion, w1) ->
  tool_uses completion <> [] ->
  test_function_replies attempt_id (tool_uses completion) w1
  = (replies, w2) ->
  forallb is_mapping replies = true ->
  let calls := tool_uses completion in
  let vectors :=
    map (fun call => positional_args PNone (tool_input call)) calls in
  let requests :=
    map (fun vs =>
           (py "test-function",
            PDict [(py "attempt-id", attempt_id); (py "args", PList vs)]))
      vectors in
  let results :=
    map (fun cr => tool_result (fst cr) (snd cr)) (combine calls replies) in
  let st2 :=
    mkState w2
      (log st ++ ModelCall
       :: map (fun r => OracleCall (fst r) (snd r)) requests) in
  investigate_loop (S n) tools attempt_id messages counter st
  = investigate_loop n tools attempt_id
      ((messages ++
        [Message assistant
           (match first_thinking completion with
            | Some (t, s) => [ThinkingItem t s]
            | None => []
            end
            ++ match first_redacted completion with
               | Some _ => [RedactedThinkingItem]
               | None => []
               end
            ++ match first_text completion with
               | Some m => [TextItem m]
               | None => []
               end
            ++ map ToolUseItem calls)])
       ++ [Message user results])
      (counter + Z.of_nat (length calls))%Z st2
  /\ oracle_calls (log st2) = oracle_calls (log st) ++ requests
  /\ Forall2 (fun call vs => positional_vector (tool_input call) vs)
       calls vectors
  /\ length results = length calls
  /\ Forall2 (fun call r =>
                exists content, r = ToolResultItem (tool_id call) content)
       calls results.
Proof.
  intros Hc Ht Hr Hm calls vectors requests results st2.
  assert (L : length replies = length calls)
    by (eapply test_function_replies_length; eauto).
  assert (E : map (fun r => OracleCall (fst r) (snd r)) requests
              = map (test_function_call attempt_id) calls).
  { unfold requests, vectors. rewrite !map_map. reflexivity. }
  repeat split.
  - subst calls results st2. rewrite E.
    rewrite investigate_loop_tool_turn
      with (st1 := mkState w1 (log st ++ [ModelCall]))
           (completion := completion)
           (content := map (fun cr => tool_result (fst cr) (snd cr))
                         (combine (tool_uses completion) replies))
           (counter' := (counter
                         + Z.of_nat (length (tool_uses completion)))%Z)
           (st2 := mkState w2
                     (log st ++ ModelCall
                      :: map (test_function_call attempt_id)
                           (tool_uses completion))); auto.
    + unfold content_blocks. now rewrite <- !app_assoc.
    + now rewrite complete_eq, Hc.
    + erewrite handle_tool_calls_ok by eauto.
      cbn [log app]. now rewrite <- app_assoc.
  - unfold st2. cbn [log]. rewrite E.
    rewrite oracle_calls_app.
    change (ModelCall :: map (test_function_call attempt_id) calls)
      with ([ModelCall] ++ map (test_function_call attempt_id) calls).
    rewrite oracle_calls_app, oracle_calls_test_function.
    unfold requests, vectors. now rewrite map_map.
  - unfold vectors. clear. induction calls as [|c cs IH]; constructor; auto.
    apply positional_args_vector.
  - unfold results. rewrite length_map, length_combine. lia.
  - unfold results. clear - L. revert replies L.
    induction calls as [|c cs IH]; intros [|r rs] L; cbn in *;
      try discriminate; constructor; eauto.
    unfold tool_result. eauto.
Qed.

(** C8.  When the reply of the oracle to a [test-function] call is a
    mapping without the key ["output"], [handle_tool_call] does not raise:
    the function output is the string ['Error calling tool'] and the
    tool-result block for the invocation is produced all the same. *)
Theorem handle_tool_call_missing_output (attempt_id : pyval)
  (call : tool_use) (st : state W) (d : dict pyval) (w1 : W) :
  postfn (py "test-function")
    (test_function_payload attempt_id
       (positional_args PNone (tool_input call))) (world st)
  = (PDict d, w1) ->
  dict_get d (py "output") = None ->
  handle_tool_call attempt_id call st
  = (Ok (ToolResultItem (tool_id call)
           (json_dumps (PStr (py "Error calling tool")))),
     mkState w1 (log st ++ [test_function_call attempt_id call])).
Proof.
  intros Hp Hd. rewrite handle_tool_call_eq, Hp. cbn [is_mapping].
  unfold tool_result. now rewrite Hd.
Qed.



(** A message limit of zero or less leaves no turn: the loop raises at
    once, without a model call. *)
Lemma investigate_no_budget (cfg : config) (messages : list message)
  (attempt_id : pyval) (arg_spec : list pyval) (st : state W)
  (mapped : dict (dict pyval)) :
  (msg_limit cfg <= 0)%Z ->
  list_to_map arg_spec = Ok mapped ->
  investigate cfg messages attempt_id arg_spec st
  = (Raise MsgLimitException, st).
Proof.
  intros HN Hm. unfold investigate, bind, lift. rewrite Hm.
  replace (Z.to_nat (msg_limit cfg)) with 0 by lia. reflexivity.
Qed.

End InvestigationClaims.

(* ================================================================= *)
(** ** Substrings and the verdict *)

Lemma startswith_spec (s p : pystr) :
  startswith s p = true <-> exists rest, s = p ++ rest.
Proof.
  revert s; induction p as [|a p IH]; intros s.
  - destruct s; cbn [startswith]; (split; [intros _; eexists; reflexivity | reflexivity]).
  - destruct s as [|b s]; cbn [startswith].
    + split; [discriminate | intros (r & E); discriminate].
    + rewrite andb_true_iff, N.eqb_eq, IH. split.
      * intros (-> & r & ->). now exists r.
      * intros (r & E). inversion E. eauto.
Qed.

Lemma str_in_spec (x s : pystr) : str_in x s = true <-> substring x s.
Proof.
  induction s as [|c s IH]; cbn [str_in]; rewrite orb_true_iff.
  - rewrite startswith_spec. split.
    + intros [(r & E)|E]; [|discriminate]. now exists [], r.
    + intros (b & a & E). left. destruct b; [|discriminate].
      now exists a.
  - rewrite startswith_spec, IH. split.
    + intros [(r & E)|(b & a & E)].
      * exists [], r. exact E.
      * exists (c :: b), a. cbn. now rewrite E.
    + intros (b & a & E). destruct b as [|c' b].
      * left. now exists a.
      * right. inversion E. now exists b, a.
Qed.

Lemma str_in_false (x s : pystr) : str_in x s = false <-> ~ substring x s.
Proof.
  rewrite <- str_in_spec. destruct (str_in x s); split; congruence.
Qed.

Lemma verdict_wrong (s : pystr) :
  verdict (PStr s) = Ok Wrong <-> substring s (py "wrong").
Proof.
  unfold verdict. cbn [py_in_str rbind]. rewrite <- str_in_spec.
  destruct (str_in s (py "wrong")); [tauto|].
  destruct (str_in s (py "done")); split; congruence.
Qed.

Lemma verdict_done (s : pystr) :
  verdict (PStr s) = Ok Done
  <-> substring s (py "done") /\ ~ substring s (py "wrong").
Proof.
  unfold verdict. cbn [py_in_str rbind].
  rewrite <- str_in_spec, <- str_in_false.
  destruct (str_in s (py "wrong")), (str_in s (py "done"));
    split; intuition congruence.
Qed.

Lemma verdict_next (s : pystr) :
  verdict (PStr s) = Ok NextCase
  <-> ~ substring s (py "wrong") /\ ~ substring s (py "done").
Proof.
  unfold verdict. cbn [py_in_str rbind]. rewrite <- !str_in_false.
  destruct (str_in s (py "wrong")), (str_in s (py "done"));
    split; intuition congruence.
Qed.

Lemma anthropic_verify_S {W} `{Oracle W} `{Anthropic.Provider W} `{Json}
  (fuel : nat) (messages : list Anthropic.message) (attempt_id : pyval)
  (st : state W) :
  Anthropic.verify (S fuel) messages attempt_id st
  = dispatch (Anthropic.verification_case messages attempt_id st)
      (Anthropic.verify fuel messages attempt_id).
Proof.
  unfold Anthropic.verify. cbn [Anthropic.verify_loop]. unfold bind, dispatch.
  destruct (Anthropic.verification_case messages attempt_id st)
    as [[[v|]|e] st']; auto.
  unfold lift. destruct (verdict v) as [[| |]|e]; auto.
Qed.

Lemma openai_verify_S {W} `{Oracle W} `{OpenAI.Provider W} `{Json}
  (fuel : nat) (messages : list OpenAI.message) (attempt_id : pyval)
  (st : state W) :
  OpenAI.verify (S fuel) messages attempt_id st
  = dispatch (OpenAI.verification_case messages attempt_id st)
      (OpenAI.verify fuel messages attempt_id).
Proof.
  unfold OpenAI.verify. cbn [OpenAI.verify_loop]. unfold bind, dispatch.
  destruct (OpenAI.verification_case messages attempt_id st)
    as [[[v|]|e] st']; auto.
  unfold lift. destruct (verdict v) as [[| |]|e]; auto.
Qed.

Lemma google_verify_S {W} `{Oracle W} `{Google.Provider W}
  (fuel : nat) (messages : list Google.message) (attempt_id : pyval)
  (st : state W) :
  Google.verify (S fuel) messages attempt_id st
  = dispatch (Google.verification_case messages attempt_id st)
      (Google.verify fuel messages attempt_id).
Proof.
  unfold Google.verify. cbn [Google.verify_loop]. unfold bind, dispatch.
  destruct (Google.verification_case messages attempt_id st)
    as [[[v|]|e] st']; auto.
  unfold lift. destruct (verdict v) as [[| |]|e]; auto.
Qed.

(* ================================================================= *)
(** ** Witnesses for the Investigation Loop *)

Section InvestigationWitnesses.

Import Anthropic Reference Examples.

(** The first turn of [Examples.investigation]: two invocations, two
    [test-function] calls in their order, [{"b": 3, "a": 5}] sent as
    [[5, 3]]. *)
Lemma investigate_tool_turn_witness :
  oracle_calls
    (log (snd (investigate_loop 1 [] attempt [] 0%Z (start investigation))))
  = [(py "test-function",
      PDict [(py "attempt-id", PStr (py "attempt-1"));
             (py "args", PList [PInt 5; PInt 3])]);
     (py "test-function",
      PDict [(py "attempt-id", PStr (py "attempt-1"));
             (py "args", PList [PInt 7])])].
Proof.
  destruct (@investigate_tool_turn _ _ _ _ 0 [] attempt [] 0%Z
              (start investigation) tool_completion
              (Script
                 [PDict [(py "output", PInt 8)];
                  PDict [(py "error", PStr (py "boom"))]]
                 [final_completion] [] [])
              [PDict [(py "output", PInt 8)];
               PDict [(py "error", PStr (py "boom"))]]
              (Script [] [final_completion] [] []))
    as (E & O & _).
  - reflexivity.
  - discriminate.
  - reflexivity.
  - reflexivity.
  - rewrite E. exact O.
Defined.

(** C2 as stated fails when the oracle answers an invocation with
    something that is not a JSON object: the completion holds two
    invocations, the oracle answers the first with a string, and the loop
    raises [AttributeError] after one [test-function] call; the second
    invocation is never sent and no tool-result block is appended. *)
Lemma investigate_tool_turn_non_mapping_reply :
  let w := Script [PStr (py "busy")] [tool_completion; final_completion]
             [] [] in
  let run := investigate (Config 5) [] attempt int_int (start w) in
  length (tool_uses tool_completion) = 2
  /\ fst run = Raise AttributeError
  /\ oracle_calls (log (snd run))
     = [(py "test-function",
         PDict [(py "attempt-id", PStr (py "attempt-1"));
                (py "args", PList [PInt 5; PInt 3])])].
Proof. vm_compute. repeat split. Qed.

(** The second reply of [Examples.investigation] has no ["output"]. *)
Lemma handle_tool_call_missing_output_witness :
  fst (handle_tool_call attempt call_c
         (start (Script [PDict [(py "error", PStr (py "boom"))]]
                   [final_completion] [] [])))
  = Ok (ToolResultItem (py "toolu_2") (q "'Error calling tool'")).
Proof.
  rewrite (@handle_tool_call_missing_output _ _ _ attempt call_c
             (start (Script [PDict [(py "error", PStr (py "boom"))]]
                       [final_completion] [] []))
             [(py "error", PStr (py "boom"))]
             (Script [] [final_completion] [] [])).
  - reflexivity.
  - reflexivity.
  - reflexivity.
Defined.

End InvestigationWitnesses.

Section BudgetWitnesses.

Import Anthropic Reference Examples.



End BudgetWitnesses.

(* ================================================================= *)
(** ** The verdict protocol of the Verification Loop *)

(** C10 (as amended).  For every status string [s] the failure branch is
    taken exactly when [s] is a contiguous substring of ['wrong']; the
    success-terminating branch is taken exactly when [s] is a contiguous
    substring of ['done'] and not of ['wrong'] (the test for ['wrong'] comes
    first); in every other case the loop goes on with the next case.  All
    three [verify] functions decide by this [verdict]. *)
Theorem verify_verdict_by_containment (s : pystr) :
  (verdict (PStr s) = Ok Wrong <-> substring s (py "wrong"))
  /\ (verdict (PStr s) = Ok Done
      <-> substring s (py "done") /\ ~ substring s (py "wrong"))
  /\ (verdict (PStr s) = Ok NextCase
      <-> ~ substring s (py "wrong") /\ ~ substring s (py "done"))
  /\ (forall W (O : Oracle W) (P : Anthropic.Provider W) (J : Json)
        fuel messages attempt_id st,
         Anthropic.verify (S fuel) messages attempt_id st
         = dispatch (Anthropic.verification_case messages attempt_id st)
             (Anthropic.verify fuel messages attempt_id))
  /\ (forall W (O : Oracle W) (P : OpenAI.Provider W) (J : Json)
        fuel messages attempt_id st,
         OpenAI.verify (S fuel) messages attempt_id st
         = dispatch (OpenAI.verification_case messages attempt_id st)
             (OpenAI.verify fuel messages attempt_id))
  /\ (forall W (O : Oracle W) (P : Google.Provider W)
        fuel messages attempt_id st,
         Google.verify (S fuel) messages attempt_id st
         = dispatch (Google.verification_case messages attempt_id st)
             (Google.verify fuel messages attempt_id)).
Proof.
  split; [apply verdict_wrong|].
  split; [apply verdict_done|].
  split; [apply verdict_next|].
  split; [intros; apply anthropic_verify_S|].
  split; [intros; apply openai_verify_S | intros; apply google_verify_S].
Qed.

(** The statuses C10 names go to the failure branch; a status that is not
    a string is a [TypeError]. *)
Lemma verdict_examples :
  verdict (PStr (py "")) = Ok Wrong
  /\ verdict (PStr (py "w")) = Ok Wrong
  /\ verdict (PStr (py "ro")) = Ok Wrong
  /\ verdict (PStr (py "on")) = Ok Wrong
  /\ verdict (PStr (py "wrong")) = Ok Wrong
  /\ verdict (PStr (py "done")) = Ok Done
  /\ verdict (PStr (py "one")) = Ok Done
  /\ verdict (PStr (py "correct")) = Ok NextCase
  /\ verdict PNone = Raise TypeError.
Proof. repeat split. Qed.

Section VerdictExamples.

Import Reference Examples.

(** C10 as stated fails: ['on'] is a contiguous substring of ['done'], yet
    the branch taken is the failure branch, and [verify] returns [False]. *)
Lemma done_substring_takes_failure_branch :
  substring (py "on") (py "done")
  /\ verdict (PStr (py "on")) = Ok Wrong
  /\ fst (Anthropic.verify 10 Examples.transcript Examples.attempt
            (Reference.start (Examples.verdicts ["on"%string])))
     = Ok (Some false).
Proof.
  split; [|split].
  - exists (py "d"), (py "e"). reflexivity.
  - reflexivity.
  - vm_compute. reflexivity.
Qed.

(** C5, the part that holds: the verdicts [correct, correct, done] end in
    success after exactly three predictions; a verdict [wrong] ends in
    failure at once, although the oracle had further cases. *)
Lemma verify_correct_correct_done :
  let run := Anthropic.verify 10 Examples.transcript Examples.attempt
               (Reference.start
                  (Examples.verdicts ["correct"; "correct"; "done"]%string)) in
  fst run = Ok (Some true) /\ Examples.predictions (log (snd run)) = 3.
Proof. vm_compute. split; reflexivity. Qed.

Lemma verify_wrong_stops :
  let run := Anthropic.verify 10 Examples.transcript Examples.attempt
               (Reference.start
                  (Examples.verdicts ["correct"; "wrong"; "done"]%string)) in
  fst run = Ok (Some false) /\ Examples.predictions (log (snd run)) = 2
  /\ Reference.replies (world (snd run)) <> [].
Proof. vm_compute. repeat split; discriminate. Qed.

(** C5, where the code departs from it: the verdict ['on'] is neither
    ['wrong'] nor ['done'], so the loop should go on to the next case; the
    code returns [False] after this one prediction.  Likewise the verdict
    ['one'] ends the loop with [True] after one prediction. *)
Theorem verify_unlisted_verdict_stops :
  let run_on := Anthropic.verify 10 Examples.transcript Examples.attempt
                  (Reference.start
                     (Examples.verdicts ["on"; "correct"; "done"]%string)) in
  let run_one := Anthropic.verify 10 Examples.transcript Examples.attempt
                   (Reference.start
                      (Examples.verdicts ["one"; "correct"; "done"]%string)) in
  fst run_on = Ok (Some false)
  /\ Examples.predictions (log (snd run_on)) = 1
  /\ fst run_one = Ok (Some true)
  /\ Examples.predictions (log (snd run_one)) = 1.
Proof. vm_compute. repeat split. Qed.

End VerdictExamples.

(* ================================================================= *)
(** ** Malformed predictions ([verify.py], the retry loop) *)

Section Retry.

Import Anthropic.

Context {W : Type} `{Oracle W} `{Provider W} `{Json}.

Lemma post_eq (endpoint : pystr) (payload : pyval) (st : state W) :
  post endpoint payload st
  = (Ok (fst (postfn endpoint payload (world st))),
     mkState (snd (postfn endpoint payload (world st)))
       (log st ++ [OracleCall endpoint payload])).
Proof. unfold post. now destruct (postfn endpoint payload (world st)). Qed.

(** A completion whose text is not JSON costs one attempt. *)
Lemma ask_prediction_decode_error (n : nat) (vmessages : list message)
  (st : state W) [c : list content_block] [w : W] :
  completionfn vmessages None (world st) = (c, w) ->
  json_loads_obj (clean_response (first_text c)) = Raise JSONDecodeError ->
  ask_prediction (S n) vmessages st
  = ask_prediction n vmessages (mkState w (log st ++ [ModelCall])).
Proof.
  intros Hc Hj. cbn [ask_prediction]. unfold bind.
  rewrite complete_eq, Hc. cbn [fst snd].
  unfold parse_response. rewrite Hj. reflexivity.
Qed.

(** The retry loop asks the model at most [n] times. *)
Lemma ask_prediction_at_most (n : nat) (vmessages : list message) :
  forall st r st',
    ask_prediction n vmessages st = (r, st') ->
    model_calls (log st') <= model_calls (log st) + n.
Proof.
  induction n as [|n IH]; intros st r st' E.
  - inversion E. lia.
  - cbn [ask_prediction] in E. unfold bind in E.
    rewrite complete_eq in E.
    set (st1 := mkState _ _) in E.
    assert (M : model_calls (log st1) = model_calls (log st) + 1)
      by (unfold st1; cbn [log]; now rewrite model_calls_app).
    destruct (parse_response _) as [te|e].
    + inversion E; subst. lia.
    + destruct e; try (inversion E; subst; lia).
      apply IH in E. lia.
Qed.

(** C6 (as amended).  For a verification case, when the text of the
    completion is present but is not JSON ([json.JSONDecodeError]) three
    times in a row, the loop has asked the model exactly three times; it
    does not raise, it goes on with [thoughts] and [expected_output] empty
    and submits the empty prediction to [attempt-verification]. *)
Theorem verification_case_after_three_decode_errors
  (messages : list message) (attempt_id : pyval) (st : state W)
  (v_data : pyval) (w0 : W) (verification output_type : pyval)
  (last : message) (c1 c2 c3 : list content_block) (w1 w2 w3 : W)
  (reply : pyval) (w4 : W) (vstatus : pyval) :
  postfn (py "next-verification") (attempt_payload attempt_id) (world st)
  = (v_data, w0) ->
  truthy v_data = true ->
  py_getitem v_data (py "next-verification") = Ok verification ->
  py_getitem v_data (py "output-type") = Ok output_type ->
  last_message messages = Ok last ->
  let vmessages :=
    [last; make_verification_message (value_list_to_map verification)] in
  completionfn vmessages None w0 = (c1, w1) ->
  completionfn vmessages None w1 = (c2, w2) ->
  completionfn vmessages None w2 = (c3, w3) ->
  json_loads_obj (clean_response (first_text c1)) = Raise JSONDecodeError ->
  json_loads_obj (clean_response (first_text c2)) = Raise JSONDecodeError ->
  json_loads_obj (clean_response (first_text c3)) = Raise JSONDecodeError ->
  postfn (py "attempt-verification")
    (prediction_payload attempt_id (PStr [])) w3 = (reply, w4) ->
  py_getitem reply (py "status") = Ok vstatus ->
  let asked :=
    log st ++ [OracleCall (py "next-verification")
                 (attempt_payload attempt_id);
               ModelCall; ModelCall; ModelCall] in
  ask_prediction 3 vmessages
    (mkState w0 (log st ++ [OracleCall (py "next-verification")
                              (attempt_payload attempt_id)]))
  = (Ok (PStr [], PStr []), mkState w3 asked)
  /\ verification_case messages attempt_id st
     = (Ok (Some vstatus),
        mkState w4
          (asked ++ [OracleCall (py "attempt-verification")
                       (prediction_payload attempt_id (PStr []))])).
Proof.
  intros Hv Ht Hn Ho Hl vmessages H1' H2' H3' J1 J2 J3 Hr Hs asked.
  assert (A : ask_prediction 3 vmessages
                (mkState w0 (log st ++ [OracleCall (py "next-verification")
                                          (attempt_payload attempt_id)]))
              = (Ok (PStr [], PStr []), mkState w3 asked)).
  { rewrite (ask_prediction_decode_error 2 vmessages (mkState w0 _) H1' J1).
    rewrite (ask_prediction_decode_error 1 vmessages (mkState w1 _) H2' J2).
    rewrite (ask_prediction_decode_error 0 vmessages (mkState w2 _) H3' J3).
    cbn [ask_prediction ret log]. unfold asked.
    now rewrite <- !app_assoc. }
  split; [exact A|].
  unfold verification_case. unfold bind at 1. rewrite post_eq, Hv.
  cbn [fst snd]. rewrite Ht.
  unfold bind at 1. unfold lift at 1. rewrite Hn.
  unfold bind at 1. unfold lift at 1. rewrite Ho.
  unfold bind at 1. unfold lift at 1. rewrite Hl.
  unfold bind at 1. fold vmessages. rewrite A.
  unfold bind at 1. rewrite post_eq. cbn [world log]. rewrite Hr.
  cbn [fst snd]. unfold bind, lift, ret. now rewrite Hs.
Qed.

End Retry.

Section RetryExamples.

Import Anthropic Reference Examples.

(** [Examples.malformed]: three completions that are not JSON, then the
    empty prediction is judged. *)
Lemma verification_case_after_three_decode_errors_witness :
  exists st,
    verification_case transcript attempt (start malformed)
    = (Ok (Some (PStr (py "wrong"))), st)
    /\ model_calls (log st) = 3
    /\ oracle_calls (log st)
       = [(py "next-verification", attempt_payload attempt);
          (py "attempt-verification",
           prediction_payload attempt (PStr []))].
Proof.
  edestruct (@verification_case_after_three_decode_errors _ _ _ _
               transcript attempt (start malformed)) as (_ & E).
  - reflexivity.
  - reflexivity.
  - reflexivity.
  - reflexivity.
  - reflexivity.
  - reflexivity.
  - reflexivity.
  - reflexivity.
  - reflexivity.
  - reflexivity.
  - reflexivity.
  - reflexivity.
  - reflexivity.
  - eexists. split; [exact E|]. split; reflexivity.
Defined.

(** C6 as stated fails when the response cannot be parsed because the
    completion has no text block: [json.loads(None)] is a [TypeError],
    which the loop does not catch; [verify] raises after a single model
    call, without a retry and without a prediction. *)
Lemma verify_raises_without_text :
  let run := verify 10 transcript attempt (start no_text) in
  fst run = Raise TypeError
  /\ model_calls (log (snd run)) = 1
  /\ predictions (log (snd run)) = 0.
Proof. vm_compute. repeat split. Qed.

End RetryExamples.

(* ================================================================= *)
(** ** Fenced responses ([verify.py], the code-fence markers) *)

Lemma blank_rev (w : pystr) : blank w -> blank (rev w).
Proof.
  unfold blank. rewrite !forallb_forall. intros B c Hc.
  apply B. now apply in_rev.
Qed.

Lemma lstrip_blank_app (w x : pystr) : blank w -> lstrip (w ++ x) = lstrip x.
Proof.
  unfold blank. induction w as [|c w IH]; cbn [forallb app lstrip]; auto.
  intros B. apply andb_true_iff in B as [-> B]. auto.
Qed.

Lemma lstrip_blank (w : pystr) : blank w -> lstrip w = [].
Proof.
  intros B. rewrite <- (app_nil_r w). now rewrite lstrip_blank_app.
Qed.

Lemma lstrip_cons_nonspace (c : codepoint) (t : pystr) :
  isspace c = false -> lstrip (c :: t) = c :: t.
Proof. intros E. cbn [lstrip]. now rewrite E. Qed.

Lemma lstrip_app_nonspace (a : pystr) (c : codepoint) (t : pystr) :
  isspace c = false -> lstrip (a ++ c :: t) = lstrip a ++ c :: t.
Proof.
  intros E. induction a as [|x a IH]; cbn [app lstrip].
  - now rewrite E.
  - destruct (isspace x); auto.
Qed.

Lemma lstrip_idem (a : pystr) : lstrip (lstrip a) = lstrip a.
Proof.
  induction a as [|x a IH]; cbn [lstrip]; auto.
  destruct (isspace x) eqn:E; auto. cbn [lstrip]. now rewrite E.
Qed.

Lemma rstrip_app_blank (x w : pystr) : blank w -> rstrip (x ++ w) = rstrip x.
Proof.
  intros B. unfold rstrip. rewrite rev_app_distr.
  now rewrite lstrip_blank_app by now apply blank_rev.
Qed.

Lemma rstrip_snoc_nonspace (x : pystr) (c : codepoint) :
  isspace c = false -> rstrip (x ++ [c]) = x ++ [c].
Proof.
  intros E. unfold rstrip. rewrite rev_app_distr. cbn [rev app].
  rewrite lstrip_cons_nonspace by exact E.
  cbn [rev]. now rewrite rev_involutive.
Qed.

Lemma strip_app_blank (r w : pystr) : blank w -> strip (r ++ w) = strip r.
Proof.
  intros B. unfold strip. induction r as [|x r IH]; cbn [app lstrip].
  - now rewrite lstrip_blank.
  - destruct (isspace x); auto.
    change (x :: r ++ w) with ((x :: r) ++ w). now apply rstrip_app_blank.
Qed.

Lemma strip_lstrip (a : pystr) : strip (lstrip a) = strip a.
Proof. unfold strip. now rewrite lstrip_idem. Qed.

(** The closing marker: three backquotes. *)
Lemma rstrip_fence (x : pystr) : rstrip (x ++ py "```") = x ++ py "```".
Proof.
  change (py "```") with ([96; 96] ++ [96])%N. rewrite app_assoc.
  now apply rstrip_snoc_nonspace.
Qed.

Lemma strip_before_fence (w a : pystr) :
  blank w -> strip (w ++ a ++ py "```") = lstrip a ++ py "```".
Proof.
  intros B. unfold strip. rewrite lstrip_blank_app by exact B.
  change (py "```") with (96 :: [96; 96])%N at 1.
  rewrite lstrip_app_nonspace by reflexivity.
  apply rstrip_fence.
Qed.

Lemma startswith_app (p x : pystr) : startswith (p ++ x) p = true.
Proof. apply startswith_spec. now exists x. Qed.

Lemma endswith_app (x p : pystr) : endswith (x ++ p) p = true.
Proof. unfold endswith. rewrite rev_app_distr. apply startswith_app. Qed.

Lemma slice_to_minus_app (y g : pystr) :
  slice_to_minus (length g) (y ++ g) = y.
Proof.
  unfold slice_to_minus. rewrite length_app, Nat.add_sub.
  rewrite firstn_app, firstn_all, Nat.sub_diag. cbn [firstn].
  apply app_nil_r.
Qed.

Section Fences.

Import Anthropic.

Context `{Json}.

(** The text between a leading [```json] and a trailing [```], white space
    around the markers and around the text aside. *)
Lemma clean_response_fenced (r w1 w2 w3 w4 : pystr) :
  blank w1 -> blank w2 -> blank w3 -> blank w4 ->
  clean_response
    (Some (w1 ++ py "```json" ++ w2 ++ r ++ w3 ++ py "```" ++ w4))
  = Some (strip r).
Proof.
  intros B1 B2 B3 B4.
  set (body := lstrip (r ++ w3)).
  assert (S0 : strip (w1 ++ py "```json" ++ w2 ++ r ++ w3 ++ py "```" ++ w4)
               = py "```json" ++ w2 ++ r ++ w3 ++ py "```").
  { unfold strip. rewrite lstrip_blank_app by exact B1.
    change (py "```json") with (96 :: skipn 1 (py "```json"))%N at 1.
    cbn [app]. rewrite lstrip_cons_nonspace by reflexivity.
    change (96 :: skipn 1 (py "```json") ++ w2 ++ r ++ w3 ++ py "```" ++ w4)%N
      with (py "```json" ++ w2 ++ r ++ w3 ++ py "```" ++ w4).
    replace (py "```json" ++ w2 ++ r ++ w3 ++ py "```" ++ w4)
      with (((py "```json" ++ w2 ++ r ++ w3) ++ py "```") ++ w4)
      by (now rewrite <- !app_assoc).
    rewrite rstrip_app_blank by exact B4. rewrite rstrip_fence.
    now rewrite <- !app_assoc. }
  assert (L : strip_leading_fence
                (Some (w1 ++ py "```json" ++ w2 ++ r ++ w3 ++ py "```" ++ w4))
              = Some (body ++ py "```")).
  { unfold strip_leading_fence. rewrite S0, startswith_app.
    replace (nonempty _) with true by (now destruct w1).
    cbn [andb]. f_equal.
    change (slice_from 7 (py "```json" ++ w2 ++ r ++ w3 ++ py "```"))
      with (w2 ++ r ++ w3 ++ py "```").
    rewrite (app_assoc r w3). now apply strip_before_fence. }
  unfold clean_response. rewrite L. unfold strip_trailing_fence.
  assert (S1 : strip (body ++ py "```") = body ++ py "```").
  { unfold body.
    pose proof (@strip_before_fence [] (lstrip (r ++ w3)) eq_refl) as X.
    now rewrite lstrip_idem in X. }
  rewrite S1, endswith_app.
  replace (nonempty _) with true by (now destruct body).
  cbn [andb]. f_equal.
  change 3 with (length (py "```")). rewrite slice_to_minus_app.
  unfold body. rewrite strip_lstrip. now apply strip_app_blank.
Qed.

(** A text that carries no marker of its own goes to the decoder as it
    is. *)
Lemma clean_response_plain (r : pystr) :
  startswith (strip r) (py "```json") = false ->
  endswith (strip r) (py "```") = false ->
  clean_response (Some r) = Some r.
Proof.
  intros S E. unfold clean_response, strip_leading_fence.
  rewrite S, andb_false_r. unfold strip_trailing_fence.
  now rewrite E, andb_false_r.
Qed.

(** C7 (as amended).  For every response text [r] that has no leading
    [```json] and no trailing [```] of its own and that the decoder reads
    the same with or without the white space around it, [r] wrapped between
    a leading [```json] and a trailing [```] (white space around the
    markers) parses to the same pair as [r] unwrapped. *)
Theorem parse_response_fenced (r w1 w2 w3 w4 : pystr) :
  blank w1 -> blank w2 -> blank w3 -> blank w4 ->
  startswith (strip r) (py "```json") = false ->
  endswith (strip r) (py "```") = false ->
  json_loads (strip r) = json_loads r ->
  parse_response
    (Some (w1 ++ py "```json" ++ w2 ++ r ++ w3 ++ py "```" ++ w4))
  = parse_response (Some r).
Proof.
  intros B1 B2 B3 B4 S E J. unfold parse_response.
  rewrite clean_response_fenced by assumption.
  rewrite clean_response_plain by assumption.
  unfold json_loads_obj. now rewrite J.
Qed.

End Fences.

Section FenceExamples.

Import Anthropic Reference Examples.

Lemma parse_response_fenced_witness :
  parse_response
    (Some (py "```json" ++ newline ++ answer ++ newline ++ py "```"))
  = Ok (PStr (py "t"), PInt 1).
Proof.
  change (py "```json" ++ newline ++ answer ++ newline ++ py "```")
    with ([] ++ py "```json" ++ newline ++ answer ++ newline ++ py "```" ++ []).
  rewrite (@parse_response_fenced json answer [] newline newline []).
  - reflexivity.
  - reflexivity.
  - reflexivity.
  - reflexivity.
  - reflexivity.
  - reflexivity.
  - reflexivity.
  - reflexivity.
Defined.

(** C7 as stated fails.  Wrapped between plain code-fence markers the
    answer no longer parses (only a leading [```json] is removed); and a
    response that is fenced already stops parsing when it is wrapped once
    more. *)
Lemma fenced_response_parses_differently :
  parse_response (Some answer) = Ok (PStr (py "t"), PInt 1)
  /\ parse_response
       (Some (py "```" ++ newline ++ answer ++ newline ++ py "```"))
     = Raise JSONDecodeError
  /\ parse_response (Some (py "```json" ++ answer ++ py "```"))
     = Ok (PStr (py "t"), PInt 1)
  /\ parse_response
       (Some (py "```json" ++ newline
              ++ (py "```json" ++ answer ++ py "```")
              ++ newline ++ py "```"))
     = Raise JSONDecodeError.
Proof. vm_compute. repeat split. Qed.

End FenceExamples.

(* ================================================================= *)
(** ** Resuming an interrupted run ([run_utils.py]) *)

Section Resuming.

Import RunUtils.

Context {W : Type} `{ResetEndpoint W}.

Lemma completed_spec (i : pystr) (completed_attempts : list pystr) :
  completed i completed_attempts = true <-> In i completed_attempts.
Proof.
  unfold completed. rewrite existsb_exists. split.
  - intros (x & I & E). apply str_eqb_eq in E. now subst.
  - intros I. exists i. split; auto. apply str_eqb_refl.
Qed.

Lemma remaining_spec (all : list attempt) (completed_attempts : list pystr)
  (a : attempt) :
  In a (remaining all completed_attempts)
  <-> In a all
      /\ exists i, attempt_id a = Some i /\ ~ In i completed_attempts.
Proof.
  unfold remaining. rewrite filter_In. split.
  - intros (I & E). split; auto. destruct (attempt_id a) as [i|];
      [|discriminate].
    exists i. split; auto. rewrite <- completed_spec.
    now destruct (completed i completed_attempts).
  - intros (I & i & -> & N). split; auto.
    rewrite <- completed_spec in N.
    now destruct (completed i completed_attempts).
Qed.

Lemma id_eqb_spec (a b : option pystr) : id_eqb a b = true <-> a = b.
Proof.
  destruct a as [x|], b as [y|]; cbn [id_eqb];
    try (split; congruence).
  rewrite str_eqb_eq. split; congruence.
Qed.

(** What [reset_attempt] makes of the outcome of the request. *)
Lemma reset_attempt_eq (run_id attempt_id : pystr) (st : state W)
  (response : result pystr) (w : W) :
  post_reset run_id attempt_id (world st) = (response, w) ->
  reset_attempt run_id attempt_id st
  = (match response with
     | Ok text => Ok (str_in (py "success") (lower text))
     | Raise (SystemExit code) => Raise (SystemExit code)
     | Raise _ => Ok false
     end,
     mkState w (log st ++ [ResetCall run_id attempt_id])).
Proof. intros P. unfold reset_attempt. now rewrite P. Qed.

Lemma remaining_eq (all : list attempt) (completed_attempts : list pystr) :
  remaining all completed_attempts
  = filter (fun a =>
              match attempt_id a with
              | Some i =>
                  if in_dec (list_eq_dec N.eq_dec) i completed_attempts
                  then false else true
              | None => false
              end) all.
Proof.
  unfold remaining. apply filter_ext. intros a.
  destruct (attempt_id a) as [i|]; [|reflexivity].
  destruct (in_dec (list_eq_dec N.eq_dec) i completed_attempts) as [I|I].
  - apply completed_spec in I. now rewrite I.
  - destruct (completed i completed_attempts) eqn:E; [|reflexivity].
    apply completed_spec in E. contradiction.
Qed.

Lemma without_id_eq (aid : pystr) (l : list attempt) :
  filter (fun a => negb (id_eqb (attempt_id a) (Some aid))) l
  = filter (fun a =>
              match attempt_id a with
              | Some i => if list_eq_dec N.eq_dec i aid then false else true
              | None => true
              end) l.
Proof.
  apply filter_ext. intros a.
  destruct (attempt_id a) as [i|]; [|reflexivity].
  cbn [id_eqb]. destruct (list_eq_dec N.eq_dec i aid) as [->|N].
  - now rewrite str_eqb_refl.
  - apply str_eqb_neq in N. now rewrite N.
Qed.

(** C9 (as amended).  When an interrupted run is resumed, its snapshot
    lists attempts and the attempt in flight at the failure has a
    non-empty identifier: the rebuilt list holds, in the order of the
    snapshot, the attempts of [all_attempts] that have an identifier which
    is not among the completed attempts.  With [skip] the attempts with
    the identifier of the attempt in flight are removed from that list as
    well, and the oracle is not contacted.  With [retry] one reset request
    for the attempt in flight is sent; the list (attempt in flight
    included) is returned when the response reports success; a response
    that does not, or an exception of the request, ends the program with
    exit code 1; a [SystemExit] raised by the request itself passes
    through with its own code. *)
Theorem resume_rebuilds_attempts (mode : resume_mode) (run_id : pystr)
  (run : failed_run) (completed_attempts : list pystr) (st : state W)
  (in_flight : attempt) (aid : pystr) (response : result pystr) (w : W) :
  all_attempts (failure run) <> [] ->
  current_attempt (failure run) = Some in_flight ->
  attempt_id in_flight = Some aid ->
  aid <> [] ->
  post_reset run_id aid (world st) = (response, w) ->
  let rest :=
    filter (fun a =>
              match attempt_id a with
              | Some i =>
                  if in_dec (list_eq_dec N.eq_dec) i completed_attempts
                  then false else true
              | None => false
              end) (all_attempts (failure run)) in
  let others :=
    filter (fun a =>
              match attempt_id a with
              | Some i => if list_eq_dec N.eq_dec i aid then false else true
              | None => true
              end) rest in
  let reset := mkState w (log st ++ [ResetCall run_id aid]) in
  let resumed :=
    start_run_resume true (Some mode) run_id (Some run) completed_attempts
      st in
  (forall a,
      In a rest
      <-> In a (all_attempts (failure run))
          /\ exists i, attempt_id a = Some i /\ ~ In i completed_attempts)
  /\ match mode with
     | skip => resumed = (Ok (Resuming others), st)
     | retry =>
         (forall text,
             response = Ok text ->
             substring (py "success") (lower text) ->
             resumed = (Ok (Resuming rest), reset))
         /\ (forall text,
                response = Ok text ->
                ~ substring (py "success") (lower text) ->
                resumed = (Raise (SystemExit 1), reset))
         /\ (forall code,
                response = Raise (SystemExit code) ->
                resumed = (Raise (SystemExit code), reset))
         /\ (forall e,
                response = Raise e ->
                (forall code, e <> SystemExit code) ->
                resumed = (Raise (SystemExit 1), reset))
     end.
Proof.
  intros Ha Hc Hi Hn Hp rest others reset resumed.
  assert (R : rest = remaining (all_attempts (failure run))
                       completed_attempts)
    by (symmetry; apply remaining_eq).
  split; [intro a; rewrite R; apply remaining_spec|].
  destruct in_flight as [i f]. cbn [attempt_id] in Hi. subst i.
  destruct aid as [|c aid]; [contradiction|].
  destruct (all_attempts (failure run)) as [|a0 l] eqn:E; [contradiction|].
  destruct mode.
  - unfold resumed, others. rewrite <- without_id_eq, R.
    unfold start_run_resume. rewrite Hc, E. reflexivity.
  - assert (X : resumed
                = match reset_attempt run_id (c :: aid) st with
                  | (Ok true, st1) => (Ok (Resuming rest), st1)
                  | (Ok false, st1) => (Raise (SystemExit 1), st1)
                  | (Raise e, st1) => (Raise e, st1)
                  end).
    { unfold resumed, start_run_resume. rewrite Hc, E.
      cbn [attempt_truthy get_attempt_id attempt_id resume_mode_eqb andb
           id_truthy].
      unfold bind at 1. unfold bind at 1. rewrite R.
      destruct (reset_attempt run_id (c :: aid) st) as [[[|]|e] st1];
        reflexivity. }
    rewrite X, (reset_attempt_eq _ _ _ Hp). fold reset.
    split; [|split; [|split]].
    + intros text -> S. apply str_in_spec in S. now rewrite S.
    + intros text -> S. apply str_in_false in S. now rewrite S.
    + now intros code ->.
    + intros e -> N. destruct e; try reflexivity.
      exfalso. now apply (N code).
Qed.

(** Without a recorded attempt in flight nothing is reset and nothing is
    left out. *)
Lemma resume_without_current_attempt (mode : resume_mode) (run_id : pystr)
  (run : failed_run) (completed_attempts : list pystr) (st : state W) :
  all_attempts (failure run) <> [] ->
  current_attempt (failure run) = None ->
  start_run_resume true (Some mode) run_id (Some run) completed_attempts st
  = (Ok (Resuming (remaining (all_attempts (failure run)) completed_attempts)),
     st).
Proof.
  intros Ha Hc. unfold start_run_resume. rewrite Hc.
  destruct (all_attempts (failure run)) as [|a0 l] eqn:E; [contradiction|].
  destruct mode; reflexivity.
Qed.

End Resuming.

Section ResumingExamples.

Import RunUtils Reference Examples.

(** [Examples.interrupted]: attempts a1, a2, a3; a1 is completed, a2 was in
    flight.  [retry] sends the reset request for a2 and resumes with a2
    and a3; a refused reset exits with code 1; [skip] resumes with a3
    alone and sends nothing. *)
Lemma resume_rebuilds_attempts_witness :
  start_run_resume true (Some retry) (py "run") (Some interrupted)
    [py "a1"] (start reset_ok)
  = (Ok (Resuming [attempt_of "a2"; attempt_of "a3"]),
     mkState (Script [] [] tt []) [ResetCall (py "run") (py "a2")])
  /\ start_run_resume true (Some retry) (py "run") (Some interrupted)
       [py "a1"] (start reset_refused)
     = (Raise (SystemExit 1),
        mkState (Script [] [] tt []) [ResetCall (py "run") (py "a2")])
  /\ start_run_resume true (Some skip) (py "run") (Some interrupted)
       [py "a1"] (start reset_ok)
     = (Ok (Resuming [attempt_of "a3"]), start reset_ok).
Proof.
  assert (A : all_attempts (failure interrupted) <> []) by discriminate.
  assert (N : py "a2" <> []) by discriminate.
  assert (P1 : post_reset (py "run") (py "a2") (world (start reset_ok))
               = (Ok (q "{'status': 'Success'}"), Script [] [] tt []))
    by reflexivity.
  assert (P2 : post_reset (py "run") (py "a2") (world (start reset_refused))
               = (Ok (q "{'error': 'unknown attempt'}"),
                  Script [] [] tt []))
    by reflexivity.
  split; [|split].
  - destruct (@resume_rebuilds_attempts _ _ retry (py "run") interrupted
                [py "a1"] (start reset_ok) (attempt_of "a2") (py "a2")
                _ _ A eq_refl eq_refl N P1) as (_ & E & _).
    rewrite (E (q "{'status': 'Success'}") eq_refl).
    + reflexivity.
    + apply str_in_spec. reflexivity.
  - destruct (@resume_rebuilds_attempts _ _ retry (py "run") interrupted
                [py "a1"] (start reset_refused) (attempt_of "a2") (py "a2")
                _ _ A eq_refl eq_refl N P2) as (_ & _ & E & _).
    rewrite (E (q "{'error': 'unknown attempt'}") eq_refl).
    + reflexivity.
    + apply str_in_false. reflexivity.
  - destruct (@resume_rebuilds_attempts _ _ skip (py "run") interrupted
                [py "a1"] (start reset_ok) (attempt_of "a2") (py "a2")
                _ _ A eq_refl eq_refl N P1) as (_ & E).
    rewrite E. reflexivity.
Defined.

(** C9 as stated fails when the attempt in flight has an empty identifier:
    with [retry] the run is resumed with this attempt in the list although
    no reset request was sent (the oracle, which would have refused, is
    not contacted). *)
Lemma resume_retry_without_reset :
  let unnamed := Attempt (Some []) [(py "fn-args", PList int_int)] in
  let run :=
    FailedRun (FailureInfo (Some unnamed) [unnamed; attempt_of "a3"])
      (PStr (py "1.0")) [] in
  start_run_resume true (Some retry) (py "run") (Some run) [py "a1"]
    (start reset_refused)
  = (Ok (Resuming [unnamed; attempt_of "a3"]), start reset_refused).
Proof. reflexivity. Qed.

End ResumingExamples.

(* ################################################################# *)
(** * Further properties of the code *)

(* ================================================================= *)
(** ** [normalize_args] and the order of the keys *)

Lemma dict_get_some_in {V} (d : dict V) (k : pystr) (v : V) :
  dict_get d k = Some v -> In (k, v) d.
Proof.
  induction d as [|[k' v'] t IH]; cbn [dict_get]; [discriminate|].
  destruct (str_eqb k k') eqn:E.
  - apply str_eqb_eq in E. intros X. inversion X. subst. now left.
  - intros X. right. now apply IH.
Qed.

Lemma dict_get_none {V} (d : dict V) (k : pystr) :
  dict_get d k = None <-> ~ In k (dict_keys d).
Proof.
  induction d as [|[k' v'] t IH]; cbn [dict_get dict_keys map fst In].
  - tauto.
  - destruct (str_eqb k k') eqn:E.
    + apply str_eqb_eq in E. subst. split; [discriminate|tauto].
    + apply str_eqb_neq in E. fold (dict_keys t). rewrite IH.
      split; [intros X [Y|Y]; congruence | tauto].
Qed.

Lemma dict_get_perm {V} (d d' : dict V) (k : pystr) :
  NoDup (dict_keys d) -> Permutation d d' -> dict_get d k = dict_get d' k.
Proof.
  intros N P.
  assert (K : Permutation (dict_keys d) (dict_keys d'))
    by (apply Permutation_map, P).
  destruct (dict_get d k) as [v|] eqn:E.
  - symmetry. apply dict_get_in.
    + apply (Permutation_NoDup K N).
    + apply (Permutation_in _ P). now apply dict_get_some_in.
  - symmetry. apply dict_get_none. apply dict_get_none in E.
    intros X. apply E. apply (Permutation_in _ (Permutation_sym K) X).
Qed.

Lemma mapM_ext {A B} (f g : A -> result B) (l : list A) :
  (forall x, In x l -> f x = g x) -> mapM f l = mapM g l.
Proof.
  induction l as [|x t IH]; intros E; cbn [mapM]; [reflexivity|].
  rewrite (E x) by now left. rewrite IH; [reflexivity|].
  intros y Hy. apply E. now right.
Qed.

Lemma mapM_getitem_length {V} (d : dict V) (ks : list pystr) :
  incl ks (dict_keys d) ->
  exists vs, mapM (dict_getitem d) ks = Ok vs /\ length vs = length ks.
Proof.
  induction ks as [|k ks IH]; intros I; cbn [mapM].
  - now exists [].
  - destruct IH as (vs & E & L); [intros x Hx; apply I; now right|].
    unfold dict_getitem at 1.
    destruct (dict_get d k) as [v|] eqn:G.
    + exists (v :: vs). cbn [rbind]. rewrite E. cbn [rbind length].
      split; [reflexivity | now rewrite L].
    + exfalso. apply dict_get_none in G. apply G, I. now left.
Qed.

(** X1.  [normalize_args] depends on the entries of the mapping only, not
    on the order in which the model wrote them: two mappings with the same
    entries (keys unique, as in any dict) give the same positional vector.
    The call never raises and returns one value per key. *)
Theorem normalize_args_order_independent {V} (d d' : dict V) :
  NoDup (dict_keys d) -> Permutation d d' ->
  normalize_args d = normalize_args d'
  /\ exists vs, normalize_args d = Ok vs /\ length vs = length d.
Proof.
  intros N P.
  assert (K : Permutation (dict_keys d) (dict_keys d'))
    by (apply Permutation_map, P).
  split.
  - unfold normalize_args.
    replace (sorted (dict_keys d')) with (sorted (dict_keys d)).
    + apply mapM_ext. intros k _. unfold dict_getitem.
      now rewrite (dict_get_perm k N P).
    + apply sorted_unique; try apply sorted_sorted.
      rewrite <- (sorted_perm (dict_keys d)), <- (sorted_perm (dict_keys d')).
      exact K.
  - unfold normalize_args.
    destruct (@mapM_getitem_length _ d (sorted (dict_keys d))) as (vs & E & L).
    + intros k Hk.
      apply (Permutation_in _ (Permutation_sym (sorted_perm _)) Hk).
    + exists vs. split; [exact E|].
      rewrite L, <- (Permutation_length (sorted_perm (dict_keys d))).
      unfold dict_keys. apply length_map.
Qed.

(** The model writes [{"b": 3, "a": 5}] or [{"a": 5, "b": 3}]: the oracle
    receives the same two values. *)
Lemma normalize_args_order_independent_witness :
  normalize_args [(py "b", 3%Z); (py "a", 5%Z)]
  = normalize_args [(py "a", 5%Z); (py "b", 3%Z)].
Proof.
  refine (proj1 (@normalize_args_order_independent _
                   [(py "b", 3%Z); (py "a", 5%Z)]
                   [(py "a", 5%Z); (py "b", 3%Z)] _ _)).
  - repeat constructor; cbn; intuition discriminate.
  - apply perm_swap.
Defined.

(* ================================================================= *)
(** ** [parse_completion] *)

Section ParseCompletion.

Import Anthropic.

Lemma first_thinking_app (a b : list content_block) :
  first_thinking (a ++ b)
  = match first_thinking a with
    | Some t => Some t
    | None => first_thinking b
    end.
Proof. induction a as [|[] a IH]; cbn; auto. Qed.

Lemma first_redacted_app (a b : list content_block) :
  first_redacted (a ++ b)
  = match first_redacted a with
    | Some t => Some t
    | None => first_redacted b
    end.
Proof. induction a as [|[] a IH]; cbn; auto. Qed.

Lemma first_text_app (a b : list content_block) :
  first_text (a ++ b)
  = match first_text a with
    | Some t => Some t
    | None => first_text b
    end.
Proof. induction a as [|[] a IH]; cbn; auto. Qed.

Lemma tool_uses_app (a b : list content_block) :
  tool_uses (a ++ b) = tool_uses a ++ tool_uses b.
Proof. induction a as [|[] a IH]; cbn; auto. now rewrite IH. Qed.

(** X2.  A block of a kind [parse_completion] does not know is dropped
    wherever it stands in the completion: the four results are those of
    the completion without it. *)
Theorem parse_completion_ignores_unknown_block (a b : list content_block) :
  parse_completion (a ++ OtherBlock :: b) = parse_completion (a ++ b).
Proof.
  unfold parse_completion.
  now rewrite !first_thinking_app, !first_redacted_app, !first_text_app,
    !tool_uses_app.
Qed.

Lemma first_text_none (content : list content_block) :
  (forall t, ~ In (TextBlock t) content) -> first_text content = None.
Proof.
  induction content as [|x rest IH]; intros N; [reflexivity|].
  destruct x; cbn [first_text];
    try (apply IH; intros t I; apply (N t); now right).
  exfalso. apply (N text). now left.
Qed.

Lemma tool_uses_filter (content : list content_block) :
  map ToolUseBlock (tool_uses content)
  = filter (fun block => match block with
                         | ToolUseBlock _ => true
                         | _ => false
                         end) content.
Proof.
  induction content as [|x rest IH]; [reflexivity|].
  destruct x; cbn [tool_uses filter map]; now rewrite ?IH.
Qed.

(** X3.  The text [parse_completion] returns is that of the first text
    block of the completion, whatever follows it, and [None] when the
    completion has no text block; the tool invocations it returns are all
    the tool-use blocks of the completion, in their order. *)
Theorem parse_completion_first_text_all_tool_uses
  (content : list content_block) :
  let '(_, _, text, tool) := parse_completion content in
  (forall a t b,
      content = a ++ TextBlock t :: b ->
      (forall t', ~ In (TextBlock t') a) ->
      text = Some t)
  /\ ((forall t, ~ In (TextBlock t) content) -> text = None)
  /\ map ToolUseBlock tool
     = filter (fun block => match block with
                            | ToolUseBlock _ => true
                            | _ => false
                            end) content.
Proof.
  unfold parse_completion. split; [|split].
  - intros a t b -> N. rewrite first_text_app, (first_text_none a N).
    reflexivity.
  - apply first_text_none.
  - apply tool_uses_filter.
Qed.

(** Two text blocks and two invocations around them: the first text, both
    invocations. *)
Lemma parse_completion_first_text_all_tool_uses_witness :
  let call1 := ToolUse (py "toolu_1") (py "mystery_function") [] in
  let call2 := ToolUse (py "toolu_2") (py "mystery_function") [] in
  parse_completion
    [ToolUseBlock call1; TextBlock (py "first"); OtherBlock;
     TextBlock (py "second"); ToolUseBlock call2]
  = (None, None, Some (py "first"), [call1; call2]).
Proof.
  intros call1 call2.
  pose proof (parse_completion_first_text_all_tool_uses
                [ToolUseBlock call1; TextBlock (py "first"); OtherBlock;
                 TextBlock (py "second"); ToolUseBlock call2]) as P.
  destruct (parse_completion _) as [[[thinking redacted] text] tool] eqn:E.
  destruct P as (T & _ & U).
  rewrite (T [ToolUseBlock call1] (py "first")
             [OtherBlock; TextBlock (py "second"); ToolUseBlock call2]
             eq_refl).
  - injection E as <- <- _ <-. reflexivity.
  - intros t' [I|[]]. discriminate.
Defined.

End ParseCompletion.

(* ================================================================= *)
(** ** What an investigation leaves behind *)

Lemma calls_to_app (endpoint : pystr) (l1 l2 : list event) :
  calls_to endpoint (l1 ++ l2) = calls_to endpoint l1 + calls_to endpoint l2.
Proof.
  unfold calls_to, oracle_calls.
  now rewrite flat_map_app, filter_app, length_app.
Qed.

Section InvestigationInvariants.

Import Anthropic.

Context {W : Type} `{Oracle W} `{Provider W} `{Json}.

Lemma investigate_loop_model_calls (n : nat) (tools : list tool)
  (attempt_id : pyval) :
  forall messages counter st r st',
    investigate_loop n tools attempt_id messages counter st = (r, st') ->
    model_calls (log st') <= model_calls (log st) + n.
Proof.
  induction n as [|n IH]; intros messages counter st r st' E.
  - inversion E. lia.
  - rewrite investigate_loop_S, complete_eq in E. cbv zeta in E.
    set (st1 := mkState _ _) in E.
    assert (M : model_calls (log st1) = model_calls (log st) + 1)
      by (unfold st1; cbn [log]; now rewrite model_calls_app).
    destruct (tool_uses _) as [|c cs].
    + inversion E; subst. lia.
    + destruct (handle_tool_calls attempt_id (c :: cs) [] counter st1)
        as [[[content counter']|e] st2] eqn:Hh;
        apply handle_tool_calls_model_calls in Hh.
      * apply IH in E. lia.
      * inversion E; subst. lia.
Qed.

(** X4.  Whatever the model and the oracle answer and however the
    investigation ends (a result or any exception), it has asked the model
    at most [msg_limit] times. *)
Theorem investigate_model_calls_bounded (cfg : config)
  (messages : list message) (attempt_id : pyval) (arg_spec : list pyval)
  (st : state W) :
  model_calls (log (snd (investigate cfg messages attempt_id arg_spec st)))
  <= model_calls (log st) + Z.to_nat (msg_limit cfg).
Proof.
  unfold investigate, bind, lift.
  destruct (list_to_map arg_spec) as [mapped|e]; cbn [snd]; [|lia].
  destruct (investigate_loop _ _ _ _ _ st) as [r st'] eqn:E.
  apply investigate_loop_model_calls in E. exact E.
Qed.

Lemma handle_tool_calls_inv (attempt_id : pyval) (calls : list tool_use) :
  forall acc counter st content counter' st',
    handle_tool_calls attempt_id calls acc counter st
    = (Ok (content, counter'), st') ->
    counter' = (counter + Z.of_nat (length calls))%Z
    /\ log st' = log st ++ map (test_function_call attempt_id) calls
    /\ exists results,
         content = acc ++ results
         /\ tool_result_ids results = map tool_id calls
         /\ length results = length calls.
Proof.
  induction calls as [|call rest IH];
    intros acc counter st content counter' st' E.
  - inversion E; subst. cbn [length map]. rewrite app_nil_r, Z.add_0_r.
    repeat split. exists []. now rewrite app_nil_r.
  - cbn [handle_tool_calls] in E. unfold bind in E.
    rewrite handle_tool_call_eq in E.
    destruct (postfn _ _ (world st)) as [reply w1].
    cbv zeta in E. destruct (is_mapping reply); [|discriminate].
    apply IH in E. destruct E as (Ec & El & results & Er & Ei & En).
    cbn [log] in El. repeat split.
    + rewrite Ec. cbn [length]. lia.
    + rewrite El, <- app_assoc. reflexivity.
    + exists (tool_result call reply :: results).
      rewrite Er, <- app_assoc. repeat split.
      * change (tool_result_ids (tool_result call reply :: results))
          with (tool_id call :: tool_result_ids results).
        now rewrite Ei.
      * cbn [length]. now rewrite En.
Qed.

Lemma tool_use_ids_app (a b : list item) :
  tool_use_ids (a ++ b) = tool_use_ids a ++ tool_use_ids b.
Proof. unfold tool_use_ids. apply flat_map_app. Qed.

Lemma tool_use_ids_content_blocks (thinking : option (pystr * pystr))
  (redacted message : option pystr) :
  tool_use_ids (content_blocks thinking redacted message) = [].
Proof. now destruct thinking as [[]|], redacted, message. Qed.

Lemma tool_use_ids_calls (calls : list tool_use) :
  tool_use_ids (map ToolUseItem calls) = map tool_id calls.
Proof. induction calls as [|c t IH]; cbn; [|rewrite <- IH]; reflexivity. Qed.

Lemma tool_results_app (a b : list message) :
  tool_results (a ++ b) = tool_results a + tool_results b.
Proof. unfold tool_results. now rewrite flat_map_app, length_app. Qed.

Lemma calls_to_test_function (attempt_id : pyval) (calls : list tool_use) :
  calls_to (py "test-function") (map (test_function_call attempt_id) calls)
  = length calls.
Proof.
  induction calls as [|c t IH]; [reflexivity|].
  change (map (test_function_call attempt_id) (c :: t))
    with ([test_function_call attempt_id c]
          ++ map (test_function_call attempt_id) t).
  rewrite calls_to_app, IH. unfold calls_to, test_function_call.
  cbn [oracle_calls flat_map app filter fst].
  rewrite str_eqb_refl. reflexivity.
Qed.

Lemma tool_result_ids_content_blocks (thinking : option (pystr * pystr))
  (redacted message : option pystr) :
  tool_result_ids (content_blocks thinking redacted message) = [].
Proof. now destruct thinking as [[]|], redacted, message. Qed.

Lemma tool_result_ids_calls (calls : list tool_use) :
  tool_result_ids (map ToolUseItem calls) = [].
Proof. induction calls as [|c t IH]; cbn; auto. Qed.

Lemma tool_results_assistant (thinking : option (pystr * pystr))
  (redacted message : option pystr) (calls : list tool_use) :
  tool_results
    [Message assistant
       (content_blocks thinking redacted message ++ map ToolUseItem calls)]
  = 0.
Proof.
  unfold tool_results. cbn [flat_map]. rewrite app_nil_r.
  unfold tool_result_ids at 1. rewrite flat_map_app.
  fold (tool_result_ids (content_blocks thinking redacted message)).
  fold (tool_result_ids (map ToolUseItem calls)).
  now rewrite tool_result_ids_content_blocks, tool_result_ids_calls.
Qed.

Lemma investigate_loop_exchanges (n : nat) (tools : list tool)
  (attempt_id : pyval) :
  forall messages counter st messages' counter' st',
    investigate_loop n tools attempt_id messages counter st
    = (Ok (messages', counter'), st') ->
    exists appended,
      messages' = messages ++ appended
      /\ exchanges appended
      /\ counter' = (counter + Z.of_nat (tool_results appended))%Z
      /\ calls_to (py "test-function") (log st')
         = calls_to (py "test-function") (log st) + tool_results appended.
Proof.
  induction n as [|n IH]; intros messages counter st messages' counter' st' E.
  - discriminate.
  - rewrite investigate_loop_S, complete_eq in E. cbv zeta in E.
    set (st1 := mkState _ _) in E.
    assert (M : calls_to (py "test-function") (log st1)
                = calls_to (py "test-function") (log st)).
    { unfold st1. cbn [log]. rewrite calls_to_app.
      change (calls_to (py "test-function") [ModelCall]) with 0. lia. }
    set (completion := fst _) in E.
    set (blocks := content_blocks _ _ _) in E.
    destruct (tool_uses completion) as [|c cs] eqn:T.
    + inversion E; subst. exists [Message assistant blocks].
      assert (A : tool_results [Message assistant blocks] = 0).
      { pose proof (tool_results_assistant (first_thinking completion)
                      (first_redacted completion) (first_text completion) [])
          as A.
        cbn [map] in A. now rewrite app_nil_r in A. }
      rewrite A. repeat split.
      * constructor. apply tool_use_ids_content_blocks.
      * lia.
      * lia.
    + destruct (handle_tool_calls attempt_id (c :: cs) [] counter st1)
        as [[[content counter1]|e] st2] eqn:Hh; [|discriminate].
      apply handle_tool_calls_inv in Hh.
      destruct Hh as (Ec & El & results & Er & Ei & En).
      cbn [app] in Er. subst content.
      apply IH in E.
      destruct E as (appended & Em & Ex & Ecn & Ecl).
      exists ([Message assistant (blocks ++ map ToolUseItem (c :: cs))]
              ++ [Message user results] ++ appended).
      assert (I : tool_use_ids (blocks ++ map ToolUseItem (c :: cs))
                  = map tool_id (c :: cs)).
      { unfold blocks.
        now rewrite tool_use_ids_app, tool_use_ids_content_blocks,
          tool_use_ids_calls. }
      assert (B : tool_results [Message user results] = length (c :: cs)).
      { unfold tool_results. cbn [flat_map]. rewrite app_nil_r.
        now rewrite Ei, length_map. }
      rewrite !tool_results_app, B. unfold blocks at 3 4.
      rewrite tool_results_assistant.
      split; [|split; [|split]].
      * rewrite Em, <- !app_assoc. reflexivity.
      * cbn [app]. constructor; auto.
        -- rewrite I. discriminate.
        -- now rewrite I.
        -- now rewrite I, length_map.
      * rewrite Ecn, Ec. lia.
      * rewrite Ecl, El, calls_to_app, calls_to_test_function, M. lia.
Qed.

Lemma exchanges_last (appended : list message) :
  exchanges appended ->
  exists before blocks,
    appended = before ++ [Message assistant blocks]
    /\ tool_use_ids blocks = [].
Proof.
  induction 1 as [blocks E|blocks results rest _ _ _ _ IH].
  - now exists [], blocks.
  - destruct IH as (before & final & -> & E).
    now exists (Message assistant blocks :: Message user results :: before),
      final.
Qed.

(** X5.  A successful investigation only appends to the transcript it was
    given.  What it appends is a sequence of exchanges (an assistant
    message with tool invocations, then a user message holding one result
    per invocation, with the invocations' identifiers in their order),
    closed by an assistant message without invocation.  The counter it
    returns is the number of tool results appended and the number of
    [test-function] requests sent to the oracle. *)
Theorem investigate_appends_exchanges (cfg : config)
  (messages messages' : list message) (attempt_id : pyval)
  (arg_spec : list pyval) (tool_call_counter : Z) (st st' : state W) :
  investigate cfg messages attempt_id arg_spec st
  = (Ok (messages', tool_call_counter), st') ->
  exists appended,
    messages' = messages ++ appended
    /\ exchanges appended
    /\ tool_call_counter = Z.of_nat (tool_results appended)
    /\ calls_to (py "test-function") (log st')
       = calls_to (py "test-function") (log st) + tool_results appended.
Proof.
  unfold investigate, bind, lift.
  destruct (list_to_map arg_spec) as [mapped|e]; [|discriminate].
  intros E. apply investigate_loop_exchanges in E.
  destruct E as (appended & Em & Ex & Ec & El).
  exists appended. repeat split; auto.
Qed.

(** X6.  The transcript of a successful investigation is never empty: it
    ends with an assistant message that holds no tool invocation, which is
    the message [verify] takes as [messages[-1]]. *)
Theorem investigate_ends_with_assistant_message (cfg : config)
  (messages messages' : list message) (attempt_id : pyval)
  (arg_spec : list pyval) (tool_call_counter : Z) (st st' : state W) :
  investigate cfg messages attempt_id arg_spec st
  = (Ok (messages', tool_call_counter), st') ->
  exists blocks,
    last_message messages' = Ok (Message assistant blocks)
    /\ tool_use_ids blocks = [].
Proof.
  unfold investigate, bind, lift.
  destruct (list_to_map arg_spec) as [mapped|e]; [|discriminate].
  intros E. apply investigate_loop_exchanges in E.
  destruct E as (appended & Em & Ex & _).
  apply exchanges_last in Ex. destruct Ex as (before & blocks & -> & Eb).
  exists blocks. split; [|exact Eb].
  unfold last_message. rewrite Em, app_assoc, rev_app_distr. reflexivity.
Qed.

(** X7.  An argument specification with more than 1114015 types makes
    [investigate] raise [ValueError] before the model or the oracle is
    contacted. *)
Theorem investigate_rejects_long_arg_spec (cfg : config)
  (messages : list message) (attempt_id : pyval) (arg_spec : list pyval)
  (st : state W) :
  (1114015 < N.of_nat (length arg_spec))%N ->
  investigate cfg messages attempt_id arg_spec st = (Raise ValueError, st).
Proof.
  intros L. unfold investigate, bind, lift.
  now rewrite (list_to_map_too_long arg_spec L).
Qed.

(** X8.  At the first reply to a [test-function] request of a turn that is
    not a JSON object, the turn raises [AttributeError]: the requests
    before it and this one have been sent, the invocations after it are
    never sent. *)
Theorem handle_tool_calls_non_mapping_reply (attempt_id : pyval)
  (before : list tool_use) (call : tool_use) (rest : list tool_use) :
  forall content counter st replies w1 reply w2,
    test_function_replies attempt_id before (world st) = (replies, w1) ->
    forallb is_mapping replies = true ->
    postfn (py "test-function")
      (test_function_payload attempt_id
         (positional_args PNone (tool_input call))) w1 = (reply, w2) ->
    is_mapping reply = false ->
    handle_tool_calls attempt_id (before ++ call :: rest) content counter st
    = (Raise AttributeError,
       mkState w2
         (log st ++ map (test_function_call attempt_id) (before ++ [call]))).
Proof.
  induction before as [|b before IH];
    intros content counter st replies w1 reply w2 R M P N.
  - cbn in R. inversion R; subst.
    cbn [app handle_tool_calls map]. unfold bind.
    rewrite handle_tool_call_eq, P. cbv zeta. now rewrite N.
  - cbn [test_function_replies] in R.
    cbn [app handle_tool_calls]. unfold bind. rewrite handle_tool_call_eq.
    destruct (postfn _ _ (world st)) as [r0 w0].
    destruct (test_function_replies attempt_id before w0) as [rs w3] eqn:R'.
    inversion R; subst. cbn [forallb] in M.
    apply andb_true_iff in M as [M1 M2]. cbv zeta. rewrite M1.
    rewrite (IH _ _ _ rs w1 reply w2); auto.
    cbn [log map app]. now rewrite <- app_assoc.
Qed.

End InvestigationInvariants.

(* ================================================================= *)
(** ** The Verification Loop: requests per case *)

Section VerificationBudget.

Import Anthropic.

Context {W : Type} `{Oracle W} `{Provider W} `{Json}.

Lemma ask_prediction_oracle_calls (n : nat) (vmessages : list message) :
  forall st r st',
    ask_prediction n vmessages st = (r, st') ->
    oracle_calls (log st') = oracle_calls (log st).
Proof.
  induction n as [|n IH]; intros st r st' E.
  - now inversion E.
  - cbn [ask_prediction] in E. unfold bind in E.
    rewrite complete_eq in E.
    set (st1 := mkState _ _) in E.
    assert (M : oracle_calls (log st1) = oracle_calls (log st)).
    { unfold st1. cbn [log]. rewrite oracle_calls_app. cbn.
      now rewrite app_nil_r. }
    destruct (parse_response _) as [te|e].
    + inversion E; subst. exact M.
    + destruct e; try (inversion E; subst; exact M).
      apply IH in E. congruence.
Qed.

Lemma calls_to_one (endpoint called : pystr) (payload : pyval) :
  calls_to endpoint [OracleCall called payload]
  = if str_eqb called endpoint then 1 else 0.
Proof.
  unfold calls_to. cbn [oracle_calls flat_map app filter fst].
  now destruct (str_eqb called endpoint).
Qed.

Lemma calls_to_oracle_calls (endpoint : pystr) (l l' : list event) :
  oracle_calls l' = oracle_calls l -> calls_to endpoint l' = calls_to endpoint l.
Proof. unfold calls_to. now intros ->. Qed.

Lemma verification_case_budget (messages : list message)
  (attempt_id : pyval) (st : state W) (r : result (option pyval))
  (st' : state W) :
  verification_case messages attempt_id st = (r, st') ->
  model_calls (log st') <= model_calls (log st) + 3
  /\ calls_to (py "next-verification") (log st')
     = calls_to (py "next-verification") (log st) + 1
  /\ calls_to (py "attempt-verification") (log st')
     <= calls_to (py "attempt-verification") (log st) + 1
  /\ calls_to (py "test-function") (log st')
     = calls_to (py "test-function") (log st).
Proof.
  unfold verification_case. unfold bind at 1. rewrite post_eq.
  set (st1 := mkState _ _).
  assert (M1 : model_calls (log st1) = model_calls (log st)).
  { unfold st1. cbn [log]. rewrite model_calls_app. cbn. lia. }
  assert (C1 : forall endpoint,
             calls_to endpoint (log st1)
             = calls_to endpoint (log st)
               + if str_eqb (py "next-verification") endpoint then 1 else 0).
  { intros endpoint. unfold st1. cbn [log].
    now rewrite calls_to_app, calls_to_one. }
  pose proof (C1 (py "next-verification")) as N1.
  pose proof (C1 (py "attempt-verification")) as A1.
  pose proof (C1 (py "test-function")) as T1.
  change (str_eqb (py "next-verification") (py "next-verification"))
    with true in N1.
  change (str_eqb (py "next-verification") (py "attempt-verification"))
    with false in A1.
  change (str_eqb (py "next-verification") (py "test-function"))
    with false in T1.
  cbv iota in N1, A1, T1. clear C1.
  destruct (truthy _); [|intros E; inversion E; subst; lia].
  unfold bind at 1. unfold lift at 1.
  destruct (py_getitem _ (py "next-verification")) as [verification|e];
    [|intros E; inversion E; subst; lia].
  unfold bind at 1. unfold lift at 1.
  destruct (py_getitem _ (py "output-type")) as [output_type|e];
    [|intros E; inversion E; subst; lia].
  unfold bind at 1. unfold lift at 1.
  destruct (last_message messages) as [last|e];
    [|intros E; inversion E; subst; lia].
  unfold bind at 1.
  destruct (ask_prediction 3 _ st1) as [[[thoughts expected]|e] st2] eqn:A;
    pose proof (ask_prediction_at_most _ _ _ A) as M2;
    pose proof (ask_prediction_oracle_calls _ _ _ A) as C2;
    pose proof (calls_to_oracle_calls (py "next-verification") _ _ C2) as N2;
    pose proof (calls_to_oracle_calls (py "attempt-verification") _ _ C2)
      as A2;
    pose proof (calls_to_oracle_calls (py "test-function") _ _ C2) as T2;
    [|intros E; inversion E; subst; lia].
  unfold bind at 1. rewrite post_eq.
  set (st3 := mkState _ _).
  assert (M3 : model_calls (log st3) = model_calls (log st2)).
  { unfold st3. cbn [log]. rewrite model_calls_app. cbn. lia. }
  assert (C3 : forall endpoint,
             calls_to endpoint (log st3)
             = calls_to endpoint (log st2)
               + if str_eqb (py "attempt-verification") endpoint
                 then 1 else 0).
  { intros endpoint. unfold st3. cbn [log].
    now rewrite calls_to_app, calls_to_one. }
  pose proof (C3 (py "next-verification")) as N3.
  pose proof (C3 (py "attempt-verification")) as A3.
  pose proof (C3 (py "test-function")) as T3.
  change (str_eqb (py "attempt-verification") (py "next-verification"))
    with false in N3.
  change (str_eqb (py "attempt-verification") (py "attempt-verification"))
    with true in A3.
  change (str_eqb (py "attempt-verification") (py "test-function"))
    with false in T3.
  cbv iota in N3, A3, T3. clear C3.
  unfold bind, lift, ret.
  destruct (py_getitem _ (py "status"));
    intros E; inversion E; subst; lia.
Qed.

Lemma verify_loop_budget (fuel : nat) (messages : list message)
  (attempt_id : pyval) :
  forall st r st',
    verify fuel messages attempt_id st = (r, st') ->
    exists cases,
      cases <= fuel
      /\ calls_to (py "next-verification") (log st')
         = calls_to (py "next-verification") (log st) + cases
      /\ calls_to (py "attempt-verification") (log st')
         <= calls_to (py "attempt-verification") (log st) + cases
      /\ model_calls (log st') <= model_calls (log st) + 3 * cases
      /\ calls_to (py "test-function") (log st')
         = calls_to (py "test-function") (log st).
Proof.
  induction fuel as [|fuel IH]; intros st r st' E.
  - inversion E; subst. exists 0. lia.
  - rewrite anthropic_verify_S in E. unfold dispatch in E.
    destruct (verification_case messages attempt_id st) as [c st1] eqn:V.
    apply verification_case_budget in V. destruct V as (M & N & A & T).
    destruct c as [[vstatus|]|e];
      try (inversion E; subst; exists 1; lia).
    destruct (verdict vstatus) as [[| |]|e];
      try (inversion E; subst; exists 1; lia).
    apply IH in E. destruct E as (cases & L & En & Ea & Em & Et).
    exists (S cases). lia.
Qed.

Lemma ask_prediction_log (n : nat) (vmessages : list message) :
  forall st r st',
    ask_prediction n vmessages st = (r, st') ->
    exists k, k <= n /\ log st' = log st ++ repeat ModelCall k.
Proof.
  induction n as [|n IH]; intros st r st' E.
  - inversion E; subst. exists 0. split; [lia|]. cbn. now rewrite app_nil_r.
  - cbn [ask_prediction] in E. unfold bind in E.
    rewrite complete_eq in E.
    set (st1 := mkState _ _) in E.
    assert (one : exists k, k <= S n
                            /\ log st1 = log st ++ repeat ModelCall k)
      by (exists 1; split; [lia | reflexivity]).
    destruct (parse_response _) as [te|e].
    + inversion E; subst. exact one.
    + destruct e; try (inversion E; subst; exact one).
      apply IH in E. destruct E as (k & K & L).
      exists (S k). split; [lia|]. rewrite L. unfold st1. cbn [log repeat].
      now rewrite <- app_assoc.
Qed.

Lemma verification_case_requests (messages : list message)
  (attempt_id : pyval) (st : state W) (r : result (option pyval))
  (st' : state W) :
  verification_case messages attempt_id st = (r, st') ->
  exists requests,
    case_requests attempt_id requests /\ log st' = log st ++ requests.
Proof.
  unfold verification_case. unfold bind at 1. rewrite post_eq.
  set (st1 := mkState _ _).
  assert (early : exists requests,
                    case_requests attempt_id requests
                    /\ log st1 = log st ++ requests).
  { eexists. split; [|reflexivity]. exists 0, []. repeat split; cbn; lia. }
  destruct (truthy _); [|intros E; inversion E; subst; exact early].
  unfold bind at 1. unfold lift at 1.
  destruct (py_getitem _ (py "next-verification")) as [verification|e];
    [|intros E; inversion E; subst; exact early].
  unfold bind at 1. unfold lift at 1.
  destruct (py_getitem _ (py "output-type")) as [output_type|e];
    [|intros E; inversion E; subst; exact early].
  unfold bind at 1. unfold lift at 1.
  destruct (last_message messages) as [last|e];
    [|intros E; inversion E; subst; exact early].
  clear early. unfold bind at 1.
  destruct (ask_prediction 3 _ st1) as [[[thoughts expected]|e] st2] eqn:A;
    apply ask_prediction_log in A; destruct A as (k & K & L).
  - unfold bind at 1. rewrite post_eq.
    set (st3 := mkState _ _).
    assert (done : exists requests,
                     case_requests attempt_id requests
                     /\ log st3 = log st ++ requests).
    { eexists. split.
      - exists k, [expected]. split; [exact K|]. split; [cbn; lia|].
        reflexivity.
      - unfold st3. cbn [log]. rewrite L. unfold st1. cbn [log map].
        rewrite <- !app_assoc. reflexivity. }
    unfold bind, lift, ret.
    destruct (py_getitem _ (py "status"));
      intros E; inversion E; subst; exact done.
  - intros E. inversion E; subst. eexists. split.
    + exists k, []. split; [exact K|]. split; [cbn; lia|]. reflexivity.
    + rewrite L. unfold st1. cbn [log map].
      rewrite <- !app_assoc, app_nil_r. reflexivity.
Qed.

Lemma verify_loop_requests (fuel : nat) (messages : list message)
  (attempt_id : pyval) :
  forall st r st',
    verify fuel messages attempt_id st = (r, st') ->
    exists cases,
      length cases <= fuel
      /\ Forall (case_requests attempt_id) cases
      /\ log st' = log st ++ concat cases.
Proof.
  induction fuel as [|fuel IH]; intros st r st' E.
  - inversion E; subst. exists []. cbn. now rewrite app_nil_r.
  - rewrite anthropic_verify_S in E. unfold dispatch in E.
    destruct (verification_case messages attempt_id st) as [c st1] eqn:V.
    apply verification_case_requests in V.
    destruct V as (requests & C & L).
    assert (one : exists cases,
                    length cases <= S fuel
                    /\ Forall (case_requests attempt_id) cases
                    /\ log st1 = log st ++ concat cases).
    { exists [requests]. cbn [length concat]. rewrite app_nil_r.
      repeat split; [lia | now constructor | exact L]. }
    destruct c as [[vstatus|]|e]; try (inversion E; subst; exact one).
    destruct (verdict vstatus) as [[| |]|e];
      try (inversion E; subst; exact one).
    apply IH in E. destruct E as (cases & K & F & L').
    exists (requests :: cases). cbn [length concat].
    split; [lia|]. split; [now constructor|].
    rewrite L', L. now rewrite <- app_assoc.
Qed.

(** X9.  However a verification ends (with a result, with an exception, or
    with cases left when the fuel is used up), what it has sent is a
    sequence of cases, and each case is: the request for the case
    ([next-verification]), then at most three model calls, then at most
    one prediction ([attempt-verification]). *)
Theorem verify_asks_at_most_thrice_per_case (fuel : nat)
  (messages : list message) (attempt_id : pyval) (st : state W) :
  let st' := snd (verify fuel messages attempt_id st) in
  exists cases,
    length cases <= fuel
    /\ Forall (case_requests attempt_id) cases
    /\ log st' = log st ++ concat cases.
Proof.
  intros st'.
  destruct (verify fuel messages attempt_id st) as [r st1] eqn:E.
  now apply verify_loop_requests in E.
Qed.

(** X10.  The Anthropic [verify] never tests the mystery function: it
    sends no [test-function] request, however it ends. *)
Theorem verify_never_tests (fuel : nat) (messages : list message)
  (attempt_id : pyval) (st : state W) :
  calls_to (py "test-function")
    (log (snd (verify fuel messages attempt_id st)))
  = calls_to (py "test-function") (log st).
Proof.
  destruct (verify fuel messages attempt_id st) as [r st1] eqn:E.
  apply verify_loop_budget in E.
  now destruct E as (cases & _ & _ & _ & _ & T).
Qed.

Lemma verification_case_last_message (m1 m2 : list message)
  (attempt_id : pyval) (st : state W) :
  last_message m1 = last_message m2 ->
  verification_case m1 attempt_id st = verification_case m2 attempt_id st.
Proof. intros L. unfold verification_case. now rewrite L. Qed.

(** X11.  Of the transcript, the Anthropic [verify] reads the last message
    only: two transcripts that end with the same message give the same
    requests, the same result and the same final state.  What the
    investigation found out before its last message is not shown to the
    model when it predicts. *)
Theorem verify_reads_last_message_only (fuel : nat)
  (m1 m2 : list message) (attempt_id : pyval) (st : state W) :
  last_message m1 = last_message m2 ->
  verify fuel m1 attempt_id st = verify fuel m2 attempt_id st.
Proof.
  intros L. revert st. induction fuel as [|fuel IH]; intros st;
    [reflexivity|].
  rewrite !anthropic_verify_S.
  rewrite (verification_case_last_message m1 m2 attempt_id st L).
  unfold dispatch.
  destruct (verification_case m2 attempt_id st) as [[[v|]|e] st1]; auto.
  destruct (verdict v) as [[| |]|e]; auto.
Qed.

(** X12.  When the oracle has no verification case for the attempt (its
    first answer is empty), [verify] reports success: it returns [True]
    without asking the model and without submitting a prediction. *)
Theorem verify_without_cases_succeeds (fuel : nat) (messages : list message)
  (attempt_id : pyval) (st : state W) (v_data : pyval) (w : W) :
  postfn (py "next-verification") (attempt_payload attempt_id) (world st)
  = (v_data, w) ->
  truthy v_data = false ->
  verify (S fuel) messages attempt_id st
  = (Ok (Some true),
     mkState w (log st ++ [OracleCall (py "next-verification")
                             (attempt_payload attempt_id)])).
Proof.
  intros P T. rewrite anthropic_verify_S.
  unfold verification_case. unfold bind. rewrite post_eq, P.
  cbn [fst snd]. now rewrite T.
Qed.

(** X13.  A response that is not JSON is answered by sending the model the
    very same request again; when the second response is well formed, its
    prediction is the one that is used, after two model calls. *)
Theorem ask_prediction_recovers (vmessages : list message) (st : state W)
  (c1 c2 : list content_block) (w1 w2 : W) (te : pyval * pyval) :
  completionfn vmessages None (world st) = (c1, w1) ->
  json_loads_obj (clean_response (first_text c1)) = Raise JSONDecodeError ->
  completionfn vmessages None w1 = (c2, w2) ->
  parse_response (first_text c2) = Ok te ->
  ask_prediction 3 vmessages st
  = (Ok te, mkState w2 (log st ++ [ModelCall; ModelCall])).
Proof.
  intros H1' J1 H2' P2.
  rewrite (ask_prediction_decode_error 2 vmessages st H1' J1).
  cbn [ask_prediction]. unfold bind. rewrite complete_eq.
  cbn [world log]. rewrite H2'. cbn [fst snd]. rewrite P2.
  unfold ret. now rewrite <- app_assoc.
Qed.

End VerificationBudget.

(* ================================================================= *)
(** ** The Verification Loop of the other providers *)

Section OpenAIVerification.

Context {W : Type} `{Oracle W} `{OpenAI.Provider W} `{Json}.

(** X14.  In the OpenAI client a completion cut off by the length limit
    ([LengthFinishReasonError]) leaves the loop, and [verify] returns
    [True]: the attempt counts as verified although no prediction was
    submitted for the case. *)
Theorem openai_verify_length_error_succeeds (fuel : nat)
  (messages : list OpenAI.message) (attempt_id : pyval) (st : state W)
  (v_data : pyval) (w0 : W) (verification output_type : pyval) (w1 : W) :
  postfn (py "next-verification") (PDict [(py "attempt-id", attempt_id)])
    (world st) = (v_data, w0) ->
  truthy v_data = true ->
  py_getitem v_data (py "next-verification") = Ok verification ->
  py_getitem v_data (py "output-type") = Ok output_type ->
  OpenAI.completionfn
    (messages ++ [OpenAI.make_verification_message verification])
    (OpenAI.make_schema output_type) w0
  = (OpenAI.LengthFinishReasonError, w1) ->
  OpenAI.verify (S fuel) messages attempt_id st
  = (Ok (Some true),
     mkState w1
       (log st ++ [OracleCall (py "next-verification")
                     (PDict [(py "attempt-id", attempt_id)]);
                   ModelCall])).
Proof.
  intros P T N O C. rewrite openai_verify_S.
  unfold OpenAI.verification_case. unfold bind at 1. rewrite post_eq, P.
  cbn [fst snd]. rewrite T.
  unfold bind at 1. unfold lift at 1. rewrite N.
  unfold bind at 1. unfold lift at 1. rewrite O.
  unfold bind at 1. unfold OpenAI.complete. cbn [world log]. rewrite C.
  unfold ret, dispatch. now rewrite <- app_assoc.
Qed.

(** X15.  The OpenAI client has no retry: a response that is not JSON
    makes [verify] raise [json.JSONDecodeError] after this one model call,
    and no prediction is submitted. *)
Theorem openai_verify_raises_on_malformed_json (fuel : nat)
  (messages : list OpenAI.message) (attempt_id : pyval) (st : state W)
  (v_data : pyval) (w0 : W) (verification output_type : pyval)
  (content : pystr) (others : list (option pystr)) (w1 : W) :
  postfn (py "next-verification") (PDict [(py "attempt-id", attempt_id)])
    (world st) = (v_data, w0) ->
  truthy v_data = true ->
  py_getitem v_data (py "next-verification") = Ok verification ->
  py_getitem v_data (py "output-type") = Ok output_type ->
  OpenAI.completionfn
    (messages ++ [OpenAI.make_verification_message verification])
    (OpenAI.make_schema output_type) w0
  = (OpenAI.Completion (Some content :: others), w1) ->
  json_loads content = None ->
  OpenAI.verify (S fuel) messages attempt_id st
  = (Raise JSONDecodeError,
     mkState w1
       (log st ++ [OracleCall (py "next-verification")
                     (PDict [(py "attempt-id", attempt_id)]);
                   ModelCall])).
Proof.
  intros P T N O C J. rewrite openai_verify_S.
  unfold OpenAI.verification_case. unfold bind at 1. rewrite post_eq, P.
  cbn [fst snd]. rewrite T.
  unfold bind at 1. unfold lift at 1. rewrite N.
  unfold bind at 1. unfold lift at 1. rewrite O.
  unfold bind at 1. unfold OpenAI.complete. cbn [world log]. rewrite C.
  unfold bind at 1. unfold lift at 1. cbn [OpenAI.first_choice].
  unfold bind at 1. unfold lift at 1. cbn [json_loads_obj]. rewrite J.
  unfold dispatch. now rewrite <- app_assoc.
Qed.

End OpenAIVerification.

Section GoogleVerification.

Context {W : Type} `{Oracle W} `{Google.Provider W}.

(** X16.  In the Google client a completion that could not be parsed into
    the response schema ([completion.parsed] is [None]) makes [verify]
    raise [AttributeError] after this one model call; no prediction is
    submitted. *)
Theorem google_verify_raises_without_parsed (fuel : nat)
  (messages : list Google.message) (attempt_id : pyval) (st : state W)
  (v_data : pyval) (w0 : W) (verification output_type : pyval) (w1 : W) :
  postfn (py "next-verification") (PDict [(py "attempt-id", attempt_id)])
    (world st) = (v_data, w0) ->
  truthy v_data = true ->
  py_getitem v_data (py "next-verification") = Ok verification ->
  py_getitem v_data (py "output-type") = Ok output_type ->
  Google.completionfn
    (messages ++
     [Google.save_message (py "user")
        (Google.make_verification_message
           (Google.value_list_to_map verification))])
    (Google.make_schema output_type) w0
  = (None, w1) ->
  Google.verify (S fuel) messages attempt_id st
  = (Raise AttributeError,
     mkState w1
       (log st ++ [OracleCall (py "next-verification")
                     (PDict [(py "attempt-id", attempt_id)]);
                   ModelCall])).
Proof.
  intros P T N O C. rewrite google_verify_S.
  unfold Google.verification_case. unfold bind at 1. rewrite post_eq, P.
  cbn [fst snd]. rewrite T.
  unfold bind at 1. unfold lift at 1. rewrite N.
  unfold bind at 1. unfold lift at 1. rewrite O.
  unfold bind at 1. unfold Google.complete. cbn [world log]. rewrite C.
  unfold bind at 1. unfold lift at 1. cbn [Google.parsed].
  unfold dispatch. now rewrite <- app_assoc.
Qed.

End GoogleVerification.

(* ================================================================= *)
(** ** More on resuming ([start_run], [reset_attempt]) *)

Section ResumingInvariants.

Import RunUtils.

Context {W : Type} `{ResetEndpoint W}.

(** X17.  [reset_attempt] sends one reset request.  When the request
    returns a response, the result is [True] exactly when the text of the
    response, in lower case, contains ["success"]; when the request raises
    an exception, the result is [False]; when the request raises
    [SystemExit], it passes through, with its code. *)
Theorem reset_attempt_outcomes (run_id attempt_id : pystr) (st : state W)
  (response : result pystr) (w : W) :
  post_reset run_id attempt_id (world st) = (response, w) ->
  let reset := mkState w (log st ++ [ResetCall run_id attempt_id]) in
  (forall text,
      response = Ok text ->
      exists ok,
        reset_attempt run_id attempt_id st = (Ok ok, reset)
        /\ (ok = true <-> substring (py "success") (lower text)))
  /\ (forall code,
         response = Raise (SystemExit code) ->
         reset_attempt run_id attempt_id st = (Raise (SystemExit code), reset))
  /\ (forall e,
         response = Raise e ->
         (forall code, e <> SystemExit code) ->
         reset_attempt run_id attempt_id st = (Ok false, reset)).
Proof.
  intros P reset. unfold reset_attempt. rewrite P. fold reset.
  split; [|split].
  - intros text ->. eexists. split; [reflexivity|]. apply str_in_spec.
  - now intros code ->.
  - intros e -> N. destruct e; try reflexivity.
    exfalso. now apply (N code).
Qed.

(** X18.  Resuming contacts the oracle only to retry an attempt that has a
    non-empty identifier: with [skip], or when the snapshot holds no
    attempt in flight or one without (or with an empty) identifier, the
    world is left as it was and nothing is reset; with [retry] the rebuilt
    list is then the whole of the attempts that are not completed. *)
Theorem resume_without_reset (mode : resume_mode) (run_id : pystr)
  (run : failed_run) (completed_attempts : list pystr) (st : state W) :
  mode = skip
  \/ id_truthy (get_attempt_id (current_attempt (failure run))) = false ->
  snd (start_run_resume true (Some mode) run_id (Some run)
         completed_attempts st) = st
  /\ (mode = retry -> all_attempts (failure run) <> [] ->
      fst (start_run_resume true (Some mode) run_id (Some run)
             completed_attempts st)
      = Ok (Resuming
              (remaining (all_attempts (failure run)) completed_attempts))).
Proof.
  intros D.
  assert (E : start_run_resume true (Some mode) run_id (Some run)
                completed_attempts st
              = match all_attempts (failure run) with
                | [] => (Raise (SystemExit 1), st)
                | _ :: _ =>
                    (Ok (Resuming
                           (if resume_mode_eqb mode skip
                               && attempt_truthy
                                    (current_attempt (failure run))
                            then
                              filter
                                (fun a =>
                                   negb (id_eqb (attempt_id a)
                                           (get_attempt_id
                                              (current_attempt
                                                 (failure run)))))
                                (remaining (all_attempts (failure run))
                                   completed_attempts)
                            else
                              remaining (all_attempts (failure run))
                                completed_attempts)), st)
                end).
  { unfold start_run_resume, remaining. cbv zeta. unfold bind at 1.
    destruct (attempt_truthy (current_attempt (failure run)));
      [|now destruct (all_attempts (failure run))].
    destruct (get_attempt_id (current_attempt (failure run))) as [aid|];
      [|now destruct (all_attempts (failure run))].
    replace (resume_mode_eqb mode retry && id_truthy (Some aid))
      with false
      by (destruct D as [D | D]; rewrite D;
          [reflexivity | now rewrite andb_false_r]).
    now destruct (all_attempts (failure run)). }
  rewrite E. destruct (all_attempts (failure run)) as [|a0 l].
  - split; [reflexivity|]. intros _ X. contradiction.
  - split; [reflexivity|]. intros -> _. reflexivity.
Qed.

(** X19.  A snapshot without attempts cannot be resumed: the program exits
    in either mode, also after a reset that succeeded.  The exit code is 1,
    except when the reset request of [retry] itself raised [SystemExit]:
    then it is the code of that exit. *)
Theorem resume_empty_snapshot_exits (mode : resume_mode) (run_id : pystr)
  (run : failed_run) (completed_attempts : list pystr) (st : state W) :
  all_attempts (failure run) = [] ->
  exists code,
    fst (start_run_resume true (Some mode) run_id (Some run)
           completed_attempts st) = Raise (SystemExit code)
    /\ (code = 1%Z
        \/ mode = retry
           /\ exists in_flight aid,
                current_attempt (failure run) = Some in_flight
                /\ attempt_id in_flight = Some aid
                /\ fst (post_reset run_id aid (world st))
                   = Raise (SystemExit code)).
Proof.
  intros E. unfold start_run_resume. rewrite E. unfold bind.
  destruct (current_attempt (failure run)) as [in_flight|] eqn:C;
    [|exists 1%Z; split; [reflexivity | now left]].
  destruct (attempt_truthy (Some in_flight));
    [|exists 1%Z; split; [reflexivity | now left]].
  cbv zeta. cbn [get_attempt_id].
  destruct (attempt_id in_flight) as [aid|] eqn:I;
    [|exists 1%Z; split; [reflexivity | now left]].
  destruct mode; cbn [resume_mode_eqb andb];
    [exists 1%Z; split; [reflexivity | now left]|].
  destruct (id_truthy (Some aid));
    [|exists 1%Z; split; [reflexivity | now left]].
  unfold reset_attempt.
  destruct (post_reset run_id aid (world st)) as [[text|e] w] eqn:P.
  - exists 1%Z. split; [|now left].
    destruct (str_in (py "success") (lower text)); reflexivity.
  - destruct e; try (exists 1%Z; split; [reflexivity | now left]).
    exists code. split; [reflexivity|]. right. split; [reflexivity|].
    exists in_flight, aid. split; [reflexivity|]. split; [exact I|].
    now rewrite P.
Qed.

Lemma filter_andb {A} (f g : A -> bool) (l : list A) :
  filter f (filter g l) = filter (fun x => g x && f x) l.
Proof.
  induction l as [|x t IH]; [reflexivity|].
  cbn [filter]. destruct (g x); cbn [andb filter]; [|exact IH].
  destruct (f x); [now f_equal | exact IH].
Qed.

(** X20.  Whatever the mode, the snapshot and the oracle, a list of
    attempts rebuilt for a resumed run is a selection from the snapshot's
    [all_attempts] in their order, and every attempt in it has an
    identifier that is not among the completed attempts. *)
Theorem resume_selects_from_snapshot (is_uuid : bool)
  (resume : option resume_mode) (run_id : pystr)
  (failed : option failed_run) (completed_attempts : list pystr)
  (st st' : state W) (attempts : list attempt) :
  start_run_resume is_uuid resume run_id failed completed_attempts st
  = (Ok (Resuming attempts), st') ->
  exists run keep,
    failed = Some run
    /\ attempts = filter keep (all_attempts (failure run))
    /\ forall a,
         In a attempts ->
         exists i, attempt_id a = Some i /\ ~ In i completed_attempts.
Proof.
  unfold start_run_resume.
  destruct is_uuid; [|discriminate].
  destruct resume as [mode|]; [|discriminate].
  destruct failed as [run|]; [|discriminate].
  cbv zeta. unfold bind at 1.
  match goal with
  | |- context [match ?c st with _ => _ end] =>
      destruct (c st) as [[[]|e] st1]
  end; [|discriminate].
  fold (remaining (all_attempts (failure run)) completed_attempts).
  destruct (all_attempts (failure run)) as [|a0 l] eqn:E; [discriminate|].
  rewrite <- E. unfold ret. intros X. exists run.
  destruct (resume_mode_eqb mode skip
            && attempt_truthy (current_attempt (failure run)));
    injection X as X _; subst attempts.
  - eexists. split; [reflexivity|]. split.
    + unfold remaining. apply filter_andb.
    + intros a I. apply filter_In in I. destruct I as [I _].
      apply remaining_spec in I. tauto.
  - eexists. split; [reflexivity|]. split; [reflexivity|].
    intros a I. apply remaining_spec in I. tauto.
Qed.

End ResumingInvariants.

(* ================================================================= *)
(** ** Run identifiers ([is_valid_uuid]) *)

Section RunIdentifiers.

Import RunUtils.

Lemma hex_group_spec (n : nat) :
  forall s r,
    hex_group n s = Some r <-> exists g, hex_digits n g /\ s = g ++ r.
Proof.
  unfold hex_digits.
  induction n as [|n IH]; intros s r; cbn [hex_group].
  - split.
    + intros E. inversion E. now exists [].
    + intros (g & (L & _) & ->). destruct g; [reflexivity|discriminate].
  - destruct s as [|c t].
    + split; [discriminate|].
      intros (g & (L & _) & E). destruct g; discriminate.
    + destruct (is_hex c) eqn:X.
      * rewrite IH. split.
        -- intros (g & (L & F) & ->). exists (c :: g).
           cbn [length forallb app]. rewrite X, L, F. auto.
        -- intros (g & (L & F) & E). destruct g as [|c' g]; [discriminate|].
           cbn [app] in E. inversion E; subst.
           cbn [forallb] in F. apply andb_true_iff in F as [_ F].
           exists g. cbn [length] in L. split; [split|]; auto.
      * split; [discriminate|].
        intros (g & (L & F) & E). destruct g as [|c' g]; [discriminate|].
        cbn [app] in E. inversion E; subst.
        cbn [forallb] in F. rewrite X in F. discriminate.
Qed.

Lemma hyphen_spec (s r : pystr) :
  hyphen s = Some r <-> s = py "-" ++ r.
Proof.
  unfold hyphen. change (py "-" ++ r) with (45%N :: r).
  destruct s as [|c t]; [split; discriminate|].
  destruct c as [|p]; [split; discriminate|].
  do 6 (try destruct p as [p|p|]);
    (split; intros E; first [discriminate | inversion E; reflexivity]).
Qed.

Lemma uuid_tail (r : pystr) :
  match r with
  | [] => true
  | [10%N] => true
  | _ => false
  end = true <-> r = [] \/ r = [10%N].
Proof.
  destruct r as [|c [|c' r]].
  - split; auto.
  - destruct c as [|p];
      [split; [discriminate | intros [X|X]; discriminate]|].
    do 4 (try destruct p as [p|p|]);
      (split; [first [discriminate | auto]
              | intros [X|X]; first [discriminate | reflexivity]]).
  - destruct c as [|p];
      [split; [discriminate | intros [X|X]; discriminate]|].
    do 4 (try destruct p as [p|p|]);
      (split; [discriminate | intros [X|X]; discriminate]).
Qed.

Lemma and_then_some {A B} (x : option A) (f : A -> option B) (b : B) :
  and_then x f = Some b <-> exists a, x = Some a /\ f a = Some b.
Proof.
  destruct x as [a|]; cbn [and_then].
  - split; [intros E; now exists a | intros (a' & E & F); now inversion E].
  - split; [discriminate | intros (a' & E & _); discriminate].
Qed.

Lemma uuid_groups (s r : pystr) :
  and_then (and_then (and_then (and_then (and_then (and_then (and_then
    (and_then (hex_group 8 s) hyphen) (hex_group 4)) hyphen)
    (hex_group 4)) hyphen) (hex_group 4)) hyphen) (hex_group 12) = Some r
  <-> exists u, canonical_uuid u /\ s = u ++ r.
Proof.
  unfold canonical_uuid. split.
  - intros E.
    apply and_then_some in E as (r8 & E & G5).
    apply and_then_some in E as (r7 & E & Y4).
    apply and_then_some in E as (r6 & E & G4).
    apply and_then_some in E as (r5 & E & Y3).
    apply and_then_some in E as (r4 & E & G3).
    apply and_then_some in E as (r3 & E & Y2).
    apply and_then_some in E as (r2 & E & G2).
    apply and_then_some in E as (r1 & G1 & Y1).
    apply hex_group_spec in G1 as (g1 & D1 & ->).
    apply hex_group_spec in G2 as (g2 & D2 & ->).
    apply hex_group_spec in G3 as (g3 & D3 & ->).
    apply hex_group_spec in G4 as (g4 & D4 & ->).
    apply hex_group_spec in G5 as (g5 & D5 & ->).
    apply hyphen_spec in Y1, Y2, Y3, Y4. subst.
    eexists. split.
    + exists g1, g2, g3, g4, g5. repeat (split; [eassumption|]). reflexivity.
    + now rewrite <- !app_assoc.
  - intros (u & (g1 & g2 & g3 & g4 & g5 & D1 & D2 & D3 & D4 & D5 & ->) & ->).
    rewrite <- !app_assoc.
    apply and_then_some. exists (g5 ++ r).
    split; [|apply hex_group_spec; now exists g5].
    apply and_then_some. exists (py "-" ++ g5 ++ r).
    split; [|now apply hyphen_spec].
    apply and_then_some. exists (g4 ++ py "-" ++ g5 ++ r).
    split; [|apply hex_group_spec; now exists g4].
    apply and_then_some. exists (py "-" ++ g4 ++ py "-" ++ g5 ++ r).
    split; [|now apply hyphen_spec].
    apply and_then_some.
    exists (g3 ++ py "-" ++ g4 ++ py "-" ++ g5 ++ r).
    split; [|apply hex_group_spec; now exists g3].
    apply and_then_some.
    exists (py "-" ++ g3 ++ py "-" ++ g4 ++ py "-" ++ g5 ++ r).
    split; [|now apply hyphen_spec].
    apply and_then_some.
    exists (g2 ++ py "-" ++ g3 ++ py "-" ++ g4 ++ py "-" ++ g5 ++ r).
    split; [|apply hex_group_spec; now exists g2].
    apply and_then_some.
    exists (py "-" ++ g2 ++ py "-" ++ g3 ++ py "-" ++ g4 ++ py "-" ++ g5
            ++ r).
    split; [|now apply hyphen_spec].
    apply hex_group_spec. now exists g1.
Qed.

(** X21.  [is_valid_uuid] accepts exactly the canonical form of a UUID,
    five groups of 8, 4, 4, 4 and 12 hexadecimal digits (letters in either
    case) with hyphens between them, and the same followed by one newline:
    [$] also matches before a newline that ends the string. *)
Theorem is_valid_uuid_spec (s : pystr) :
  is_valid_uuid s = true
  <-> canonical_uuid s \/ exists u, canonical_uuid u /\ s = u ++ [10%N].
Proof.
  unfold is_valid_uuid.
  destruct (and_then _ (hex_group 12)) as [r|] eqn:E.
  - apply uuid_groups in E as (u & C & ->).
    assert (U : forall u' r', canonical_uuid u' -> u ++ r = u' ++ r' ->
                r = r').
    { intros u' r' C' X.
      assert (L : forall x, canonical_uuid x -> length x = 36).
      { intros x (g1 & g2 & g3 & g4 & g5 & (L1 & _) & (L2 & _) & (L3 & _)
                  & (L4 & _) & (L5 & _) & ->).
        rewrite !length_app, L1, L2, L3, L4, L5. reflexivity. }
      apply (f_equal (skipn 36)) in X.
      rewrite <- (L u C) in X at 1. rewrite <- (L u' C') in X.
      now rewrite !skipn_app, !skipn_all, !Nat.sub_diag in X. }
    rewrite uuid_tail. split.
    + intros [->| ->].
      * left. now rewrite app_nil_r.
      * right. now exists u.
    + intros [C'|(u' & C' & X)].
      * left. apply (U (u ++ r) [] C'). now rewrite app_nil_r.
      * right. now apply (U u' [10%N] C').
  - split; [discriminate|].
    assert (X : forall u r, canonical_uuid u -> s <> u ++ r).
    { intros u r C ->.
      assert (Y : exists r', and_then
                (and_then (and_then (and_then (and_then (and_then (and_then
                  (and_then (hex_group 8 (u ++ r)) hyphen) (hex_group 4))
                  hyphen) (hex_group 4)) hyphen) (hex_group 4)) hyphen)
                (hex_group 12) = Some r').
      { exists r. apply uuid_groups. now exists u. }
      destruct Y as (r' & Y). congruence. }
    intros [C|(u & C & ->)].
    + exfalso. apply (X s [] C). now rewrite app_nil_r.
    + exfalso. now apply (X u [10%N] C).
Qed.

Lemma is_hex_lower (c : codepoint) : is_hex (lower_char c) = is_hex c.
Proof.
  unfold lower_char.
  destruct ((65 <=? c)%N && (c <=? 90)%N
            || (192 <=? c)%N && (c <=? 222)%N && negb (c =? 215)%N) eqn:E;
    [|reflexivity].
  assert (R : (65 <= c <= 90 \/ 192 <= c <= 222)%N).
  { apply orb_true_iff in E as [E|E].
    - apply andb_true_iff in E as [E1 E2].
      apply N.leb_le in E1, E2. lia.
    - apply andb_true_iff in E as [E _]. apply andb_true_iff in E as [E1 E2].
      apply N.leb_le in E1, E2. lia. }
  clear E. unfold is_hex.
  repeat match goal with
         | |- context [(?a <=? ?b)%N] => destruct (N.leb_spec a b)
         end; cbn [andb orb]; try reflexivity; lia.
Qed.

Lemma lower_char_below (c k : codepoint) :
  (k < 65)%N -> lower_char c = k <-> c = k.
Proof.
  intros K. unfold lower_char.
  destruct ((65 <=? c)%N && (c <=? 90)%N
            || (192 <=? c)%N && (c <=? 222)%N && negb (c =? 215)%N) eqn:E;
    [|tauto].
  assert (65 <= c)%N.
  { apply orb_true_iff in E as [E|E].
    - apply andb_true_iff in E as [E _]. now apply N.leb_le in E.
    - apply andb_true_iff in E as [E _]. apply andb_true_iff in E as [E _].
      apply N.leb_le in E. lia. }
  split; lia.
Qed.

Lemma hex_group_lower (n : nat) :
  forall s, hex_group n (lower s) = option_map lower (hex_group n s).
Proof.
  induction n as [|n IH]; intros s; cbn [hex_group]; [reflexivity|].
  destruct s as [|c t]; [reflexivity|].
  cbn [lower map]. rewrite is_hex_lower. fold (lower t).
  destruct (is_hex c); [apply IH | reflexivity].
Qed.

Lemma hyphen_lower (s : pystr) :
  hyphen (lower s) = option_map lower (hyphen s).
Proof.
  destruct (hyphen s) as [r|] eqn:E.
  - apply hyphen_spec in E. subst. reflexivity.
  - destruct (hyphen (lower s)) as [r|] eqn:F; [|reflexivity].
    apply hyphen_spec in F. destruct s as [|c t]; [discriminate|].
    cbn [lower map] in F. change (py "-" ++ r) with (45%N :: r) in F.
    inversion F as [[X Y]].
    apply (proj1 (@lower_char_below c 45%N eq_refl)) in X.
    subst c. discriminate.
Qed.

Lemma and_then_lower (x : option pystr) (f : pystr -> option pystr) :
  (forall s, f (lower s) = option_map lower (f s)) ->
  and_then (option_map lower x) f = option_map lower (and_then x f).
Proof. intros F. destruct x as [s|]; [apply F | reflexivity]. Qed.

(** X22.  [is_valid_uuid] does not depend on the case of the letters: a
    string and its lower-case form are accepted or rejected together. *)
Theorem is_valid_uuid_ignores_case (s : pystr) :
  is_valid_uuid (lower s) = is_valid_uuid s.
Proof.
  unfold is_valid_uuid.
  rewrite hex_group_lower.
  rewrite !(and_then_lower _ _ hyphen_lower).
  rewrite !(and_then_lower _ _ (hex_group_lower 4)).
  rewrite !(and_then_lower _ _ hyphen_lower).
  rewrite !(and_then_lower _ _ (hex_group_lower 4)).
  rewrite !(and_then_lower _ _ hyphen_lower).
  rewrite !(and_then_lower _ _ (hex_group_lower 4)).
  rewrite !(and_then_lower _ _ hyphen_lower).
  rewrite !(and_then_lower _ _ (hex_group_lower 12)).
  destruct (and_then _ (hex_group 12)) as [r|]; [|reflexivity].
  cbn [option_map].
  assert (L : forall k : N, (k < 65)%N -> lower r = [k] <-> r = [k]).
  { intros k K.
    destruct r as [|c [|c' r]]; cbn [lower map]; try (split; discriminate).
    split; intros X; injection X as Y.
    - apply (proj1 (@lower_char_below c k K)) in Y. now subst.
    - f_equal. now apply lower_char_below. }
  assert (E : (lower r = [] \/ lower r = [10%N]) <-> (r = [] \/ r = [10%N])).
  { rewrite (L 10%N) by reflexivity.
    destruct r; cbn [lower map]; split; intros [X|X]; auto; discriminate. }
  rewrite <- !uuid_tail in E.
  destruct (match lower r with [] => true | [10%N] => true | _ => false end),
    (match r with [] => true | [10%N] => true | _ => false end);
    try reflexivity.
  - symmetry. now apply E.
  - now apply E.
Qed.

End RunIdentifiers.

(* ================================================================= *)
(** ** The failure snapshot ([run_with_error_handling], [save_run_failure]) *)

Section FailureSnapshot.

Import RunUtils.

Lemma index_of_attempt_spec (attempts : list attempt)
  (current_id : option pystr) :
  forall start i,
    index_of_attempt start attempts current_id = Some i ->
    exists before a after,
      attempts = before ++ a :: after
      /\ i = start + length before
      /\ attempt_id a = current_id
      /\ forall b, In b before -> attempt_id b <> current_id.
Proof.
  induction attempts as [|x t IH]; intros start i E; [discriminate|].
  cbn [index_of_attempt] in E.
  destruct (id_eqb (attempt_id x) current_id) eqn:X.
  - inversion E; subst. apply id_eqb_spec in X.
    exists [], x, t. repeat split; auto; cbn; lia.
  - apply IH in E. destruct E as (before & a & after & -> & -> & Ea & Eb).
    exists (x :: before), a, after.
    split; [reflexivity|]. split; [cbn [length]; lia|].
    split; [exact Ea|].
    intros b [<-|I]; [|now apply Eb].
    intros Y. apply id_eqb_spec in Y. congruence.
Qed.

Lemma index_of_attempt_none (attempts : list attempt)
  (current_id : option pystr) :
  forall start,
    index_of_attempt start attempts current_id = None
    <-> forall a, In a attempts -> attempt_id a <> current_id.
Proof.
  induction attempts as [|x t IH]; intros start; cbn [index_of_attempt].
  - split; [intros _ a []| reflexivity].
  - destruct (id_eqb (attempt_id x) current_id) eqn:X.
    + apply id_eqb_spec in X. split; [discriminate|].
      intros N. exfalso. apply (N x); [now left | exact X].
    + rewrite IH. split.
      * intros N a [<-|I]; [|now apply N].
        intros Y. apply id_eqb_spec in Y. congruence.
      * intros N a I. apply N. now right.
Qed.

Lemma index_of_attempt_fresh (before after : list attempt) (a : attempt) :
  (forall b, In b before -> attempt_id b <> attempt_id a) ->
  forall start,
    index_of_attempt start (before ++ a :: after) (attempt_id a)
    = Some (start + length before).
Proof.
  induction before as [|x t IH]; intros N start; cbn [app index_of_attempt].
  - replace (id_eqb (attempt_id a) (attempt_id a)) with true
      by (symmetry; now apply id_eqb_spec).
    cbn [length]. f_equal. lia.
  - destruct (id_eqb (attempt_id x) (attempt_id a)) eqn:E.
    + apply id_eqb_spec in E. exfalso. apply (N x); [now left | exact E].
    + rewrite IH by (intros b I; apply N; now right).
      cbn [length]. f_equal. lia.
Qed.

(** X23.  The error handler records no index when no attempt is in
    flight ([None], or an attempt that is an empty dict).  Otherwise the
    index it records is the position of the first attempt of the list with
    the same ["attempt-id"] as the attempt in flight (a missing identifier
    equals a missing identifier), and it records none exactly when no
    attempt of the list has this identifier. *)
Theorem current_attempt_index_first_match (attempts : list attempt) :
  current_attempt_index None attempts = None
  /\ current_attempt_index (Some (Attempt None [])) attempts = None
  /\ forall current,
       current <> Attempt None [] ->
       (forall i,
           current_attempt_index (Some current) attempts = Some i
           <-> exists before a after,
                 attempts = before ++ a :: after
                 /\ i = length before
                 /\ attempt_id a = attempt_id current
                 /\ forall b,
                      In b before -> attempt_id b <> attempt_id current)
       /\ (current_attempt_index (Some current) attempts = None
           <-> forall a, In a attempts -> attempt_id a <> attempt_id current).
Proof.
  split; [reflexivity|]. split; [reflexivity|]. intros current N.
  assert (T : attempt_truthy (Some current) = true).
  { destruct current as [[i|] [|f]]; try reflexivity. now contradiction N. }
  unfold current_attempt_index. rewrite T. cbn [get_attempt_id]. split.
  - intros i. split.
    + intros E. apply index_of_attempt_spec in E.
      destruct E as (before & a & after & E1 & E2 & E3 & E4).
      now exists before, a, after.
    + intros (before & a & after & -> & -> & E & F).
      rewrite <- E. rewrite index_of_attempt_fresh; [reflexivity|].
      intros b I. rewrite E. now apply F.
  - apply index_of_attempt_none.
Qed.

(** X24.  Whatever [error_info] holds, the snapshot that
    [save_run_failure] stores has the five keys [error_type],
    [error_message], [traceback], [current_attempt] and [all_attempts] and
    no other.  For the [error_info] of the error handler the three texts
    are kept as they are, and the index of the attempt in flight that the
    handler has put into [error_info] is not stored. *)
Theorem save_run_failure_drops_index (all current : pyval)
  (info : dict pyval) (error_type error_message trace_info : pystr)
  (index : option nat) :
  dict_keys (save_run_failure all current info)
  = [py "error_type"; py "error_message"; py "traceback";
     py "current_attempt"; py "all_attempts"]
  /\ dict_get (save_run_failure all current info)
       (py "current_attempt_index") = None
  /\ save_run_failure all current
       (error_info error_type error_message trace_info index)
     = [(py "error_type", PStr error_type);
        (py "error_message", PStr error_message);
        (py "traceback", PStr trace_info);
        (py "current_attempt", current);
        (py "all_attempts", all)].
Proof.
  repeat split; try reflexivity. now destruct index.
Qed.

End FailureSnapshot.

(* ================================================================= *)
(** ** The endpoints an investigation uses *)

Section InvestigationEndpoints.

Import Anthropic.

Context {W : Type} `{Oracle W} `{Provider W} `{Json}.

Lemma handle_tool_calls_endpoints (endpoint : pystr) (attempt_id : pyval)
  (calls : list tool_use) :
  str_eqb (py "test-function") endpoint = false ->
  forall content counter st r st',
    handle_tool_calls attempt_id calls content counter st = (r, st') ->
    calls_to endpoint (log st') = calls_to endpoint (log st).
Proof.
  intros N.
  induction calls as [|call rest IH]; intros content counter st r st' E.
  - now inversion E.
  - cbn [handle_tool_calls] in E. unfold bind in E.
    rewrite handle_tool_call_eq in E.
    destruct (postfn _ _ (world st)) as [reply w1].
    cbv zeta in E.
    assert (C : calls_to endpoint
                  (log st ++ [test_function_call attempt_id call])
                = calls_to endpoint (log st)).
    { rewrite calls_to_app. unfold test_function_call.
      rewrite calls_to_one, N. lia. }
    destruct (is_mapping reply).
    + apply IH in E. cbn [log] in E. congruence.
    + inversion E; subst. exact C.
Qed.

Lemma investigate_loop_endpoints (endpoint : pystr) (n : nat)
  (tools : list tool) (attempt_id : pyval) :
  str_eqb (py "test-function") endpoint = false ->
  forall messages counter st r st',
    investigate_loop n tools attempt_id messages counter st = (r, st') ->
    calls_to endpoint (log st') = calls_to endpoint (log st).
Proof.
  intros N.
  induction n as [|n IH]; intros messages counter st r st' E.
  - now inversion E.
  - rewrite investigate_loop_S, complete_eq in E. cbv zeta in E.
    set (st1 := mkState _ _) in E.
    assert (M : calls_to endpoint (log st1) = calls_to endpoint (log st)).
    { unfold st1. cbn [log]. rewrite calls_to_app.
      change (calls_to endpoint [ModelCall]) with 0. lia. }
    destruct (tool_uses _) as [|c cs].
    + inversion E; subst. exact M.
    + destruct (handle_tool_calls attempt_id (c :: cs) [] counter st1)
        as [[[content counter']|e] st2] eqn:Hh;
        apply (@handle_tool_calls_endpoints endpoint attempt_id (c :: cs) N)
          in Hh.
      * apply IH in E. congruence.
      * inversion E; subst. congruence.
Qed.

(** X25.  An investigation talks to the oracle through [test-function]
    only: however it ends, it has sent no request to any other endpoint
    (it never asks for a verification case and never submits a
    prediction). *)
Theorem investigate_only_tests (endpoint : pystr) (cfg : config)
  (messages : list message) (attempt_id : pyval) (arg_spec : list pyval)
  (st : state W) :
  endpoint <> py "test-function" ->
  calls_to endpoint
    (log (snd (investigate cfg messages attempt_id arg_spec st)))
  = calls_to endpoint (log st).
Proof.
  intros N.
  assert (N' : str_eqb (py "test-function") endpoint = false)
    by (apply str_eqb_neq; congruence).
  unfold investigate, bind, lift.
  destruct (list_to_map arg_spec) as [mapped|e]; [|reflexivity].
  destruct (investigate_loop _ _ _ _ _ st) as [r st'] eqn:E.
  now apply (@investigate_loop_endpoints endpoint _ _ attempt_id N') in E.
Qed.

End InvestigationEndpoints.

(* ================================================================= *)
(** ** Responses without a fence *)

Lemma lstrip_incl (s : pystr) (c : codepoint) : In c (lstrip s) -> In c s.
Proof.
  induction s as [|x t IH]; cbn [lstrip]; [tauto|].
  destruct (isspace x); [intros I; right; now apply IH | tauto].
Qed.

Lemma strip_incl (s : pystr) (c : codepoint) : In c (strip s) -> In c s.
Proof.
  unfold strip, rstrip. intros I.
  apply in_rev, lstrip_incl, in_rev in I. now apply lstrip_incl.
Qed.

Lemma startswith_head (s p : pystr) (c : codepoint) :
  startswith s (c :: p) = true -> In c s.
Proof.
  destruct s as [|x t]; cbn [startswith]; [discriminate|].
  intros E. apply andb_true_iff in E as [E _].
  apply N.eqb_eq in E. subst. now left.
Qed.

Section PlainResponses.

Import Anthropic.

Context `{Json}.

(** X26.  A response that contains no backquote reaches the decoder as it
    is, white space included: the cleaning step changes nothing. *)
Theorem clean_response_without_backquote (r : pystr) :
  ~ In 96%N r -> clean_response (Some r) = Some r.
Proof.
  intros N. unfold clean_response, strip_leading_fence.
  assert (S : startswith (strip r) (py "```json") = false).
  { destruct (startswith (strip r) (py "```json")) eqn:E; [|reflexivity].
    exfalso. apply N, strip_incl.
    exact (startswith_head (strip r) (skipn 1 (py "```json")) 96%N E). }
  rewrite S, andb_false_r. unfold strip_trailing_fence.
  assert (T : endswith (strip r) (py "```") = false).
  { destruct (endswith (strip r) (py "```")) eqn:E; [|reflexivity].
    exfalso. apply N, strip_incl, in_rev.
    exact (startswith_head (rev (strip r)) (py "``") 96%N E). }
  now rewrite T, andb_false_r.
Qed.

End PlainResponses.

(* ================================================================= *)
(** ** The request that starts a run ([start_run]) *)

Section StartRun.

Import RunUtils.

(** X27.  The request that starts a run names the client as
    [provider/model] and carries exactly one of [existing-run-id] and
    [problem-set], holding the command-line argument: the former exactly
    when the argument has the form of a UUID.  [attempts-per-problem] is
    sent exactly when the option was given with a number other than 0, and
    [subset] exactly when the configured value is truthy. *)
Theorem start_run_post_data_fields (provider model : pystr) (subset : pyval)
  (attempts_per_problem : option Z) (arg : pystr) :
  let post_data :=
    start_run_post_data provider model subset attempts_per_problem arg in
  dict_get post_data (py "client-id")
  = Some (PStr (provider ++ py "/" ++ model))
  /\ dict_get post_data (py "existing-run-id")
     = (if is_valid_uuid arg then Some (PStr arg) else None)
  /\ dict_get post_data (py "problem-set")
     = (if is_valid_uuid arg then None else Some (PStr arg))
  /\ dict_get post_data (py "attempts-per-problem")
     = match attempts_per_problem with
       | Some n => if (n =? 0)%Z then None else Some (PInt n)
       | None => None
       end
  /\ dict_get post_data (py "subset")
     = (if truthy subset then Some subset else None).
Proof.
  unfold start_run_post_data.
  destruct (is_valid_uuid arg), (truthy subset),
    attempts_per_problem as [n|]; try destruct (n =? 0)%Z;
    repeat split; reflexivity.
Qed.

End StartRun.

(* ================================================================= *)
(** ** The attempt in flight ([run_benchmark], [run_with_error_handling]) *)

Section AttemptInFlight.

Import RunUtils Fireworks.

Context {W : Type}.

Variable executor_p : attempt -> M W bool.

Lemma process_attempts_outcome (attempts : list attempt) :
  forall current st r cur st',
    process_attempts executor_p attempts current st = (r, cur, st') ->
    match r with
    | Ok _ =>
        (cur = None \/ attempts = [] /\ cur = current)
        /\ processed executor_p attempts st st'
    | Raise e =>
        exists before a after st1,
          attempts = before ++ a :: after
          /\ processed executor_p before st st1
          /\ executor_p a st1 = (Raise e, st')
          /\ cur = Some a
    end.
Proof.
  induction attempts as [|x t IH]; intros current st r cur st' E.
  - inversion E; subst. split; [now right | constructor].
  - cbn [process_attempts] in E.
    destruct (executor_p x st) as [[b|e] st1] eqn:X.
    + apply IH in E. destruct r as [u|e].
      * destruct E as [C P]. split.
        -- left. now destruct C as [C|[_ C]].
        -- now apply processed_cons with (result := b) (st1 := st1).
      * destruct E as (before & a & after & st2 & -> & P & R & ->).
        exists (x :: before), a, after, st2. repeat split; auto.
        now apply processed_cons with (result := b) (st1 := st1).
    + inversion E; subst. exists [], x, t, st.
      repeat split; auto. constructor.
Qed.

(** X28.  The loop over the attempts marks the attempt it is processing
    and clears the mark when the attempt is done.  Started without a mark,
    a loop that completes has processed every attempt and leaves no mark;
    a loop that raises has processed the attempts before some attempt,
    raises what the processing of this attempt raised, and leaves exactly
    this attempt marked.  When the identifiers of the attempts are
    distinct (and the attempt is not an empty dict), the index the error
    handler computes for the marked attempt is its position in the list. *)
Theorem failed_attempt_is_located (attempts : list attempt)
  (st : state W) (r : result unit) (cur : option attempt) (st' : state W) :
  process_attempts executor_p attempts None st = (r, cur, st') ->
  match r with
  | Ok _ => cur = None /\ processed executor_p attempts st st'
  | Raise e =>
      exists before a after st1,
        attempts = before ++ a :: after
        /\ processed executor_p before st st1
        /\ executor_p a st1 = (Raise e, st')
        /\ cur = Some a
        /\ (NoDup (map attempt_id attempts) ->
            a <> Attempt None [] ->
            current_attempt_index cur attempts = Some (length before))
  end.
Proof.
  intros E. apply process_attempts_outcome in E.
  destruct r as [u|e].
  - destruct E as [C P]. split; [|exact P]. now destruct C as [C|[_ C]].
  - destruct E as (before & a & after & st1 & -> & P & R & ->).
    exists before, a, after, st1. repeat split; auto.
    intros N T.
    assert (U : attempt_truthy (Some a) = true).
    { destruct a as [[i|] [|f]]; try reflexivity. now contradiction T. }
    unfold current_attempt_index. rewrite U. cbn [get_attempt_id].
    rewrite index_of_attempt_fresh; [reflexivity|].
    intros b I X. rewrite map_app in N. cbn [map] in N.
    apply NoDup_remove_2 in N. apply N, in_or_app. left.
    rewrite <- X. now apply in_map.
Qed.

End AttemptInFlight.

Section AttemptInFlightRuns.

Import RunUtils Fireworks Reference Examples.

(** Three attempts, the processing of the second raises: the loop raises
    the same exception, a2 is left marked, and the handler finds it behind
    one attempt. *)
Lemma failed_attempt_is_located_witness :
  let executor_p : RunUtils.attempt -> M unit bool :=
    fun a => if id_eqb (attempt_id a) (Some (py "a2")) then raise KeyError
             else ret true in
  let attempts := [attempt_of "a1"; attempt_of "a2"; attempt_of "a3"] in
  process_attempts executor_p attempts None (mkState tt [])
  = (Raise KeyError, Some (attempt_of "a2"), mkState tt [])
  /\ exists before after,
       attempts = before ++ attempt_of "a2" :: after
       /\ processed executor_p before (mkState tt []) (mkState tt [])
       /\ current_attempt_index (Some (attempt_of "a2")) attempts
          = Some (length before).
Proof.
  intros executor_p attempts.
  assert (E : process_attempts executor_p attempts None (mkState tt [])
              = (Raise KeyError, Some (attempt_of "a2"), mkState tt []))
    by reflexivity.
  split; [exact E|].
  destruct (@failed_attempt_is_located unit executor_p attempts
              (mkState tt []) (Raise KeyError) (Some (attempt_of "a2"))
              (mkState tt []) E)
    as (before & a & after & st1 & Ea & P & R & C & I).
  injection C as <-.
  assert (S1 : forall l s s', processed executor_p l s s' -> s' = s).
  { intros l s s' Q. induction Q as [s|x t s b s1 s2 X _ IH]; [reflexivity|].
    rewrite IH. unfold executor_p in X.
    destruct (id_eqb (attempt_id x) (Some (py "a2"))); now inversion X. }
  exists before, after. split; [exact Ea|].
  split; [now rewrite <- (S1 _ _ _ P) at 2|].
  apply I.
  - repeat constructor; vm_compute; intuition discriminate.
  - discriminate.
Defined.

End AttemptInFlightRuns.

(* ================================================================= *)
(** ** The further properties on the scripted world *)

Section InvestigationRuns.

Import Anthropic Reference Examples.

(** [Examples.investigation] started from a transcript of one message: two
    messages of the first turn and the closing message are appended; the
    counter is 2, as is the number of tool results. *)
Lemma investigate_appends_exchanges_witness :
  exists appended,
    exchanges appended
    /\ tool_results appended = 2
    /\ fst (investigate (Config 5) transcript attempt int_int
              (start investigation))
       = Ok (transcript ++ appended, 2%Z).
Proof.
  edestruct (@investigate_appends_exchanges (script (list content_block))
               _ _ _ (Config 5) transcript)
    with (attempt_id := attempt) (arg_spec := int_int)
         (st := start investigation)
    as (appended & Em & Ex & Ec & El).
  - vm_compute. reflexivity.
  - exists appended. split; [exact Ex|]. split; [lia|].
    rewrite <- Em. reflexivity.
Defined.

(** The transcript of [Examples.investigation] ends with the assistant
    message of its last completion. *)
Lemma investigate_ends_with_assistant_message_witness :
  exists messages',
    fst (investigate (Config 5) [] attempt int_int (start investigation))
    = Ok (messages', 2%Z)
    /\ exists blocks,
         last_message messages' = Ok (Message assistant blocks)
         /\ tool_use_ids blocks = [].
Proof.
  edestruct (@investigate_ends_with_assistant_message
               (script (list content_block)) _ _ _ (Config 5) [])
    with (attempt_id := attempt) (arg_spec := int_int)
         (st := start investigation)
    as (blocks & L & E).
  - vm_compute. reflexivity.
  - eexists. split; [reflexivity|]. exists blocks. split; [exact L|exact E].
Defined.

(** 1114016 argument types: nothing is sent. *)
Lemma investigate_rejects_long_arg_spec_witness :
  investigate (Config 5) [] attempt
    (repeat (PStr (py "int")) (N.to_nat 1114016)) (start investigation)
  = (Raise ValueError, start investigation).
Proof.
  apply investigate_rejects_long_arg_spec.
  rewrite repeat_length, N2Nat.id. reflexivity.
Defined.

(** Three invocations in one turn; the oracle answers the second with a
    string: two requests are sent, the third invocation is not. *)
Lemma handle_tool_calls_non_mapping_reply_witness :
  let w := Script [PDict [(py "output", PInt 8)]; PStr (py "busy")]
             [] final_completion [] in
  let run := handle_tool_calls attempt [call_ab; call_c; call_c] [] 0%Z
               (start w) in
  fst run = Raise AttributeError
  /\ calls_to (py "test-function") (log (snd run)) = 2.
Proof.
  intros w run.
  assert (E : run
              = (Raise AttributeError,
                 mkState (Script [] [] final_completion [])
                   (log (start w)
                    ++ map (test_function_call attempt)
                         ([call_ab] ++ [call_c])))).
  { apply (@handle_tool_calls_non_mapping_reply _ _ _ attempt [call_ab]
             call_c [call_c] [] 0%Z (start w)
             [PDict [(py "output", PInt 8)]]
             (Script [PStr (py "busy")] [] final_completion [])
             (PStr (py "busy")) (Script [] [] final_completion []));
      reflexivity. }
  rewrite E. split; reflexivity.
Defined.

(** No request of [Examples.investigation] goes to
    [attempt-verification]. *)
Lemma investigate_only_tests_witness :
  calls_to (py "attempt-verification")
    (log (snd (investigate (Config 5) [] attempt int_int
                 (start investigation))))
  = 0.
Proof.
  rewrite (@investigate_only_tests _ _ _ _ (py "attempt-verification")
             (Config 5) [] attempt int_int (start investigation)).
  - reflexivity.
  - discriminate.
Defined.

End InvestigationRuns.

Section VerificationRuns.

Import Reference Examples.

(** An oracle without any case: [verify] returns [True] at once. *)
Lemma verify_without_cases_succeeds_witness :
  let w := Script [] [] prediction [] in
  let run := Anthropic.verify 10 transcript attempt (start w) in
  fst run = Ok (Some true) /\ model_calls (log (snd run)) = 0.
Proof.
  intros w run. unfold run.
  rewrite (@verify_without_cases_succeeds _ _ _ _ 9 transcript
             attempt (start w) PNone w).
  - split; reflexivity.
  - reflexivity.
  - reflexivity.
Defined.

(** A completion that is not JSON, then a well-formed one. *)
Lemma ask_prediction_recovers_witness :
  let w := Script [] [[Anthropic.TextBlock (py "not json")]; prediction]
             prediction [] in
  let run := Anthropic.ask_prediction 3 transcript (start w) in
  fst run = Ok (PStr (py "t"), PInt 1) /\ model_calls (log (snd run)) = 2.
Proof.
  intros w run. unfold run.
  rewrite (@ask_prediction_recovers _ _ _ transcript (start w)
             [Anthropic.TextBlock (py "not json")] prediction
             (Script [] [prediction] prediction [])
             (Script [] [] prediction [])
             (PStr (py "t"), PInt 1)).
  - split; reflexivity.
  - reflexivity.
  - reflexivity.
  - reflexivity.
  - reflexivity.
Defined.

(** Two transcripts with the same last message are verified alike. *)
Lemma verify_reads_last_message_only_witness :
  Anthropic.verify 10
    (Anthropic.Prompt Anthropic.user (PStr (py "Investigate.")) :: transcript)
    attempt (start (verdicts ["correct"; "done"]%string))
  = Anthropic.verify 10 transcript attempt
      (start (verdicts ["correct"; "done"]%string)).
Proof.
  apply verify_reads_last_message_only. reflexivity.
Defined.

(** The OpenAI client: the completion of the only case is cut off. *)
Lemma openai_verify_length_error_succeeds_witness :
  let w := Script [case_data] [OpenAI.LengthFinishReasonError]
             OpenAI.LengthFinishReasonError [] in
  let run := OpenAI.verify 10 [PStr (py "I know.")] attempt (start w) in
  fst run = Ok (Some true) /\ predictions (log (snd run)) = 0.
Proof.
  intros w run. unfold run.
  rewrite (@openai_verify_length_error_succeeds _ oracle openai json 9
             [PStr (py "I know.")] attempt (start w) case_data
             (Script [] [OpenAI.LengthFinishReasonError]
                OpenAI.LengthFinishReasonError [])
             (PList [PInt 1; PInt 2]) (PStr (py "integer"))
             (Script [] [] OpenAI.LengthFinishReasonError [])).
  - split; reflexivity.
  - reflexivity.
  - reflexivity.
  - reflexivity.
  - reflexivity.
  - reflexivity.
Defined.

(** The OpenAI client: the response of the only case is not JSON. *)
Lemma openai_verify_raises_on_malformed_json_witness :
  let w := Script [case_data] [OpenAI.Completion [Some (py "not json")]]
             OpenAI.LengthFinishReasonError [] in
  let run := OpenAI.verify 10 [PStr (py "I know.")] attempt (start w) in
  fst run = Raise JSONDecodeError
  /\ model_calls (log (snd run)) = 1
  /\ predictions (log (snd run)) = 0.
Proof.
  intros w run. unfold run.
  rewrite (@openai_verify_raises_on_malformed_json _ oracle openai json 9
             [PStr (py "I know.")] attempt (start w) case_data
             (Script [] [OpenAI.Completion [Some (py "not json")]]
                OpenAI.LengthFinishReasonError [])
             (PList [PInt 1; PInt 2]) (PStr (py "integer"))
             (py "not json") []
             (Script [] [] OpenAI.LengthFinishReasonError [])).
  - repeat split; reflexivity.
  - reflexivity.
  - reflexivity.
  - reflexivity.
  - reflexivity.
  - reflexivity.
  - reflexivity.
Defined.

(** The Google client: the completion of the only case has no parsed
    value. *)
Lemma google_verify_raises_without_parsed_witness :
  let w : script Google.completion := Script [case_data] [None] None [] in
  let run := Google.verify 10 [PStr (py "I know.")] attempt (start w) in
  fst run = Raise AttributeError
  /\ model_calls (log (snd run)) = 1
  /\ predictions (log (snd run)) = 0.
Proof.
  intros w run. unfold run.
  rewrite (@google_verify_raises_without_parsed _ oracle google 9
             [PStr (py "I know.")] attempt (start w) case_data
             (Script [] [None] None [])
             (PList [PInt 1; PInt 2]) (PStr (py "integer"))
             (Script [] [] None [])).
  - repeat split; reflexivity.
  - reflexivity.
  - reflexivity.
  - reflexivity.
  - reflexivity.
  - reflexivity.
Defined.

(** A response with white space around it and no backquote. *)
Lemma clean_response_without_backquote_witness :
  Anthropic.clean_response (Some (py " {} ")) = Some (py " {} ").
Proof.
  apply clean_response_without_backquote.
  vm_compute. intuition discriminate.
Defined.

End VerificationRuns.

Section ResumeRuns.

Import RunUtils Reference Examples.

(** A response that reports success in capitals, and a request that
    exits with code 2. *)
Lemma reset_attempt_outcomes_witness :
  reset_attempt (py "run") (py "a2") (start reset_ok)
  = (Ok true, mkState (Script [] [] tt []) [ResetCall (py "run") (py "a2")])
  /\ reset_attempt (py "run") (py "a2")
       (start (Script [] [] tt [Raise (SystemExit 2)]))
     = (Raise (SystemExit 2),
        mkState (Script [] [] tt []) [ResetCall (py "run") (py "a2")]).
Proof.
  split.
  - assert (P : post_reset (py "run") (py "a2") (world (start reset_ok))
                = (Ok (q "{'status': 'Success'}"), Script [] [] tt []))
      by reflexivity.
    destruct (reset_attempt_outcomes (py "run") (py "a2") (start reset_ok) P)
      as (T & _).
    destruct (T _ eq_refl) as (ok & E & S).
    rewrite E. f_equal. f_equal. apply S, str_in_spec. reflexivity.
  - assert (P : post_reset (py "run") (py "a2")
                  (world (start (Script [] [] tt [Raise (SystemExit 2)])))
                = (Raise (SystemExit 2), Script [] [] tt []))
      by reflexivity.
    destruct (reset_attempt_outcomes (py "run") (py "a2") _ P) as (_ & X & _).
    exact (X 2%Z eq_refl).
Defined.

(** [skip] on [Examples.interrupted]: the world is as it was. *)
Lemma resume_without_reset_witness :
  snd (start_run_resume true (Some skip) (py "run") (Some interrupted)
         [py "a1"] (start reset_ok))
  = start reset_ok.
Proof.
  exact (proj1 (@resume_without_reset _ _ skip (py "run") interrupted
                  [py "a1"] (start reset_ok) (or_introl eq_refl))).
Defined.

(** A snapshot without attempts, a reset that succeeds: exit code 1. *)
Lemma resume_empty_snapshot_exits_witness :
  fst (start_run_resume true (Some retry) (py "run")
         (Some (FailedRun (FailureInfo (Some (attempt_of "a2")) [])
                  (PStr (py "1.0")) []))
         [py "a1"] (start reset_ok))
  = Raise (SystemExit 1).
Proof.
  destruct (@resume_empty_snapshot_exits _ _ retry (py "run")
              (FailedRun (FailureInfo (Some (attempt_of "a2")) [])
                 (PStr (py "1.0")) [])
              [py "a1"] (start reset_ok) eq_refl)
    as (code & E & [->|(_ & in_flight & aid & C & I & X)]).
  - exact E.
  - injection C as <-. injection I as <-. discriminate X.
Defined.

(** [retry] on [Examples.interrupted]: a2 and a3 are selected; neither is
    the completed a1. *)
Lemma resume_selects_from_snapshot_witness :
  Forall (fun a => exists i, attempt_id a = Some i /\ ~ In i [py "a1"])
    [attempt_of "a2"; attempt_of "a3"].
Proof.
  apply Forall_forall.
  edestruct (@resume_selects_from_snapshot _ _ true (Some retry) (py "run")
               (Some interrupted) [py "a1"] (start reset_ok))
    with (attempts := [attempt_of "a2"; attempt_of "a3"])
    as (run & keep & _ & _ & I).
  - reflexivity.
  - exact I.
Defined.

End ResumeRuns.

(* ================================================================= *)
(** ** Configuration ([start_run], [completionfn]) *)

Lemma dict_get_set {V} (d : dict V) (k : pystr) (v : V) (k' : pystr) :
  dict_get (dict_set d k v) k'
  = if str_eqb k' k then Some v else dict_get d k'.
Proof.
  induction d as [|[k0 v0] t IH]; cbn [dict_set dict_get]; [reflexivity|].
  destruct (str_eqb k k0) eqn:E; cbn [dict_get].
  - apply str_eqb_eq in E. subst k0. now destruct (str_eqb k' k).
  - rewrite IH. destruct (str_eqb k' k0) eqn:E0; [|reflexivity].
    destruct (str_eqb k' k) eqn:E1; [|reflexivity].
    apply str_eqb_eq in E0, E1. subst. now rewrite str_eqb_refl in E.
Qed.

Lemma dict_get_merge {V} (b : dict V) :
  NoDup (dict_keys b) ->
  forall a k,
    dict_get (RunUtils.dict_merge a b) k
    = match dict_get b k with
      | Some v => Some v
      | None => dict_get a k
      end.
Proof.
  unfold RunUtils.dict_merge.
  induction b as [|[k0 v0] t IH]; intros N a k; [reflexivity|].
  cbn [fold_left fst snd dict_get]. inversion N as [|? ? Hk Nt]; subst.
  rewrite IH by exact Nt. rewrite dict_get_set.
  destruct (str_eqb k k0) eqn:E; [|reflexivity].
  apply str_eqb_eq in E. subst k0.
  replace (dict_get t k) with (@None V); [reflexivity|].
  symmetry. now apply dict_get_none.
Qed.

Lemma dict_get_filter_key {V} (f : pystr -> bool) (d : dict V) (k : pystr) :
  dict_get (filter (fun kv => f (fst kv)) d) k
  = if f k then dict_get d k else None.
Proof.
  induction d as [|[k0 v0] t IH]; cbn [filter fst dict_get].
  - now destruct (f k).
  - destruct (f k0) eqn:F0; cbn [dict_get]; rewrite IH;
      destruct (str_eqb k k0) eqn:E; try reflexivity;
      apply str_eqb_eq in E; subst k0; now rewrite F0.
Qed.

Lemma filter_keys_nodup {V} (p : pystr * V -> bool) (d : dict V) :
  NoDup (dict_keys d) -> NoDup (dict_keys (filter p d)).
Proof.
  induction d as [|kv t IH]; cbn [filter dict_keys map]; [auto|].
  intros N. inversion N as [|? ? Hk Nt]; subst.
  destruct (p kv); cbn [dict_keys map]; [|now apply IH].
  constructor; [|now apply IH].
  intros I. apply Hk. apply in_map_iff in I as (x & E & I).
  apply filter_In in I as [I _]. apply in_map_iff. now exists x.
Qed.

Section Configuration.

Import RunUtils Fireworks.

(** X29.  In the configuration [start_run] builds, a key is read from the
    credentials file first, then from the settings of the chosen provider,
    then from the top level of the configuration file; the top-level key
    [providers] itself is not carried over. *)
Theorem start_run_config_precedence (provider : pystr)
  (config_raw credentials settings : dict pyval) (providers : pyval) :
  NoDup (dict_keys config_raw) ->
  NoDup (dict_keys settings) ->
  NoDup (dict_keys credentials) ->
  dict_get config_raw (py "providers") = Some providers ->
  py_getitem providers provider = Ok (PDict settings) ->
  exists config,
    start_run_config provider config_raw credentials = Ok config
    /\ forall k,
         dict_get config k
         = match dict_get credentials k with
           | Some v => Some v
           | None =>
               match dict_get settings k with
               | Some v => Some v
               | None =>
                   if str_eqb k (py "providers") then None
                   else dict_get config_raw k
               end
           end.
Proof.
  intros Nr Ns Nc P S. unfold start_run_config, dict_getitem.
  rewrite P. cbn [rbind]. rewrite S. cbn [rbind].
  eexists. split; [reflexivity|]. intros k.
  rewrite !dict_get_merge by assumption.
  rewrite dict_of_items_nodup by (now apply filter_keys_nodup).
  rewrite (dict_get_filter_key
             (fun key => negb (str_eqb key (py "providers")))).
  now destruct (str_eqb k (py "providers")).
Qed.

Lemma from_config_get (config : dict pyval) (key : pystr)
  (kwargs : dict pyval) (k : pystr) :
  dict_get (from_config config key kwargs) k
  = if str_eqb k key
    then match dict_get config key with
         | Some v => Some v
         | None => dict_get kwargs key
         end
    else dict_get kwargs k.
Proof.
  unfold from_config. destruct (dict_get config key) as [v|].
  - apply dict_get_set.
  - destruct (str_eqb k key) eqn:E; [|reflexivity].
    apply str_eqb_eq in E. now subst.
Qed.

(** Comparisons of two literal keys are evaluated. *)
Ltac literal_keys :=
  repeat match goal with
         | |- context [str_eqb (py ?a) (py ?b)] =>
             let v := eval vm_compute in (str_eqb (py a) (py b)) in
             change (str_eqb (py a) (py b)) with v
         end;
  cbn [orb]; cbv iota.

(** X30.  The keyword arguments that reach the Fireworks client.  Without
    a configured [model] the call raises [KeyError]; a caller's keyword
    [model] or [client] makes it raise [TypeError].  Otherwise the
    configuration wins over the caller: [temperature], [extra_body] and
    [max_tokens] are those of the configuration whenever it has them and
    the caller's otherwise, [model] is that of the configuration, and
    every other keyword is the caller's. *)
Theorem completion_kwargs_config_wins (config kwargs : dict pyval) :
  match dict_get config (py "model") with
  | None => completion_kwargs config kwargs = Raise KeyError
  | Some model =>
      match dict_get kwargs (py "model"), dict_get kwargs (py "client") with
      | None, None =>
          exists request,
            completion_kwargs config kwargs = Ok request
            /\ forall k,
                 dict_get request k
                 = if str_eqb k (py "model") then Some model
                   else if existsb (str_eqb k)
                             [py "temperature"; py "extra_body";
                              py "max_tokens"]
                   then match dict_get config k with
                        | Some v => Some v
                        | None => dict_get kwargs k
                        end
                   else dict_get kwargs k
      | _, _ => completion_kwargs config kwargs = Raise TypeError
      end
  end.
Proof.
  unfold completion_kwargs, dict_getitem. cbv zeta.
  destruct (dict_get config (py "model")) as [model|]; [|reflexivity].
  cbn [rbind].
  assert (M : forall key,
             existsb (str_eqb key)
               [py "temperature"; py "extra_body"; py "max_tokens"] = false ->
             dict_get
               (from_config config (py "max_tokens")
                  (from_config config (py "extra_body")
                     (from_config config (py "temperature") kwargs))) key
             = dict_get kwargs key).
  { intros key X. cbn [existsb] in X.
    apply orb_false_iff in X as [X1 X]. apply orb_false_iff in X as [X2 X].
    apply orb_false_iff in X as [X3 _].
    now rewrite !from_config_get, X1, X2, X3. }
  rewrite (M (py "model") eq_refl), (M (py "client") eq_refl).
  destruct (dict_get kwargs (py "model")); [reflexivity|].
  destruct (dict_get kwargs (py "client")); [reflexivity|].
  eexists. split; [reflexivity|]. intros k.
  cbn [dict_get existsb]. destruct (str_eqb k (py "model")); [reflexivity|].
  rewrite !from_config_get. literal_keys.
  destruct (str_eqb k (py "max_tokens")) eqn:E3.
  { apply str_eqb_eq in E3. subst k. literal_keys.
    now destruct (dict_get config (py "max_tokens")). }
  destruct (str_eqb k (py "extra_body")) eqn:E2.
  { apply str_eqb_eq in E2. subst k. literal_keys.
    now destruct (dict_get config (py "extra_body")). }
  destruct (str_eqb k (py "temperature")) eqn:E1; [|reflexivity].
  apply str_eqb_eq in E1. subst k. reflexivity.
Qed.

End Configuration.

Section ConfigurationRuns.

Import RunUtils Fireworks.

(** A configuration file with a rate limit and two providers, credentials
    with the keys: the configuration has the model of the chosen provider
    and no [providers]. *)
Lemma start_run_config_precedence_witness :
  exists config,
    start_run_config (py "anthropic")
      [(py "rate-limit", PInt 1);
       (py "providers",
        PDict [(py "anthropic", PDict [(py "model", PStr (py "claude"))]);
               (py "openai", PDict [(py "model", PStr (py "gpt"))])])]
      [(py "api-keys", PDict [])]
    = Ok config
    /\ dict_get config (py "model") = Some (PStr (py "claude"))
    /\ dict_get config (py "providers") = None.
Proof.
  edestruct (@start_run_config_precedence (py "anthropic")
               [(py "rate-limit", PInt 1);
                (py "providers",
                 PDict [(py "anthropic",
                         PDict [(py "model", PStr (py "claude"))]);
                        (py "openai", PDict [(py "model", PStr (py "gpt"))])])]
               [(py "api-keys", PDict [])]
               [(py "model", PStr (py "claude"))])
    as (config & E & G).
  - repeat constructor; vm_compute; intuition discriminate.
  - repeat constructor; vm_compute; intuition discriminate.
  - repeat constructor; vm_compute; intuition discriminate.
  - reflexivity.
  - reflexivity.
  - exists config. split; [exact E|]. rewrite !G. split; reflexivity.
Defined.

(** The caller asks for temperature 1, the configuration says 0; a caller
    who passes [client] is refused. *)
Lemma completion_kwargs_config_wins_witness :
  let config := [(py "model", PStr (py "llama")); (py "temperature", PInt 0)] in
  let kwargs := [(py "messages", PList []); (py "temperature", PInt 1)] in
  completion_kwargs config kwargs
  = Ok [(py "model", PStr (py "llama")); (py "messages", PList []);
        (py "temperature", PInt 0)]
  /\ completion_kwargs config ((py "client", PNone) :: kwargs)
     = Raise TypeError.
Proof.
  intros config kwargs. split.
  - pose proof (completion_kwargs_config_wins config kwargs) as P.
    change (dict_get config (py "model")) with (Some (PStr (py "llama")))
      in P.
    change (dict_get kwargs (py "model")) with (@None pyval) in P.
    change (dict_get kwargs (py "client")) with (@None pyval) in P.
    cbv iota in P. destruct P as (request & E & _).
    rewrite E. apply (f_equal (@Ok _)).
    assert (X : Ok request
                = Ok [(py "model", PStr (py "llama"));
                      (py "messages", PList []);
                      (py "temperature", PInt 0)])
      by (rewrite <- E; reflexivity).
    now injection X.
  - pose proof (completion_kwargs_config_wins config
                  ((py "client", PNone) :: kwargs)) as P.
    change (dict_get config (py "model")) with (Some (PStr (py "llama")))
      in P.
    change (dict_get ((py "client", PNone) :: kwargs) (py "model"))
      with (@None pyval) in P.
    change (dict_get ((py "client", PNone) :: kwargs) (py "client"))
      with (Some PNone) in P.
    exact P.
Defined.

End ConfigurationRuns.
